(** * Form preview runtime of the form builder

    A shallow embedding of [src/components/FormPreview.tsx]: the condition
    evaluator ([evaluateRule], [evaluateCondition]), the step validator
    ([validateStep]), the navigation resolver ([getNextStepIndex]), the
    event handlers of the preview ([handleContinue], [handleInputChange],
    [resetPreview], [transitionToStep], ...) and the progress calculation.

    Conventions of the embedding.
    - A JavaScript number is a binary64 float ([PrimFloat.float]); an array
      index or a step priority, which the program only ever holds as an
      integer, is a [Z].
    - A JavaScript string is a [string]; the string helpers below are
      given on the ASCII repertoire (code units below 128).
    - An object used as a dictionary ([formData], [errors]) is a [gmap]
      from [string]; a key that is absent reads as [undefined].  Keys are
      question ids and field names: the properties that every JavaScript
      object inherits (such as [constructor]) are outside the model.
    - An answer is one of the values that the input handlers and the data
      model produce: a string, a number, a boolean, an array of strings,
      [null] or [undefined].
    - Built-ins whose behaviour is fixed by ECMAScript and not by this
      program ([new RegExp(p)] on an author-supplied pattern, the
      conversion between strings and numbers) are the fields of the class
      [JsRuntime]. *)

From Stdlib Require Import ZArith List String Ascii Bool Lia Floats.
From Stdlib Require Import Sorting.Permutation Sorting.Sorted.
From stdpp Require Import base option gmap strings list.

Import ListNotations.
Local Open Scope string_scope.
Local Open Scope Z_scope.

(** ** Strings *)

Module JsString.

(** [\s] of a regular expression, on ASCII: TAB, LF, VT, FF, CR, SPACE. *)
Definition isWhiteSpace (c : ascii) : bool :=
  let n := nat_of_ascii c in
  ((9 <=? n)%nat && (n <=? 13)%nat) || (n =? 32)%nat.

Definition isDigit (c : ascii) : bool :=
  let n := nat_of_ascii c in (48 <=? n)%nat && (n <=? 57)%nat.

Definition isUpper (c : ascii) : bool :=
  let n := nat_of_ascii c in (65 <=? n)%nat && (n <=? 90)%nat.

Definition isLower (c : ascii) : bool :=
  let n := nat_of_ascii c in (97 <=? n)%nat && (n <=? 122)%nat.

Definition upperChar (c : ascii) : ascii :=
  if isLower c then ascii_of_nat (nat_of_ascii c - 32) else c.

(** [s.toUpperCase()] *)
Fixpoint toUpperCase (s : string) : string :=
  match s with
  | EmptyString => EmptyString
  | String c s' => String (upperChar c) (toUpperCase s')
  end.

(** [s.replace(/\s/g, '')] *)
Fixpoint stripWhiteSpace (s : string) : string :=
  match s with
  | EmptyString => EmptyString
  | String c s' =>
      if isWhiteSpace c then stripWhiteSpace s' else String c (stripWhiteSpace s')
  end.

(** [s.startsWith(p)] *)
Fixpoint startsWith (s p : string) : bool :=
  match p, s with
  | EmptyString, _ => true
  | String _ _, EmptyString => false
  | String b p', String a s' => Ascii.eqb a b && startsWith s' p'
  end.

(** [s.includes(p)] *)
Fixpoint includes (s p : string) : bool :=
  startsWith s p ||
  match s with
  | EmptyString => false
  | String _ s' => includes s' p
  end.

(** [s.substring(start)] and [s.substring(0, n)] for in-range literals *)
Fixpoint dropChars (n : nat) (s : string) : string :=
  match n, s with
  | O, _ => s
  | S _, EmptyString => EmptyString
  | S n', String _ s' => dropChars n' s'
  end.

Fixpoint takeChars (n : nat) (s : string) : string :=
  match n, s with
  | O, _ => EmptyString
  | S _, EmptyString => EmptyString
  | S n', String c s' => String c (takeChars n' s')
  end.

(** [s.endsWith(p)] *)
Definition endsWith (s p : string) : bool :=
  (String.length p <=? String.length s)%nat &&
  String.eqb (dropChars (String.length s - String.length p) s) p.

(** [s.split(sep)] for a one-character separator: always at least one part *)
Fixpoint split (sep : ascii) (s : string) : list string :=
  match s with
  | EmptyString => [EmptyString]
  | String c s' =>
      if Ascii.eqb c sep then EmptyString :: split sep s'
      else match split sep s' with
           | [] => [String c EmptyString]
           | p :: ps => String c p :: ps
           end
  end.

(** [arr.join(',')] *)
Fixpoint join (l : list string) : string :=
  match l with
  | [] => EmptyString
  | [x] => x
  | x :: rest => x ++ "," ++ join rest
  end.

Fixpoint digitsValue (acc : option Z) (s : string) : option Z :=
  match s with
  | EmptyString => acc
  | String c s' =>
      if isDigit c
      then digitsValue
             (Some (10 * default 0 acc + Z.of_nat (nat_of_ascii c - 48))) s'
      else acc
  end.

Fixpoint skipWhiteSpace (s : string) : string :=
  match s with
  | String c s' => if isWhiteSpace c then skipWhiteSpace s' else s
  | EmptyString => EmptyString
  end.

(** [parseInt(s, 10)]: leading white space, an optional sign, then the
    longest run of decimal digits; [None] is [NaN]. *)
Definition parseInt (s : string) : option Z :=
  match skipWhiteSpace s with
  | String "-" s' => Z.opp <$> digitsValue None s'
  | String "+" s' => digitsValue None s'
  | s' => digitsValue None s'
  end.

Fixpoint natDigits (fuel n : nat) (acc : string) : string :=
  match fuel with
  | O => acc
  | S fuel' =>
      let acc' := String (ascii_of_nat (48 + n mod 10)) acc in
      if (n <? 10)%nat then acc' else natDigits fuel' (n / 10) acc'
  end.

(** The decimal numeral of an integer, as a template literal prints it. *)
Definition ofZ (z : Z) : string :=
  let n := Z.abs_nat z in
  let d := natDigits (S n) n EmptyString in
  if z <? 0 then String "-" d else d.

End JsString.

(** ** Anchored regular expressions

    The literal patterns of the validator are all of the form [/^...$/]: a
    match is a match of the whole string.  They are written as terms of
    [re] and run by derivatives. *)

Module Regex.

Inductive re : Type :=
| Void
| Eps
| Class (p : ascii -> bool)
| Seq (r1 r2 : re)
| Alt (r1 r2 : re)
| Star (r : re).

Fixpoint nullable (r : re) : bool :=
  match r with
  | Void => false
  | Eps => true
  | Class _ => false
  | Seq r1 r2 => nullable r1 && nullable r2
  | Alt r1 r2 => nullable r1 || nullable r2
  | Star _ => true
  end.

Fixpoint deriv (c : ascii) (r : re) : re :=
  match r with
  | Void => Void
  | Eps => Void
  | Class p => if p c then Eps else Void
  | Seq r1 r2 =>
      if nullable r1
      then Alt (Seq (deriv c r1) r2) (deriv c r2)
      else Seq (deriv c r1) r2
  | Alt r1 r2 => Alt (deriv c r1) (deriv c r2)
  | Star r1 => Seq (deriv c r1) (Star r1)
  end.

(** [/^r$/.test(s)] *)
Fixpoint test (r : re) (s : string) : bool :=
  match s with
  | EmptyString => nullable r
  | String c s' => test (deriv c r) s'
  end.

Definition Plus (r : re) : re := Seq r (Star r).
Definition Opt (r : re) : re := Alt r Eps.
Definition Lit (c : ascii) : re := Class (Ascii.eqb c).

(** [r{n}] and [r{lo,hi}] *)
Fixpoint Times (n : nat) (r : re) : re :=
  match n with O => Eps | S n' => Seq r (Times n' r) end.

Fixpoint UpTo (n : nat) (r : re) : re :=
  match n with O => Eps | S n' => Opt (Seq r (UpTo n' r)) end.

Definition Between (lo hi : nat) (r : re) : re :=
  Seq (Times lo r) (UpTo (hi - lo) r).

(** [r{n,}] *)
Definition AtLeast (n : nat) (r : re) : re := Seq (Times n r) (Star r).

End Regex.

(** ** JavaScript values held in the answer map *)

Inductive JsValue : Type :=
| VUndefined
| VNull
| VBool (b : bool)
| VNumber (x : float)
| VString (s : string)
| VArray (l : list string).

(** Built-ins of the host that the program calls and does not define. *)
Class JsRuntime : Type := {
  (** a compiled regular expression *)
  RegExp : Type;
  (** [new RegExp(p)]; [None] when the constructor throws a [SyntaxError] *)
  RegExp_new : string -> option RegExp;
  (** [re.test(s)] *)
  RegExp_test : RegExp -> string -> bool;
  (** [Number(s)] on a string *)
  StringToNumber : string -> float;
  (** [String(x)] on a number *)
  NumberToString : float -> string;
  (** [Math.pow(x, y)] *)
  Math_pow : float -> float -> float
}.

Module Js.

Definition isNaN (x : float) : bool := negb (PrimFloat.eqb x x).

Definition ofZ (z : Z) : float :=
  if z <? 0 then PrimFloat.opp (PrimFloat.of_uint63 (Uint63.of_Z (- z)))
  else PrimFloat.of_uint63 (Uint63.of_Z z).

(** A number is falsy when it is [0], [-0] or [NaN]. *)
Definition truthyNumber (x : float) : bool :=
  negb (PrimFloat.eqb x PrimFloat.zero) && negb (isNaN x).

(** Truthiness: what [if (v)], [!v] and [v || d] test. *)
Definition truthy (v : JsValue) : bool :=
  match v with
  | VUndefined | VNull => false
  | VBool b => b
  | VNumber x => truthyNumber x
  | VString s => negb (String.eqb s "")
  | VArray _ => true
  end.

(** [v === s] against a string *)
Definition strictEqString (v : JsValue) (s : string) : bool :=
  match v with VString t => String.eqb t s | _ => false end.

Section WithRuntime.
Context `{JsRuntime}.

(** [String(v)] *)
Definition toString (v : JsValue) : string :=
  match v with
  | VUndefined => "undefined"
  | VNull => "null"
  | VBool true => "true"
  | VBool false => "false"
  | VNumber x => NumberToString x
  | VString s => s
  | VArray l => JsString.join l
  end.

(** [Number(v)] *)
Definition toNumber (v : JsValue) : float :=
  match v with
  | VUndefined => PrimFloat.nan
  | VNull => PrimFloat.zero
  | VBool true => PrimFloat.one
  | VBool false => PrimFloat.zero
  | VNumber x => x
  | VString s => StringToNumber s
  | VArray l => StringToNumber (JsString.join l)
  end.
End WithRuntime.

End Js.

(** ** The form document ([types/index.ts]) *)

Inductive QuestionType : Type :=
| text | textarea | email | phone | number | currency | radio | checkbox
| select | multiselect | date | time | datetime | file | rating | slider
| hidden | eircode | numberplate | privacy_policy | helper_text.

Record QuestionValidation : Type := {
  required : bool;
  minLength : option float;
  maxLength : option float;
  min : option float;
  max : option float;
  pattern : option string;
  patternMessage : option string
}.

(** [operator] is a string of the document; [other_operator] stands for
    any string outside the ten cases of the [switch]. *)
Inductive ConditionOperator : Type :=
| equals | not_equals | contains | not_contains | greater_than | less_than
| is_empty | is_not_empty | starts_with | ends_with
| other_operator (name : string).

Record ConditionRule : Type := {
  questionId : string;
  operator : ConditionOperator;
  value : string
}.

Inductive ConditionLogic : Type := AND | OR.

Record Condition : Type := {
  logic : ConditionLogic;
  rules : list ConditionRule
}.

Record Question : Type := {
  questionIdent : string;
  type : QuestionType;
  fieldName : option string;
  validation : QuestionValidation;
  useDateInputMask : bool;
  conditionalDisplay : option Condition
}.

Inductive TargetType : Type :=
| next | previous | specific | submit | url.

Record NavigationTarget : Type := {
  targetType : TargetType;
  stepId : option string
}.

Record ConditionalNavigation : Type := {
  condition : Condition;
  target : NavigationTarget;
  priority : Z
}.

Record Step : Type := {
  stepIdent : string;
  questions : list Question;
  conditionalNavigation : list ConditionalNavigation;
  defaultNextStep : option string;
  defaultPrevStep : option string;
  validateOnContinue : bool;
  autoAdvance : bool;
  enterKeyAdvance : bool
}.

Inductive ProgressMode : Type :=
| linear | step_based | weighted | exponential | question_based
| other_mode.

Record ProgressConfig : Type := {
  mode : ProgressMode;
  stepWeights : option (gmap string float);
  exponentialBase : option float
}.

Record Form : Type := {
  steps : list Step;
  progressConfig : ProgressConfig
}.

(** An optional string property tested for truthiness, as in
    [if (step.defaultNextStep)] or [question.fieldName || question.id]. *)
Definition truthyString (o : option string) : option string :=
  match o with
  | Some s => if String.eqb s "" then None else Some s
  | None => None
  end.

(** [arr[i]] for a number [i] that is an integer *)
Definition nthZ {A : Type} (l : list A) (i : Z) : option A :=
  if i <? 0 then None else l !! Z.to_nat i.

(** [form.steps.findIndex((s) => s.id === sid)] *)
Fixpoint findIndexFrom (i : Z) (l : list Step) (sid : string) : Z :=
  match l with
  | [] => -1
  | s :: rest =>
      if String.eqb (stepIdent s) sid then i else findIndexFrom (i + 1) rest sid
  end.

Definition findIndex (l : list Step) (sid : string) : Z := findIndexFrom 0 l sid.

(** ** Condition evaluator (FormPreview.tsx, lines 119-182) *)

Section Evaluator.
Context `{JsRuntime}.
Variable formData : gmap string JsValue.

(** [formData[k]]: an absent key reads as [undefined] *)
Definition readAnswer (k : string) : JsValue :=
  default VUndefined (formData !! k).

(** [formData[rule.questionId] || ''] *)
Definition ruleValue (rule : ConditionRule) : JsValue :=
  let v := readAnswer (questionId rule) in
  if Js.truthy v then v else VString "".

(** The [switch] of [evaluateRule], on the value resolved by its first line *)
Definition evaluateOn (value_ : JsValue) (rule : ConditionRule) : bool :=
  let compareValue := value rule in
  match operator rule with
  | equals =>
      match value_ with
      | VArray l => existsb (String.eqb compareValue) l
      | _ => Js.strictEqString value_ compareValue
      end
  | not_equals =>
      match value_ with
      | VArray l => negb (existsb (String.eqb compareValue) l)
      | _ => negb (Js.strictEqString value_ compareValue)
      end
  | contains =>
      match value_ with
      | VArray l => existsb (fun v => JsString.includes v compareValue) l
      | _ => JsString.includes (Js.toString value_) compareValue
      end
  | not_contains =>
      match value_ with
      | VArray l => negb (existsb (fun v => JsString.includes v compareValue) l)
      | _ => negb (JsString.includes (Js.toString value_) compareValue)
      end
  | is_empty =>
      match value_ with
      | VArray l => (length l =? 0)%nat
      | _ => negb (Js.truthy value_) || Js.strictEqString value_ ""
      end
  | is_not_empty =>
      match value_ with
      | VArray l => (0 <? length l)%nat
      | _ => Js.truthy value_ && negb (Js.strictEqString value_ "")
      end
  | greater_than =>
      PrimFloat.ltb (StringToNumber compareValue) (Js.toNumber value_)
  | less_than =>
      PrimFloat.ltb (Js.toNumber value_) (StringToNumber compareValue)
  | starts_with =>
      match value_ with
      | VArray l => existsb (fun v => JsString.startsWith v compareValue) l
      | _ => JsString.startsWith (Js.toString value_) compareValue
      end
  | ends_with =>
      match value_ with
      | VArray l => existsb (fun v => JsString.endsWith v compareValue) l
      | _ => JsString.endsWith (Js.toString value_) compareValue
      end
  | other_operator _ => true
  end.

Definition evaluateRule (rule : ConditionRule) : bool :=
  evaluateOn (ruleValue rule) rule.

Definition evaluateCondition (c : Condition) : bool :=
  let results := map evaluateRule (rules c) in
  match logic c with
  | AND => forallb (fun r => r) results
  | OR => existsb (fun r => r) results
  end.

(** [shouldShowQuestion] *)
Definition shouldShowQuestion (q : Question) : bool :=
  match conditionalDisplay q with
  | None => true
  | Some c => evaluateCondition c
  end.

End Evaluator.

(** ** Navigation resolver (FormPreview.tsx, lines 328-354) *)

(** [[...navs].sort((a, b) => b.priority - a.priority)].  [Array.prototype.sort]
    is stable and the comparator is a consistent order on integers, so the
    result is the one list that is a stable rearrangement in descending
    priority; it is computed here by stable insertion. *)
Fixpoint insertByPriority (x : ConditionalNavigation)
    (l : list ConditionalNavigation) : list ConditionalNavigation :=
  match l with
  | [] => [x]
  | y :: rest =>
      if priority y <=? priority x then x :: y :: rest
      else y :: insertByPriority x rest
  end.

Fixpoint sortedNavigation (l : list ConditionalNavigation)
    : list ConditionalNavigation :=
  match l with
  | [] => []
  | x :: rest => insertByPriority x (sortedNavigation rest)
  end.

Section Resolver.
Context `{JsRuntime}.
Variable form : Form.
Variable formData : gmap string JsValue.
Variable currentStep : Step.
Variable currentStepIndex : Z.

(** The [for] loop over the sorted rules: [Some i] when an iteration
    executes [return i], [None] when the loop runs to its end. *)
Fixpoint scanNavigation (navs : list ConditionalNavigation) : option Z :=
  match navs with
  | [] => None
  | nav :: rest =>
      if evaluateCondition formData (condition nav) then
        match targetType (target nav), truthyString (stepId (target nav)) with
        | submit, _ => Some (-1)
        | specific, Some sid =>
            let targetIndex := findIndex (steps form) sid in
            if targetIndex =? -1 then scanNavigation rest else Some targetIndex
        | next, _ => Some (currentStepIndex + 1)
        | _, _ => scanNavigation rest
        end
      else scanNavigation rest
  end.

(** The default navigation after the loop *)
Definition defaultNavigation : Z :=
  match truthyString (defaultNextStep currentStep) with
  | Some sid =>
      let targetIndex := findIndex (steps form) sid in
      if targetIndex =? -1 then currentStepIndex + 1 else targetIndex
  | None => currentStepIndex + 1
  end.

Definition resolveFrom (navs : list ConditionalNavigation) : Z :=
  match scanNavigation navs with
  | Some i => i
  | None => defaultNavigation
  end.

Definition getNextStepIndex : Z :=
  resolveFrom (sortedNavigation (conditionalNavigation currentStep)).

End Resolver.

(** [nextIndex === -1 || nextIndex >= form.steps.length] *)
Definition meansSubmit (form : Form) (nextIndex : Z) : bool :=
  (nextIndex =? -1) || (Z.of_nat (length (steps form)) <=? nextIndex).

(** ** Validator (FormPreview.tsx, lines 191-325) *)

(** How a call ends: with a value, or by an exception that nothing in the
    component catches. *)
Inductive JsError : Type := SyntaxError.

Inductive Completion (A : Type) : Type :=
| Normal (a : A)
| Throw (e : JsError).
Arguments Normal {A} a.
Arguments Throw {A} e.

Definition bindC {A B : Type} (c : Completion A) (k : A -> Completion B)
    : Completion B :=
  match c with
  | Normal a => k a
  | Throw e => Throw e
  end.

Module Validator.
Import Regex.

Definition notSpaceOrAt (c : ascii) : bool :=
  negb (JsString.isWhiteSpace c) && negb (Ascii.eqb c "@").

(** [/^[^\s@]+@[^\s@]+\.[^\s@]+$/] *)
Definition emailRegex : re :=
  Seq (Plus (Class notSpaceOrAt))
    (Seq (Lit "@")
       (Seq (Plus (Class notSpaceOrAt))
          (Seq (Lit ".") (Plus (Class notSpaceOrAt))))).

Definition phoneChar (c : ascii) : bool :=
  JsString.isDigit c || JsString.isWhiteSpace c ||
  Ascii.eqb c "-" || Ascii.eqb c "+" || Ascii.eqb c "(" || Ascii.eqb c ")".

(** [/^[\d\s\-+()]{7,}$/] *)
Definition phoneRegex : re := AtLeast 7 (Class phoneChar).

(** [/^\d{2,3}-[A-Z]{1,2}-\d{1,6}$/] *)
Definition numberPlateRegex : re :=
  Seq (Between 2 3 (Class JsString.isDigit))
    (Seq (Lit "-")
       (Seq (Between 1 2 (Class JsString.isUpper))
          (Seq (Lit "-") (Between 1 6 (Class JsString.isDigit))))).

Definition validEircodePrefixes : list string :=
  ["A41";"A42";"A45";"A63";"A67";"A75";"A81";"A82";"A83";"A84";"A85";"A86";
   "A91";"A92";"A94";"A96";"A98";"C15";"D01";"D02";"D03";"D04";"D05";"D06";
   "D6W";"D07";"D08";"D09";"D10";"D11";"D12";"D13";"D14";"D15";"D16";"D17";
   "D18";"D20";"D22";"D24";"E21";"E25";"E32";"E34";"E41";"E45";"E53";"E91";
   "F12";"F23";"F26";"F28";"F31";"F35";"F42";"F45";"F52";"F56";"F91";"F92";
   "F93";"F94";"H12";"H14";"H16";"H18";"H23";"H53";"H54";"H62";"H65";"H71";
   "H91";"K32";"K34";"K36";"K45";"K56";"K67";"K78";"N37";"N39";"N41";"N91";
   "P12";"P14";"P17";"P24";"P25";"P31";"P32";"P36";"P43";"P47";"P51";"P56";
   "P61";"P67";"P72";"P75";"P81";"P85";"R14";"R21";"R32";"R35";"R42";"R45";
   "R51";"R56";"R93";"R95";"T12";"T23";"T34";"T45";"T56";"V14";"V15";"V23";
   "V31";"V35";"V42";"V92";"V93";"V94";"V95";"W12";"W23";"W34";"W91";"X35";
   "X42";"X91";"Y14";"Y21";"Y25";"Y34";"Y35"].

Definition msgRequired : string := "This field is required".
Definition msgEmail : string := "Please enter a valid email address".
Definition msgPhone : string := "Please enter a valid phone number".
Definition msgEircode : string := "Please enter a valid Eircode (e.g. D02 X285)".
Definition msgNumberPlate : string :=
  "Please enter a valid number plate (e.g. 191-D-12345)".
Definition msgDateIncomplete : string := "Please enter a complete date (DD/MM/YYYY)".
Definition msgDateTimeIncomplete : string :=
  "Please enter a complete date and time (DD/MM/YYYY HH:MM)".
Definition msgDateFormat : string := "Please enter date in DD/MM/YYYY format".
Definition msgDateInvalid : string := "Please enter a valid date (DD/MM/YYYY)".
Definition msgTimeInvalid : string := "Please enter a valid time (00:00 - 23:59)".
Definition msgInvalidDay (daysInMonth : Z) : string :=
  "Invalid day for this month (max " ++ JsString.ofZ daysInMonth ++ ")".
Definition msgInvalidFormat : string := "Invalid format".

Definition isLeapYear (y : Z) : bool :=
  ((y mod 4 =? 0) && negb (y mod 100 =? 0)) || (y mod 400 =? 0).

(** [new Date(year, month, 0).getDate()]: the last day of month [month]
    (1 to 12) of a year between 1900 and 2100. *)
Definition daysInMonth (year month : Z) : Z :=
  if month =? 2 then (if isLeapYear year then 29 else 28)
  else if (month =? 4) || (month =? 6) || (month =? 9) || (month =? 11) then 30
  else 31.

(** [isNaN(day) || isNaN(month) || isNaN(year) || day < 1 || ...] *)
Definition badDate (day month year : option Z) : bool :=
  match day, month, year with
  | Some d, Some m, Some y =>
      (d <? 1) || (31 <? d) || (m <? 1) || (12 <? m) || (y <? 1900) || (2100 <? y)
  | _, _, _ => true
  end.

Definition badTime (hours minutes : option Z) : bool :=
  match hours, minutes with
  | Some h, Some m => (h <? 0) || (23 <? h) || (m <? 0) || (59 <? m)
  | _, _ => true
  end.

(** [parts.length !== 3 || parts[0].length !== 2 || ...] *)
Definition badParts (parts : list string) : bool :=
  match parts with
  | [p0; p1; p2] =>
      negb (String.length p0 =? 2)%nat || negb (String.length p1 =? 2)%nat ||
      negb (String.length p2 =? 4)%nat
  | _ => true
  end.

Definition dayCheck (day month year : option Z) : option string :=
  let dim := daysInMonth (default 0 year) (default 0 month) in
  if dim <? default 0 day then Some (msgInvalidDay dim) else None.

(** The message, if any, that the date-mask block assigns. *)
Definition dateMaskError (dateVal : string) : option string :=
  if negb (String.length dateVal =? 10)%nat then Some msgDateIncomplete
  else
    let parts := JsString.split "/" dateVal in
    if badParts parts then Some msgDateFormat
    else
      let day := JsString.parseInt (default "" (parts !! 0%nat)) in
      let month := JsString.parseInt (default "" (parts !! 1%nat)) in
      let year := JsString.parseInt (default "" (parts !! 2%nat)) in
      if badDate day month year then Some msgDateInvalid
      else dayCheck day month year.

(** The message, if any, that the datetime-mask block assigns. *)
Definition dateTimeMaskError (dateVal : string) : option string :=
  if negb (String.length dateVal =? 16)%nat then Some msgDateTimeIncomplete
  else
    let datePart := JsString.takeChars 10 dateVal in
    let timePart := JsString.dropChars 11 dateVal in
    let parts := JsString.split "/" datePart in
    if badParts parts then Some msgDateFormat
    else
      let day := JsString.parseInt (default "" (parts !! 0%nat)) in
      let month := JsString.parseInt (default "" (parts !! 1%nat)) in
      let year := JsString.parseInt (default "" (parts !! 2%nat)) in
      let timeParts := JsString.split ":" timePart in
      let hours := JsString.parseInt (default "" (timeParts !! 0%nat)) in
      let minutes := JsString.parseInt (default "undefined" (timeParts !! 1%nat)) in
      if badDate day month year then Some msgDateInvalid
      else if badTime hours minutes then Some msgTimeInvalid
      else dayCheck day month year.

(** The condition of the eircode block's [if] *)
Definition eircodeInvalid (s : string) : bool :=
  let eircodeVal := JsString.toUpperCase (JsString.stripWhiteSpace s) in
  let prefix := JsString.takeChars 3 eircodeVal in
  (String.length eircodeVal <? 7)%nat ||
  negb (existsb (String.eqb prefix) validEircodePrefixes).

Definition isType (q : Question) (t : QuestionType) : bool :=
  match type q, t with
  | text, text | textarea, textarea | email, email | phone, phone
  | number, number | currency, currency | radio, radio
  | checkbox, checkbox | select, select | multiselect, multiselect
  | date, date | time, time | datetime, datetime | file, file
  | rating, rating | slider, slider | hidden, hidden | eircode, eircode
  | numberplate, numberplate | privacy_policy, privacy_policy
  | helper_text, helper_text => true
  | _, _ => false
  end.

(** [question.fieldName || question.id] *)
Definition fieldKey (q : Question) : string :=
  default (questionIdent q) (truthyString (fieldName q)).

Abbreviation ErrorMap := (gmap string string).

Section WithAnswers.
Context `{JsRuntime}.
Variable formData : gmap string JsValue.

(** [if (c) newErrors[key] = msg;] *)
Definition assignIf (c : bool) (key msg : string) (e : ErrorMap) : ErrorMap :=
  if c then <[key := msg]> e else e.

Definition assignSome (m : option string) (key : string) (e : ErrorMap)
    : ErrorMap :=
  match m with Some msg => <[key := msg]> e | None => e end.

(** The two [if]s of the [required] block: [true] when one of them
    assigns the message and returns. *)
Definition missingRequired (v : JsValue) : bool :=
  match v with
  | VArray l => (length l =? 0)%nat
  | _ => negb (Js.truthy v) || Js.strictEqString v ""
  end.

(** The [pattern] block, the only place of the validator that can throw. *)
Definition patternBlock (q : Question) (key : string) (v : JsValue)
    (e : ErrorMap) : Completion ErrorMap :=
  match truthyString (pattern (validation q)) with
  | None => Normal e
  | Some p =>
      match RegExp_new p with
      | None => Throw SyntaxError
      | Some regex =>
          Normal (assignIf (negb (RegExp_test regex (Js.toString v))) key
                    (default msgInvalidFormat
                       (truthyString (patternMessage (validation q)))) e)
      end
  end.

Definition lengthBelow (v : JsValue) (bound : option float) : bool :=
  match bound with
  | Some b => Js.truthyNumber b &&
              PrimFloat.ltb (Js.ofZ (Z.of_nat (String.length (Js.toString v)))) b
  | None => false
  end.

Definition lengthAbove (v : JsValue) (bound : option float) : bool :=
  match bound with
  | Some b => Js.truthyNumber b &&
              PrimFloat.ltb b (Js.ofZ (Z.of_nat (String.length (Js.toString v))))
  | None => false
  end.

Definition numberBelow (v : JsValue) (bound : option float) : bool :=
  match bound with
  | Some b => PrimFloat.ltb (Js.toNumber v) b
  | None => false
  end.

Definition numberAbove (v : JsValue) (bound : option float) : bool :=
  match bound with
  | Some b => PrimFloat.ltb b (Js.toNumber v)
  | None => false
  end.

Definition boundText (bound : option float) : string :=
  NumberToString (default PrimFloat.zero bound).

(** The body of [if (value) { ... }], statement by statement. *)
Definition presentValueBlock (q : Question) (key : string) (v : JsValue)
    (e : ErrorMap) : Completion ErrorMap :=
  let s := Js.toString v in
  let vd := validation q in
  let e := assignIf (isType q email && negb (Regex.test emailRegex s))
             key msgEmail e in
  let e := assignIf (isType q phone && negb (Regex.test phoneRegex s))
             key msgPhone e in
  let e := assignIf (isType q eircode && eircodeInvalid s) key msgEircode e in
  let e := assignIf (isType q numberplate &&
                     negb (Regex.test numberPlateRegex (JsString.toUpperCase s)))
             key msgNumberPlate e in
  let e := if isType q date && useDateInputMask q
           then assignSome (dateMaskError s) key e else e in
  let e := if isType q datetime && useDateInputMask q
           then assignSome (dateTimeMaskError s) key e else e in
  let e := assignIf (lengthBelow v (minLength vd)) key
             ("Minimum " ++ boundText (minLength vd) ++ " characters required") e in
  let e := assignIf (lengthAbove v (maxLength vd)) key
             ("Maximum " ++ boundText (maxLength vd) ++ " characters allowed") e in
  let e := assignIf (numberBelow v (min vd)) key
             ("Minimum value is " ++ boundText (min vd)) e in
  let e := assignIf (numberAbove v (max vd)) key
             ("Maximum value is " ++ boundText (max vd)) e in
  patternBlock q key v e.

(** The callback of [currentStep.questions.forEach]. *)
Definition validateQuestion (e : ErrorMap) (q : Question)
    : Completion ErrorMap :=
  if negb (shouldShowQuestion formData q) then Normal e
  else if isType q hidden || isType q helper_text then Normal e
  else
    let key := fieldKey q in
    let v := readAnswer formData key in
    if required (validation q) && missingRequired v
    then Normal (<[key := msgRequired]> e)
    else if Js.truthy v then presentValueBlock q key v e
    else Normal e.

(** [forEach]: left to right, an exception ends the loop. *)
Fixpoint forEachQuestion (qs : list Question) (e : ErrorMap)
    : Completion ErrorMap :=
  match qs with
  | [] => Normal e
  | q :: rest => bindC (validateQuestion e q) (forEachQuestion rest)
  end.

(** [newErrors] as [validateStep] hands it to [setErrors]; the boolean
    it returns is [isValid] of that map. *)
Definition validateStep (currentStep : Step) : Completion ErrorMap :=
  forEachQuestion (questions currentStep) ∅.

Definition isValid (e : ErrorMap) : bool := (size e =? 0)%nat.

End WithAnswers.

End Validator.

(** ** The preview component as a machine

    A render of [FormPreview] closes its handlers over the state of that
    render: [ViewState] is that snapshot.  The two [useRef] cells are
    shared by all renders.  [setTimeout] appends a pending [Timer]; the
    callback of a timer still sees the snapshot of the render that
    created it. *)

Record ViewState : Type := {
  currentStepIndex : Z;
  formData : gmap string JsValue;
  errors : gmap string string;
  isSubmitting : bool;
  submitted : bool;
  isTransitioning : bool
}.

Record Refs : Type := {
  isNavigating : bool;
  pendingStepIndex : option Z
}.

Inductive Timer : Type :=
| FadeOut (newIndex : Z)          (* outer [setTimeout] of [transitionToStep], 150 ms *)
| FadeIn                          (* inner [setTimeout] of [transitionToStep], 150 ms *)
| AutoNavigate (snap : ViewState) (nav : ConditionalNavigation)
                                  (* [setTimeout] of the auto-navigation effect, 300 ms *)
| AutoAdvance (snap : ViewState)  (* [setTimeout] of [handleInputChange], 300 ms *)
| SubmitDelay.                    (* the simulated call of [handleSubmit], 1500 ms *)

Record Machine : Type := {
  view : ViewState;
  refs : Refs;
  timers : list Timer
}.

Module Preview.
Import Validator.

Definition initialView : ViewState :=
  {| currentStepIndex := 0; formData := ∅; errors := ∅;
     isSubmitting := false; submitted := false; isTransitioning := false |}.

Definition initial : Machine :=
  {| view := initialView;
     refs := {| isNavigating := false; pendingStepIndex := None |};
     timers := [] |}.

(** State setters and ref writes *)
Definition setCurrentStepIndex (i : Z) (m : Machine) : Machine :=
  {| view := {| currentStepIndex := i; formData := formData (view m);
                errors := errors (view m); isSubmitting := isSubmitting (view m);
                submitted := submitted (view m);
                isTransitioning := isTransitioning (view m) |};
     refs := refs m; timers := timers m |}.

Definition setFormData (d : gmap string JsValue) (m : Machine) : Machine :=
  {| view := {| currentStepIndex := currentStepIndex (view m); formData := d;
                errors := errors (view m); isSubmitting := isSubmitting (view m);
                submitted := submitted (view m);
                isTransitioning := isTransitioning (view m) |};
     refs := refs m; timers := timers m |}.

Definition setErrors (e : gmap string string) (m : Machine) : Machine :=
  {| view := {| currentStepIndex := currentStepIndex (view m);
                formData := formData (view m);
                errors := e; isSubmitting := isSubmitting (view m);
                submitted := submitted (view m);
                isTransitioning := isTransitioning (view m) |};
     refs := refs m; timers := timers m |}.

Definition setIsSubmitting (b : bool) (m : Machine) : Machine :=
  {| view := {| currentStepIndex := currentStepIndex (view m);
                formData := formData (view m);
                errors := errors (view m); isSubmitting := b;
                submitted := submitted (view m);
                isTransitioning := isTransitioning (view m) |};
     refs := refs m; timers := timers m |}.

Definition setSubmitted (b : bool) (m : Machine) : Machine :=
  {| view := {| currentStepIndex := currentStepIndex (view m);
                formData := formData (view m);
                errors := errors (view m); isSubmitting := isSubmitting (view m);
                submitted := b;
                isTransitioning := isTransitioning (view m) |};
     refs := refs m; timers := timers m |}.

Definition setIsTransitioning (b : bool) (m : Machine) : Machine :=
  {| view := {| currentStepIndex := currentStepIndex (view m);
                formData := formData (view m);
                errors := errors (view m); isSubmitting := isSubmitting (view m);
                submitted := submitted (view m);
                isTransitioning := b |};
     refs := refs m; timers := timers m |}.

Definition setIsNavigating (b : bool) (m : Machine) : Machine :=
  {| view := view m;
     refs := {| isNavigating := b; pendingStepIndex := pendingStepIndex (refs m) |};
     timers := timers m |}.

Definition setPendingStepIndex (p : option Z) (m : Machine) : Machine :=
  {| view := view m;
     refs := {| isNavigating := isNavigating (refs m); pendingStepIndex := p |};
     timers := timers m |}.

Definition setTimeout (t : Timer) (m : Machine) : Machine :=
  {| view := view m; refs := refs m; timers := timers m ++ [t] |}.

Section Handlers.
Context `{JsRuntime}.
Variable form : Form.

(** [form.steps[currentStepIndex] || form.steps[0]] *)
Definition currentStepOf (snap : ViewState) : option Step :=
  match nthZ (steps form) (currentStepIndex snap) with
  | Some s => Some s
  | None => steps form !! 0%nat
  end.

Definition transitionToStep (snap : ViewState) (newIndex : Z) (m : Machine)
    : Machine :=
  if isTransitioning snap then m
  else setTimeout (FadeOut newIndex)
         (setPendingStepIndex (Some newIndex) (setIsTransitioning true m)).

(** Up to the [await]; the rest runs when [SubmitDelay] fires. *)
Definition handleSubmit (m : Machine) : Machine :=
  setTimeout SubmitDelay (setIsSubmitting true m).

(** [currentStep.conditionalNavigation.some(nav => evaluateCondition(nav.condition))] *)
Definition conditionalNavMatched (snap : ViewState) (step : Step) : bool :=
  existsb (fun nav => evaluateCondition (formData snap) (condition nav))
    (conditionalNavigation step).

(** The call of [validateStep] in
    [!conditionalNavMatched && currentStep.validateOnContinue && !validateStep()]:
    [None] when the [&&] chain stops before it. *)
Definition continueValidation (snap : ViewState) (step : Step)
    : option (Completion ErrorMap) :=
  if negb (conditionalNavMatched snap step) && validateOnContinue step
  then Some (validateStep (formData snap) step)
  else None.

(** [handleContinue] from [const nextIndex = getNextStepIndex()] on *)
Definition continueNavigation (snap : ViewState) (step : Step) (m : Machine)
    : Machine :=
  let nextIndex :=
    getNextStepIndex form (formData snap) step (currentStepIndex snap) in
  if meansSubmit form nextIndex then handleSubmit m
  else transitionToStep snap nextIndex (setIsNavigating true m).

Definition handleContinue (snap : ViewState) (m : Machine)
    : Completion Machine :=
  match currentStepOf snap with
  | None => Normal m
  | Some step =>
      if isTransitioning snap then Normal m
      else
        match continueValidation snap step with
        | Some (Throw e) => Throw e
        | Some (Normal newErrors) =>
            let m := setErrors newErrors m in
            if isValid newErrors then Normal (continueNavigation snap step m)
            else Normal m
        | None => Normal (continueNavigation snap step m)
        end
  end.

Definition handleBack (snap : ViewState) (m : Machine) : Machine :=
  match currentStepOf snap with
  | None => m
  | Some step =>
      if isTransitioning snap then m
      else
        let m := setIsNavigating true m in
        let fallback := transitionToStep snap (Z.max 0 (currentStepIndex snap - 1)) m in
        match truthyString (defaultPrevStep step) with
        | Some sid =>
            let targetIndex := findIndex (steps form) sid in
            if targetIndex =? -1 then fallback
            else transitionToStep snap targetIndex m
        | None => fallback
        end
  end.

(** [value !== '' && value !== null && value !== undefined &&
     !(Array.isArray(value) && value.length === 0)] *)
Definition hasValidValue (v : JsValue) : bool :=
  match v with
  | VString s => negb (String.eqb s "")
  | VNull | VUndefined => false
  | VArray l => negb (length l =? 0)%nat
  | _ => true
  end.

Definition handleInputChange (snap : ViewState) (q : Question) (v : JsValue)
    (m : Machine) : Machine :=
  match currentStepOf snap with
  | None => m
  | Some step =>
      let key := fieldKey q in
      let m := setFormData (<[key := v]> (formData (view m))) m in
      let m :=
        match truthyString (errors snap !! key) with
        | Some _ => setErrors (delete key (errors (view m))) m
        | None => m
        end in
      if autoAdvance step && (length (questions step) =? 1)%nat
      then
        if hasValidValue v && negb (isNavigating (refs m)) &&
           negb (isTransitioning snap)
        then setTimeout (AutoAdvance snap) (setIsNavigating true m)
        else m
      else m
  end.

(** [handleKeyDown]: [onTextarea] is [e.target.matches('textarea')]. *)
Definition handleKeyDown (snap : ViewState) (key : string) (onTextarea : bool)
    (m : Machine) : Completion Machine :=
  match currentStepOf snap with
  | None => Normal m
  | Some step =>
      if String.eqb key "Enter" && negb onTextarea && enterKeyAdvance step
      then handleContinue snap m
      else Normal m
  end.

Definition resetPreview (m : Machine) : Machine :=
  setSubmitted false (setErrors ∅ (setFormData ∅ (setCurrentStepIndex 0 m))).

(** The auto-navigation [useEffect], run with the snapshot of the
    render it belongs to. *)
Fixpoint firstMatching (snap : ViewState) (navs : list ConditionalNavigation)
    : option ConditionalNavigation :=
  match navs with
  | [] => None
  | nav :: rest =>
      if evaluateCondition (formData snap) (condition nav) then Some nav
      else firstMatching snap rest
  end.

Definition autoNavigateEffect (snap : ViewState) (m : Machine) : Machine :=
  match currentStepOf snap with
  | None => m
  | Some step =>
      if isSubmitting snap || submitted snap || isNavigating (refs m) ||
         isTransitioning snap
      then m
      else
        match firstMatching snap (sortedNavigation (conditionalNavigation step)) with
        | Some nav => setTimeout (AutoNavigate snap nav) (setIsNavigating true m)
        | None => m
        end
  end.

(** What runs when a pending timer's delay has elapsed. *)
Definition fire (t : Timer) (m : Machine) : Machine :=
  match t with
  | FadeOut newIndex =>
      setTimeout FadeIn
        (setPendingStepIndex None (setCurrentStepIndex newIndex m))
  | FadeIn => setIsNavigating false (setIsTransitioning false m)
  | SubmitDelay => setIsSubmitting false (setSubmitted true m)
  | AutoNavigate snap nav =>
      match targetType (target nav), truthyString (stepId (target nav)) with
      | submit, _ => handleSubmit m
      | specific, Some sid =>
          let targetIndex := findIndex (steps form) sid in
          if targetIndex =? -1 then m else transitionToStep snap targetIndex m
      | next, _ => transitionToStep snap (currentStepIndex snap + 1) m
      | _, _ => m
      end
  | AutoAdvance snap =>
      match currentStepOf snap with
      | None => m
      | Some step =>
          let nextIndex :=
            getNextStepIndex form (formData snap) step (currentStepIndex snap) in
          if meansSubmit form nextIndex then handleSubmit m
          else transitionToStep snap nextIndex m
      end
  end.

(** Events of the single-threaded event loop.  A user event and an
    effect run see the snapshot of the latest render, which is the
    current [view]. *)
Inductive Event : Type :=
| ClickContinue
| ClickBack
| ClickReset
| InputChange (q : Question) (v : JsValue)
| KeyDown (key : string) (onTextarea : bool)
| EffectRun
| TimerElapsed (n : nat).

Definition removeNth {A : Type} (n : nat) (l : list A) : list A :=
  take n l ++ drop (S n) l.

Definition dispatch (ev : Event) (m : Machine) : Machine :=
  match ev with
  | ClickContinue =>
      match handleContinue (view m) m with
      | Normal m' => m'
      | Throw _ => m
      end
  | ClickBack => handleBack (view m) m
  | ClickReset => resetPreview m
  | InputChange q v => handleInputChange (view m) q v m
  | KeyDown key onTextarea =>
      match handleKeyDown (view m) key onTextarea m with
      | Normal m' => m'
      | Throw _ => m
      end
  | EffectRun => autoNavigateEffect (view m) m
  | TimerElapsed n =>
      match timers m !! n with
      | Some t =>
          fire t {| view := view m; refs := refs m;
                    timers := removeNth n (timers m) |}
      | None => m
      end
  end.

Definition run (evs : list Event) (m : Machine) : Machine :=
  fold_left (fun m ev => dispatch ev m) evs m.

End Handlers.

End Preview.

(** ** Progress (FormPreview.tsx, lines 22-51) *)

Module Progress.

Definition hundred : float := Js.ofZ 100.

(** [weights[s.id] || 1] *)
Definition weightOf (weights : gmap string float) (s : Step) : float :=
  match weights !! stepIdent s with
  | Some w => if Js.truthyNumber w then w else PrimFloat.one
  | None => PrimFloat.one
  end.

(** [arr.slice(0, stop)] *)
Definition sliceTo {A : Type} (stop : Z) (l : list A) : list A :=
  if stop <? 0 then take (Z.to_nat (Z.of_nat (length l) + stop)) l
  else take (Z.to_nat stop) l.

Definition sumWeights (weights : gmap string float) (l : list Step) : float :=
  fold_left (fun sum s => PrimFloat.add sum (weightOf weights s)) l PrimFloat.zero.

Section WithRuntime.
Context `{JsRuntime}.

Definition progress (form : Form) (view : ViewState) : float :=
  match Preview.currentStepOf form view with
  | None => PrimFloat.zero
  | Some _ =>
      let totalSteps := Z.of_nat (length (steps form)) in
      let currentStepIndex := currentStepIndex view in
      if totalSteps =? 0 then PrimFloat.zero
      else
        match mode (progressConfig form) with
        | linear =>
            PrimFloat.mul
              (PrimFloat.div (Js.ofZ (currentStepIndex + 1)) (Js.ofZ totalSteps))
              hundred
        | step_based =>
            PrimFloat.mul
              (PrimFloat.div (Js.ofZ (currentStepIndex + 1)) (Js.ofZ totalSteps))
              hundred
        | weighted =>
            let weights := default ∅ (stepWeights (progressConfig form)) in
            let totalWeight := sumWeights weights (steps form) in
            let completedWeight :=
              sumWeights weights (sliceTo (currentStepIndex + 1) (steps form)) in
            PrimFloat.mul (PrimFloat.div completedWeight totalWeight) hundred
        | exponential =>
            let base :=
              match exponentialBase (progressConfig form) with
              | Some b => if Js.truthyNumber b then b else Js.ofZ 2
              | None => Js.ofZ 2
              end in
            PrimFloat.mul
              (PrimFloat.div
                 (PrimFloat.sub (Math_pow base (Js.ofZ (currentStepIndex + 1))) PrimFloat.one)
                 (PrimFloat.sub (Math_pow base (Js.ofZ totalSteps)) PrimFloat.one))
              hundred
        | question_based =>
            let totalQuestions :=
              Z.of_nat (length (concat (map questions (steps form)))) in
            let answeredQuestions :=
              Z.of_nat (length (filter (fun kv => Js.truthy kv.2 = true)
                                  (map_to_list (formData view)))) in
            if 0 <? totalQuestions
            then PrimFloat.mul
                   (PrimFloat.div (Js.ofZ answeredQuestions) (Js.ofZ totalQuestions))
                   hundred
            else PrimFloat.zero
        | other_mode => PrimFloat.zero
        end
  end.
End WithRuntime.

End Progress.

(** ** A host for the examples

    The theorems below hold for every [JsRuntime].  The closed examples
    are run on this one.  It agrees with ECMAScript on what the examples
    use: a pattern of letters, digits and spaces only is a substring
    search; a pattern with an unterminated group, such as ["("], is a
    [SyntaxError] (this host reports every other pattern as one too);
    a decimal integer numeral converts to that integer and back; a power with
    a natural exponent is the repeated product. *)

Module ExampleHost.

Definition plainChar (c : ascii) : bool :=
  JsString.isDigit c || JsString.isUpper c || JsString.isLower c ||
  Ascii.eqb c " ".

Fixpoint allChars (p : ascii -> bool) (s : string) : bool :=
  match s with
  | EmptyString => true
  | String c s' => p c && allChars p s'
  end.

Definition compile (p : string) : option string :=
  if allChars plainChar p then Some p else None.

Definition stringToNumber (s : string) : float :=
  let t := JsString.skipWhiteSpace s in
  match t with
  | EmptyString => PrimFloat.zero
  | String "-" d =>
      if allChars JsString.isDigit d
      then match JsString.digitsValue None d with
           | Some z => Js.ofZ (- z)
           | None => PrimFloat.nan
           end
      else PrimFloat.nan
  | _ =>
      if allChars JsString.isDigit t
      then match JsString.digitsValue None t with
           | Some z => Js.ofZ z
           | None => PrimFloat.nan
           end
      else PrimFloat.nan
  end.

(** The integer that a float is, if it is one *)
Definition integerValue (x : float) : option Z :=
  match Prim2SF x with
  | S754_zero _ => Some 0
  | S754_finite neg m e =>
      if 0 <=? e
      then Some ((if neg then -1 else 1) * Z.pos m * 2 ^ e)
      else if Z.pos m mod 2 ^ (- e) =? 0
           then Some ((if neg then -1 else 1) * (Z.pos m / 2 ^ (- e)))
           else None
  | _ => None
  end.

Definition numberToString (x : float) : string :=
  match integerValue x with
  | Some z => JsString.ofZ z
  | None =>
      match Prim2SF x with
      | S754_infinity neg => if neg then "-Infinity" else "Infinity"
      | _ => "NaN"
      end
  end.

Fixpoint powNat (base : float) (n : nat) : float :=
  match n with
  | O => PrimFloat.one
  | S n' => PrimFloat.mul base (powNat base n')
  end.

(** [Math.pow] for an exponent that is a natural number *)
Definition pow (base exponent : float) : float :=
  match integerValue exponent with
  | Some z => if z <? 0 then PrimFloat.nan else powNat base (Z.to_nat z)
  | None => PrimFloat.nan
  end.

#[export] Instance host : JsRuntime := {|
  RegExp := string;
  RegExp_new := compile;
  RegExp_test := fun p s => JsString.includes s p;
  StringToNumber := stringToNumber;
  NumberToString := numberToString;
  Math_pow := pow
|}.

End ExampleHost.

Module Examples.
Import ExampleHost Validator.

Definition noValidation : QuestionValidation :=
  {| required := false; minLength := None; maxLength := None;
     min := None; max := None; pattern := None; patternMessage := None |}.

Definition question (name : string) (t : QuestionType) (v : QuestionValidation)
    : Question :=
  {| questionIdent := name; type := t; fieldName := None; validation := v;
     useDateInputMask := false; conditionalDisplay := None |}.

Definition plainStep (name : string) (qs : list Question) : Step :=
  {| stepIdent := name; questions := qs; conditionalNavigation := [];
     defaultNextStep := None; defaultPrevStep := None;
     validateOnContinue := true; autoAdvance := false;
     enterKeyAdvance := false |}.

Definition formOf (l : list Step) : Form :=
  {| steps := l;
     progressConfig := {| mode := linear; stepWeights := None;
                          exponentialBase := None |} |}.

End Examples.

Import ExampleHost.

(** ** Readings of the specification that the theorems compare with *)

(** [answers[rule.questionId] ?? '']: only an absent, [undefined] or [null]
    answer becomes the empty string. *)
Definition nullishValue (answers : gmap string JsValue) (rule : ConditionRule)
    : JsValue :=
  match answers !! questionId rule with
  | None | Some VUndefined | Some VNull => VString ""
  | Some v => v
  end.

Module Reading.
Import Validator.

(** [Some msg] when the check fails *)
Definition failing (c : bool) (msg : string) : option string :=
  if c then Some msg else None.

(** The message of the last failing check of a list of checks in order *)
Definition lastFailure (checks : list (option string)) : option string :=
  fold_left (fun acc c => match c with Some m => Some m | None => acc end)
    checks None.

Section WithRuntime.
Context `{JsRuntime}.

(** The type-specific format checks, in the order of the specification *)
Definition typeSpecificChecks (q : Question) (s : string) : list (option string) :=
  [ failing (isType q email && negb (Regex.test emailRegex s)) msgEmail;
    failing (isType q phone && negb (Regex.test phoneRegex s)) msgPhone;
    failing (isType q eircode && eircodeInvalid s) msgEircode;
    failing (isType q numberplate &&
             negb (Regex.test numberPlateRegex (JsString.toUpperCase s)))
      msgNumberPlate;
    (if isType q date && useDateInputMask q then dateMaskError s else None);
    (if isType q datetime && useDateInputMask q then dateTimeMaskError s else None) ].

(** The generic checks [minLength], [maxLength], [min], [max] *)
Definition rangeChecks (q : Question) (v : JsValue) : list (option string) :=
  let vd := validation q in
  [ failing (lengthBelow v (minLength vd))
      ("Minimum " ++ boundText (minLength vd) ++ " characters required");
    failing (lengthAbove v (maxLength vd))
      ("Maximum " ++ boundText (maxLength vd) ++ " characters allowed");
    failing (numberBelow v (min vd)) ("Minimum value is " ++ boundText (min vd));
    failing (numberAbove v (max vd)) ("Maximum value is " ++ boundText (max vd)) ].

(** The generic [pattern] check, for a pattern that compiles *)
Definition patternCheck (q : Question) (v : JsValue) : option string :=
  match truthyString (pattern (validation q)) with
  | Some p =>
      match RegExp_new p with
      | Some regex =>
          failing (negb (RegExp_test regex (Js.toString v)))
            (default msgInvalidFormat (truthyString (patternMessage (validation q))))
      | None => None
      end
  | None => None
  end.

(** All checks of a present value in their fixed order *)
Definition checksInOrder (q : Question) (v : JsValue) : list (option string) :=
  (typeSpecificChecks q (Js.toString v) ++ rangeChecks q v ++ [patternCheck q v])%list.

(** The one message reported for a question: the required message when the
    value is missing, else the message of the last failing check. *)
Definition reportedMessage (answers : gmap string JsValue) (q : Question)
    : option string :=
  let v := readAnswer answers (fieldKey q) in
  if required (validation q) && missingRequired v then Some msgRequired
  else if Js.truthy v then lastFailure (checksInOrder q v)
  else None.

(** The question is one that [validateStep] checks: shown, and an input. *)
Definition checked (answers : gmap string JsValue) (q : Question) : bool :=
  shouldShowQuestion answers q && negb (isType q hidden || isType q helper_text).

(** The validator reaches [new RegExp(pattern)] for this question and the
    pattern does not compile. *)
Definition patternThrows (answers : gmap string JsValue) (q : Question) : bool :=
  let v := readAnswer answers (fieldKey q) in
  checked answers q &&
  negb (required (validation q) && missingRequired v) &&
  Js.truthy v &&
  match truthyString (pattern (validation q)) with
  | Some p => match RegExp_new p with Some _ => false | None => true end
  | None => false
  end.

End WithRuntime.

End Reading.

(** The order that the comparator [(a, b) => b.priority - a.priority] asks for *)
Definition byPriorityDesc (a b : ConditionalNavigation) : Prop :=
  priority b <= priority a.

(** The condition of the rule is false on these answers. *)
Definition unmatchedRule `{JsRuntime} (answers : gmap string JsValue)
    (nav : ConditionalNavigation) : Prop :=
  evaluateCondition answers (condition nav) = false.

(** ** Forms and answers of the examples *)

Module NavigationExample.
Import Examples.

(** Step A of the example: the rule of priority 5 (always true, to the next
    step) is written before the rule of priority 10 (field X equals "yes",
    to step C). *)
Definition alwaysTrue : Condition := {| logic := AND; rules := [] |}.

Definition xIsYes : Condition :=
  {| logic := AND;
     rules := [ {| questionId := "X"; operator := equals; value := "yes" |} ] |}.

Definition ruleNext : ConditionalNavigation :=
  {| condition := alwaysTrue;
     target := {| targetType := next; stepId := None |};
     priority := 5 |}.

Definition ruleToC : ConditionalNavigation :=
  {| condition := xIsYes;
     target := {| targetType := specific; stepId := Some "C" |};
     priority := 10 |}.

Definition stepA : Step :=
  {| stepIdent := "A"; questions := [];
     conditionalNavigation := [ruleNext; ruleToC];
     defaultNextStep := None; defaultPrevStep := None;
     validateOnContinue := true; autoAdvance := false;
     enterKeyAdvance := false |}.

(** The same step with the two rules written in the other order. *)
Definition stepA' : Step :=
  {| stepIdent := "A"; questions := [];
     conditionalNavigation := [ruleToC; ruleNext];
     defaultNextStep := None; defaultPrevStep := None;
     validateOnContinue := true; autoAdvance := false;
     enterKeyAdvance := false |}.

Definition form : Form := formOf [stepA; plainStep "B" []; plainStep "C" []].

Definition form' : Form := formOf [stepA'; plainStep "B" []; plainStep "C" []].

(** Steps A, B, C without rules and without defaults. *)
Definition abc : Form := formOf [plainStep "A" []; plainStep "B" []; plainStep "C" []].

Definition atStep (i : Z) : Machine := Preview.setCurrentStepIndex i Preview.initial.

Definition answers : gmap string JsValue := {[ "X" := VString "yes" ]}.

End NavigationExample.

Module ContinueExample.
Import Examples.

Definition requiredOnly : QuestionValidation :=
  {| required := true; minLength := None; maxLength := None;
     min := None; max := None; pattern := None; patternMessage := None |}.

Definition nameQuestion : Question := question "name" text requiredOnly.

(** A step that asks for a required name and validates on Continue. *)
Definition checkedStep : Step := plainStep "A" [nameQuestion].

(** The same step with [validateOnContinue] switched off. *)
Definition uncheckedStep : Step :=
  {| stepIdent := "A"; questions := [nameQuestion]; conditionalNavigation := [];
     defaultNextStep := None; defaultPrevStep := None;
     validateOnContinue := false; autoAdvance := false;
     enterKeyAdvance := false |}.

Definition checkedForm : Form := formOf [checkedStep; plainStep "B" []].
Definition uncheckedForm : Form := formOf [uncheckedStep; plainStep "B" []].

End ContinueExample.

Module EvaluatorExample.

Definition zero : float := Js.ofZ 0.

Definition sliderAtZero : gmap string JsValue := {[ "volume" := VNumber zero ]}.

Definition volumeContainsZero : ConditionRule :=
  {| questionId := "volume"; operator := contains; value := "0" |}.

Definition unchecked : gmap string JsValue := {[ "agree" := VBool false ]}.

Definition agreeEqualsEmpty : ConditionRule :=
  {| questionId := "agree"; operator := equals; value := "" |}.

Definition colours : gmap string JsValue :=
  {[ "colours" := VArray ["red"; "green"] ]}.

Definition coloursContain (s : string) : ConditionRule :=
  {| questionId := "colours"; operator := contains; value := s |}.

End EvaluatorExample.

Module ValidatorExample.
Import Examples.

Definition withPattern (p : string) : QuestionValidation :=
  {| required := false; minLength := None; maxLength := None;
     min := None; max := None; pattern := Some p; patternMessage := None |}.

(** A text question whose author typed an unterminated group as pattern. *)
Definition brokenPattern : Question := question "code" text (withPattern "(").

Definition literalPattern : Question := question "code" text (withPattern "abc").

Definition codeAnswer : gmap string JsValue := {[ "code" := VString "xabcx" ]}.

Definition eircodeQuestion : Question := question "eir" eircode noValidation.



Definition eircodeAnswer (s : string) : gmap string JsValue :=
  {[ "eir" := VString s ]}.

Definition atLeast (n : Z) : QuestionValidation :=
  {| required := false; minLength := Some (Js.ofZ n); maxLength := None;
     min := None; max := None; pattern := None; patternMessage := None |}.

(** An email question with a minimum length of 5. *)
Definition longEmail : Question := question "mail" email (atLeast 5).

Definition mailAnswer : gmap string JsValue := {[ "mail" := VString "bad" ]}.

End ValidatorExample.

Module ResetExample.
Import Examples.

Definition twoSteps : Form := formOf [plainStep "A" []; plainStep "B" []].

Definition choice : Question := question "choice" radio noValidation.

(** A step with one question that advances by itself once answered. *)
Definition autoStep : Step :=
  {| stepIdent := "A"; questions := [choice]; conditionalNavigation := [];
     defaultNextStep := None; defaultPrevStep := None;
     validateOnContinue := true; autoAdvance := true;
     enterKeyAdvance := false |}.

Definition autoForm : Form := formOf [autoStep; plainStep "B" []].

(** Continue on step A, then Reset during the fade-out. *)
Definition resetDuringFadeOut : list Preview.Event :=
  [Preview.ClickContinue; Preview.EffectRun; Preview.ClickReset; Preview.EffectRun].

(** An answer on the auto-advancing step, then Reset during the 300 ms
    delay. *)
Definition resetDuringAutoAdvance : list Preview.Event :=
  [Preview.InputChange choice (VString "x"); Preview.EffectRun;
   Preview.ClickReset; Preview.EffectRun].

End ResetExample.

Module ProgressExample.

Definition fourSteps : list Step :=
  [Examples.plainStep "s1" []; Examples.plainStep "s2" [];
   Examples.plainStep "s3" []; Examples.plainStep "s4" []].

Definition formIn (m : ProgressMode) : Form :=
  {| steps := fourSteps;
     progressConfig := {| mode := m; stepWeights := None; exponentialBase := None |} |}.

Definition atIndex (i : Z) : ViewState :=
  {| currentStepIndex := i; formData := ∅; errors := ∅;
     isSubmitting := false; submitted := false; isTransitioning := false |}.

End ProgressExample.

(** The keys of the questions of a list that the validator checks *)
Definition checkedKeys `{JsRuntime} (answers : gmap string JsValue)
    (qs : list Question) : list string :=
  map Validator.fieldKey (List.filter (Reading.checked answers) qs).

(** ** Dates as the masked inputs write them *)

Module Numerals.

Definition digitChar (n : Z) : ascii := ascii_of_nat (48 + Z.to_nat n).
Arguments digitChar : simpl never.

(** A number below 100 in two digits, one below 10000 in four *)
Definition twoDigits (n : Z) : string :=
  String (digitChar (n / 10)) (String (digitChar (n mod 10)) "").

Definition fourDigits (n : Z) : string :=
  String (digitChar (n / 1000))
    (String (digitChar (n / 100 mod 10)) (twoDigits (n mod 100))).

(** [DD/MM/YYYY] *)
Definition dateText (d m y : Z) : string :=
  twoDigits d ++ "/" ++ twoDigits m ++ "/" ++ fourDigits y.

(** [DD/MM/YYYY HH:MM] *)
Definition dateTimeText (d m y h mi : Z) : string :=
  dateText d m y ++ " " ++ twoDigits h ++ ":" ++ twoDigits mi.

(** A day of the Gregorian calendar in a year from 1900 to 2100 *)
Definition calendarDay (d m y : Z) : Prop :=
  1 <= m <= 12 /\ 1900 <= y <= 2100 /\ 1 <= d <= 31 /\
  (m = 4 \/ m = 6 \/ m = 9 \/ m = 11 -> d <= 30) /\
  (m = 2 -> d <= 28 \/ (d = 29 /\ y mod 4 = 0 /\ y <> 1900 /\ y <> 2100)).

End Numerals.

(** ** The input handlers of [QuestionField] (FormPreview.tsx, lines 724-1222)

    What each field passes to [onChange], that is to [handleInputChange],
    for the text that the browser reports. *)

Module Fields.

(** [s.replace(/[^...]/g, '')]: the characters of a class, in order *)
Fixpoint keepChars (p : ascii -> bool) (s : string) : string :=
  match s with
  | EmptyString => EmptyString
  | String c s' => if p c then String c (keepChars p s') else keepChars p s'
  end.

Fixpoint trimEnd (s : string) : string :=
  match s with
  | EmptyString => EmptyString
  | String c s' =>
      match trimEnd s' with
      | EmptyString => if JsString.isWhiteSpace c then EmptyString else String c EmptyString
      | t => String c t
      end
  end.

(** [s.trim()] *)
Definition trim (s : string) : string := trimEnd (JsString.skipWhiteSpace s).

(** [s.substring(from, to)] for literals [from <= to] *)
Definition substring (from to : nat) (s : string) : string :=
  JsString.takeChars (to - from) (JsString.dropChars from s).

(** [s.slice(0, stop)]: a negative [stop] counts from the end *)
Definition sliceTo (stop : Z) (s : string) : string :=
  if stop <? 0
  then JsString.takeChars (Z.to_nat (Z.of_nat (String.length s) + stop)) s
  else JsString.takeChars (Z.to_nat stop) s.

(** [s[i]] *)
Definition charAt (i : nat) (s : string) : option ascii := String.get i s.

Definition isAlnum (c : ascii) : bool := JsString.isUpper c || JsString.isDigit c.

(** The checkbox group: [isChecked] of an option and what its [onChange]
    passes on. *)
Definition isChecked (value_ : JsValue) (optionValue : string) : bool :=
  match value_ with
  | VArray l => existsb (String.eqb optionValue) l
  | _ => false
  end.

Definition checkboxChange (value_ : JsValue) (optionValue : string) (checked : bool)
    : JsValue :=
  let currentValues := match value_ with VArray l => l | _ => [] end in
  if checked then VArray (currentValues ++ [optionValue])
  else VArray (List.filter (fun v => negb (String.eqb v optionValue)) currentValues).

(** The eircode field *)
Definition eircodeChange (text : string) : string :=
  let val := keepChars isAlnum (JsString.toUpperCase text) in
  let val :=
    if (3 <? String.length val)%nat
    then substring 0 3 val ++ " " ++ substring 3 7 val
    else val in
  trim val.

(** The number-plate field.  Each [while] loop moves characters of one
    class from the input to a group until the group is full. *)
Fixpoint takeGroup (p : ascii -> bool) (room : nat) (s : string) : string * string :=
  match room, s with
  | S room', String c s' =>
      if p c then let (g, rest) := takeGroup p room' s' in (String c g, rest)
      else (EmptyString, s)
  | _, _ => (EmptyString, s)
  end.

Definition isPlateChar (c : ascii) : bool := isAlnum c || Ascii.eqb c "-".

Definition plateGroups (text : string) : string * string * string :=
  let v := keepChars isPlateChar (JsString.toUpperCase text) in
  let noDashes := keepChars (fun c => negb (Ascii.eqb c "-")) v in
  let (year, rest) := takeGroup JsString.isDigit 3 noDashes in
  let (county, rest) := takeGroup JsString.isUpper 2 rest in
  let (seq, _) := takeGroup JsString.isDigit 6 rest in
  (year, county, seq).

Definition numberPlateChange (text : string) : string :=
  let '(year, county, seq) := plateGroups text in
  let result := year in
  let result := if String.eqb county "" then result else result ++ "-" ++ county in
  let result := if String.eqb seq "" then result else result ++ "-" ++ seq in
  result.

(** The masked date field: the formatting of typed text *)
Definition formatDate (newValue : string) : string :=
  let v := keepChars JsString.isDigit newValue in
  let v := if (2 <=? String.length v)%nat
           then substring 0 2 v ++ "/" ++ JsString.dropChars 2 v else v in
  let v := if (5 <=? String.length v)%nat
           then substring 0 5 v ++ "/" ++ substring 5 9 v else v in
  v.

(** [onChange] of the masked date field; [cursorPos] is
    [input.selectionStart || 0]. *)
Definition dateChange (prevValue newValue : string) (cursorPos : nat) : string :=
  if (String.length newValue <? String.length prevValue)%nat
  then
    match charAt cursorPos prevValue with
    | Some "/"%char =>
        sliceTo (Z.of_nat cursorPos - 1) newValue ++ JsString.dropChars cursorPos newValue
    | _ => newValue
    end
  else formatDate newValue.

(** The masked datetime field *)
Definition formatDateTime (newValue : string) : string :=
  let v := keepChars JsString.isDigit newValue in
  let v := if (2 <=? String.length v)%nat
           then substring 0 2 v ++ "/" ++ JsString.dropChars 2 v else v in
  let v := if (5 <=? String.length v)%nat
           then substring 0 5 v ++ "/" ++ JsString.dropChars 5 v else v in
  let v := if (10 <=? String.length v)%nat
           then substring 0 10 v ++ " " ++ JsString.dropChars 10 v else v in
  let v := if (13 <=? String.length v)%nat
           then substring 0 13 v ++ ":" ++ substring 13 15 v else v in
  v.

Definition dateTimeChange (prevValue newValue : string) : string :=
  if (String.length newValue <? String.length prevValue)%nat then newValue
  else formatDateTime newValue.

End Fields.

(** ** The strings of a regular expression

    What the literal patterns are compared with: the set of strings that a
    term of [Regex.re] denotes. *)

Module Language.
Import Regex.

Inductive Matches : re -> string -> Prop :=
| MatchEps : Matches Eps ""
| MatchClass (p : ascii -> bool) (c : ascii) :
    p c = true -> Matches (Class p) (String c "")
| MatchSeq (r1 r2 : re) (s1 s2 : string) :
    Matches r1 s1 -> Matches r2 s2 -> Matches (Seq r1 r2) (s1 ++ s2)
| MatchAltL (r1 r2 : re) (s : string) : Matches r1 s -> Matches (Alt r1 r2) s
| MatchAltR (r1 r2 : re) (s : string) : Matches r2 s -> Matches (Alt r1 r2) s
| MatchStarNil (r : re) : Matches (Star r) ""
| MatchStarCons (r : re) (s1 s2 : string) :
    Matches r s1 -> Matches (Star r) s2 -> Matches (Star r) (s1 ++ s2).

(** Every character of the string satisfies [p]. *)
Fixpoint every (p : ascii -> bool) (s : string) : bool :=
  match s with
  | EmptyString => true
  | String c s' => p c && every p s'
  end.

End Language.

(** ** Shapes of the stored texts *)

(** A character other than the separator *)
Definition notChar (sep c : ascii) : bool := negb (Ascii.eqb c sep).

(** What the date checks use of the character of a digit *)
Definition digitOk (k : Z) : bool :=
  let c := Numerals.digitChar k in
  JsString.isDigit c && negb (JsString.isWhiteSpace c) &&
  (Z.of_nat (nat_of_ascii c - 48) =? k) &&
  notChar "/" c && notChar ":" c && notChar "-" c && notChar "+" c.

(** The two steps of the Eircode field: the cleaned text, then the space *)
Definition eircodeClean (text : string) : string :=
  Fields.keepChars Fields.isAlnum (JsString.toUpperCase text).

Definition eircodeShape (val : string) : string :=
  if (3 <? String.length val)%nat
  then JsString.takeChars 3 val ++ " " ++ JsString.takeChars 4 (JsString.dropChars 3 val)
  else val.

(** The stored text of a number plate, from its three groups *)
Definition plateText (year county seq : string) : string :=
  let result := year in
  let result := if String.eqb county "" then result else result ++ "-" ++ county in
  let result := if String.eqb seq "" then result else result ++ "-" ++ seq in
  result.

(** The formatting steps of the date mask on the digits of the text *)
Definition dateShape (v : string) : string :=
  let v := if (2 <=? String.length v)%nat
           then Fields.substring 0 2 v ++ "/" ++ JsString.dropChars 2 v else v in
  let v := if (5 <=? String.length v)%nat
           then Fields.substring 0 5 v ++ "/" ++ Fields.substring 5 9 v else v in
  v.

(** The formatting steps of the datetime mask on the digits of the text *)
Definition dateTimeShape (v : string) : string :=
  let v := if (2 <=? String.length v)%nat
           then Fields.substring 0 2 v ++ "/" ++ JsString.dropChars 2 v else v in
  let v := if (5 <=? String.length v)%nat
           then Fields.substring 0 5 v ++ "/" ++ JsString.dropChars 5 v else v in
  let v := if (10 <=? String.length v)%nat
           then Fields.substring 0 10 v ++ " " ++ JsString.dropChars 10 v else v in
  let v := if (13 <=? String.length v)%nat
           then Fields.substring 0 13 v ++ ":" ++ Fields.substring 13 15 v else v in
  v.

(** ** Invariants and examples of the machine *)

(** The step index that a pending timer carries: the index it will set,
    or the index of the render that created it. *)
Definition timerIndexOk (t : Timer) : Prop :=
  match t with
  | FadeOut newIndex => 0 <= newIndex
  | AutoNavigate snap _ => 0 <= currentStepIndex snap
  | AutoAdvance snap => 0 <= currentStepIndex snap
  | FadeIn | SubmitDelay => True
  end.

Definition indexOk (m : Machine) : Prop :=
  0 <= currentStepIndex (view m) /\ Forall timerIndexOk (timers m).

Module MachineExample.
Import Examples.

Definition choiceIsYes : Condition :=
  {| logic := AND;
     rules := [ {| questionId := "choice"; operator := equals; value := "yes" |} ] |}.

Definition yesToC : ConditionalNavigation :=
  {| condition := choiceIsYes;
     target := {| targetType := specific; stepId := Some "C" |};
     priority := 1 |}.

(** One question, auto-advance, and a rule on the answer of that question. *)
Definition branchingStep : Step :=
  {| stepIdent := "A"; questions := [ResetExample.choice];
     conditionalNavigation := [yesToC];
     defaultNextStep := None; defaultPrevStep := None;
     validateOnContinue := false; autoAdvance := true;
     enterKeyAdvance := false |}.

Definition branchingForm : Form :=
  formOf [branchingStep; plainStep "B" []; plainStep "C" []].




Definition lastStepWithNext : Step :=
  {| stepIdent := "B"; questions := [];
     conditionalNavigation := [NavigationExample.ruleNext];
     defaultNextStep := None; defaultPrevStep := None;
     validateOnContinue := false; autoAdvance := false;
     enterKeyAdvance := false |}.

Definition overrunForm : Form := formOf [plainStep "A" []; lastStepWithNext].

Definition plateQuestion : Question := question "plate" numberplate noValidation.

Definition plateAnswer (s : string) : gmap string JsValue :=
  {[ "plate" := VString s ]}.



End MachineExample.

(** ** Steps with a default next step; a rule that overrides validation *)

Module DefaultExample.
Import Examples.

(** Step B, whose default next step is step A. *)
Definition backToA : Step :=
  {| stepIdent := "B"; questions := []; conditionalNavigation := [];
     defaultNextStep := Some "A"; defaultPrevStep := None;
     validateOnContinue := true; autoAdvance := false;
     enterKeyAdvance := false |}.

(** Step B, whose default next step names no step of the form. *)
Definition toNowhere : Step :=
  {| stepIdent := "B"; questions := []; conditionalNavigation := [];
     defaultNextStep := Some "Z"; defaultPrevStep := None;
     validateOnContinue := true; autoAdvance := false;
     enterKeyAdvance := false |}.

Definition loopForm : Form := formOf [plainStep "A" []; backToA; plainStep "C" []].

Definition staleForm : Form := formOf [plainStep "A" []; toNowhere; plainStep "C" []].

(** A required question on a validated step with a rule whose condition
    holds. *)
Definition overriddenStep : Step :=
  {| stepIdent := "A"; questions := [ContinueExample.nameQuestion];
     conditionalNavigation := [NavigationExample.ruleNext];
     defaultNextStep := None; defaultPrevStep := None;
     validateOnContinue := true; autoAdvance := false;
     enterKeyAdvance := false |}.

Definition overriddenForm : Form := formOf [overriddenStep; plainStep "B" []].

End DefaultExample.

(** An answer change or a run of the auto-navigation effect *)
Definition answerOrEffect (ev : Preview.Event) : Prop :=
  match ev with
  | Preview.InputChange _ _ | Preview.EffectRun => True
  | _ => False
  end.

(** A question of one type with no other validation than [required],
    always shown *)
Definition plainQuestion (q : Question) (t : QuestionType) : Prop :=
  type q = t /\ conditionalDisplay q = None /\
  minLength (validation q) = None /\ maxLength (validation q) = None /\
  min (validation q) = None /\ max (validation q) = None /\
  pattern (validation q) = None.

(** * Properties *)

Example float_examples :
  (Js.ofZ 1 / Js.ofZ 4 * Js.ofZ 100)%float = Js.ofZ 25 /\
  Js.truthy (VNumber (Js.ofZ 0)) = false /\ Js.truthy (VArray []) = true.
Proof. repeat split; reflexivity. Qed.

Example parseInt_examples :
  JsString.parseInt "07" = Some 7 /\ JsString.parseInt "ab" = None /\
  JsString.parseInt "-1" = Some (-1) /\ JsString.parseInt " 3" = Some 3 /\
  JsString.split "/" "01/02/2024" = ["01"; "02"; "2024"] /\
  JsString.ofZ 31 = "31" /\ JsString.toUpperCase "d02 x285" = "D02 X285".
Proof. repeat split; reflexivity. Qed.

Example host_examples :
  NumberToString (Js.ofZ 20) = "20" /\
  PrimFloat.eqb (StringToNumber " 42") (Js.ofZ 42) = true /\
  Js.isNaN (StringToNumber "abc") = true /\
  RegExp_new "(" = None /\
  Regex.test Validator.emailRegex "a@b.co" = true /\
  Regex.test Validator.emailRegex "a@b" = false /\
  Regex.test Validator.emailRegex "a b@c.d" = false /\
  Regex.test Validator.phoneRegex "+353 (1) 234" = true /\
  Regex.test Validator.phoneRegex "12345" = false /\
  Regex.test Validator.numberPlateRegex "191-D-12345" = true /\
  Regex.test Validator.numberPlateRegex "1-D-12345" = false /\
  Validator.dateMaskError "31/02/2024" =
    Some "Invalid day for this month (max 29)" /\
  Validator.dateMaskError "28/02/1900" = None /\
  Validator.dateTimeMaskError "01/01/2024 24:00" = Some Validator.msgTimeInvalid.
Proof. repeat split; vm_compute; reflexivity. Qed.

Example evaluator_examples :
  let answers : gmap string JsValue :=
    {[ "age" := VString "5"; "tags" := VArray ["alpha"; "beta"] ]} in
  let rule q op v := {| questionId := q; operator := op; value := v |} in
  evaluateRule answers (rule "age" equals "5") = true /\
  evaluateRule answers (rule "age" greater_than "3") = true /\
  evaluateRule answers (rule "age" less_than "abc") = false /\
  evaluateRule answers (rule "tags" equals "beta") = true /\
  evaluateRule answers (rule "tags" starts_with "al") = true /\
  evaluateRule answers (rule "tags" ends_with "x") = false /\
  evaluateRule answers (rule "gone" is_empty "") = true /\
  evaluateRule answers (rule "gone" is_not_empty "") = false /\
  evaluateRule answers (rule "gone" (other_operator "matches") "") = true /\
  evaluateCondition answers
    {| logic := AND; rules := [rule "age" equals "5"; rule "gone" equals "x"] |} = false /\
  evaluateCondition answers
    {| logic := OR; rules := [rule "age" equals "5"; rule "gone" equals "x"] |} = true /\
  evaluateCondition answers {| logic := OR; rules := [] |} = false.
Proof. repeat split; vm_compute; reflexivity. Qed.

Example validator_examples :
  let box := Examples.question "box" checkbox ContinueExample.requiredOnly in
  Validator.validateStep {[ "box" := VArray [] ]} (Examples.plainStep "A" [box]) =
    Normal {[ "box" := Validator.msgRequired ]} /\
  Validator.validateStep {[ "box" := VArray ["x"] ]} (Examples.plainStep "A" [box]) =
    Normal ∅.
Proof. split; vm_compute; reflexivity. Qed.

Example progress_examples :
  Progress.progress (ProgressExample.formIn exponential) (ProgressExample.atIndex 0) =
    (Js.ofZ 1 / Js.ofZ 15 * Js.ofZ 100)%float /\
  Progress.progress (ProgressExample.formIn weighted) (ProgressExample.atIndex 1) =
    Js.ofZ 50 /\
  Progress.progress (ProgressExample.formIn question_based) (ProgressExample.atIndex 1) =
    Js.ofZ 0.
Proof. repeat split; vm_compute; reflexivity. Qed.

(** ** The sort of the navigation rules *)

Lemma insertByPriority_perm x l :
  Permutation (insertByPriority x l) (x :: l).
Proof.
  induction l as [|y rest IH]; simpl; [reflexivity|].
  destruct (priority y <=? priority x); [reflexivity|].
  rewrite IH. apply perm_swap.
Qed.

Lemma sortedNavigation_perm l : Permutation (sortedNavigation l) l.
Proof.
  induction l as [|x rest IH]; simpl; [constructor|].
  rewrite insertByPriority_perm. now constructor.
Qed.

Lemma insertByPriority_sorted x l :
  StronglySorted byPriorityDesc l ->
  StronglySorted byPriorityDesc (insertByPriority x l).
Proof.
  induction 1 as [|y rest Hs IH Hall]; simpl.
  - repeat constructor.
  - destruct (Z.leb_spec (priority y) (priority x)) as [Hle|Hgt].
    + constructor; [now constructor|].
      constructor; [exact Hle|].
      eapply Forall_impl; [exact Hall|].
      unfold byPriorityDesc; simpl. intros a Ha. lia.
    + constructor; [exact IH|].
      rewrite insertByPriority_perm.
      constructor; [unfold byPriorityDesc; lia | exact Hall].
Qed.

Lemma sortedNavigation_sorted l :
  StronglySorted byPriorityDesc (sortedNavigation l).
Proof.
  induction l; simpl; [constructor | now apply insertByPriority_sorted].
Qed.

(** Rules of one priority keep the order they have in the document. *)
Lemma insertByPriority_stable p x l :
  filter (fun n => priority n = p) (insertByPriority x l) =
  filter (fun n => priority n = p) (x :: l).
Proof.
  induction l as [|y rest IH]; simpl; [reflexivity|].
  destruct (Z.leb_spec (priority y) (priority x)) as [Hle|Hgt]; [reflexivity|].
  rewrite !filter_cons in *.
  destruct (decide (priority y = p)), (decide (priority x = p));
    rewrite IH; try reflexivity; lia.
Qed.

Lemma sortedNavigation_stable p l :
  filter (fun n => priority n = p) (sortedNavigation l) =
  filter (fun n => priority n = p) l.
Proof.
  induction l as [|x rest IH]; simpl; [reflexivity|].
  rewrite insertByPriority_stable, !filter_cons, IH. reflexivity.
Qed.

(** ** [findIndex] *)

Lemma findIndexFrom_range i l sid :
  findIndexFrom i l sid = -1 \/
  (i <= findIndexFrom i l sid < i + Z.of_nat (length l)).
Proof.
  revert i. induction l as [|s rest IH]; intros i; simpl; [now left|].
  destruct (String.eqb (stepIdent s) sid); [right; lia|].
  destruct (IH (i + 1)) as [->|Hr]; [now left | right; lia].
Qed.

Lemma findIndexFrom_found i l sid :
  0 <= i ->
  findIndexFrom i l sid <> -1 ->
  exists s, l !! Z.to_nat (findIndexFrom i l sid - i) = Some s /\ stepIdent s = sid.
Proof.
  revert i. induction l as [|s rest IH]; intros i Hi; simpl; [congruence|].
  destruct (String.eqb_spec (stepIdent s) sid) as [Heq|Hne]; intros Hf.
  - exists s. rewrite Z.sub_diag. now split.
  - destruct (IH (i + 1) ltac:(lia) Hf) as (s' & Hl & Hs).
    exists s'. split; [|exact Hs].
    destruct (findIndexFrom_range (i + 1) rest sid) as [?|Hr]; [congruence|].
    replace (Z.to_nat (findIndexFrom (i + 1) rest sid - i))
      with (S (Z.to_nat (findIndexFrom (i + 1) rest sid - (i + 1)))) by lia.
    exact Hl.
Qed.

Lemma findIndex_found l sid :
  findIndex l sid <> -1 ->
  exists s, nthZ l (findIndex l sid) = Some s /\ stepIdent s = sid.
Proof.
  intros Hf. unfold findIndex in *.
  destruct (findIndexFrom_found 0 l sid ltac:(lia) Hf) as (s & Hl & Hs).
  exists s. split; [|exact Hs]. unfold nthZ.
  destruct (findIndexFrom_range 0 l sid) as [?|Hr]; [congruence|].
  destruct (Z.ltb_spec (findIndexFrom 0 l sid) 0); [lia|].
  now rewrite Z.sub_0_r in Hl.
Qed.

Lemma findIndexFrom_first i l sid k s :
  findIndexFrom i l sid <> -1 ->
  0 <= i ->
  (Z.of_nat k < findIndexFrom i l sid - i) ->
  l !! k = Some s ->
  stepIdent s <> sid.
Proof.
  revert i k. induction l as [|s0 rest IH]; intros i k; simpl; [congruence|].
  destruct (String.eqb_spec (stepIdent s0) sid) as [Heq|Hne]; intros Hf Hi Hk Hl.
  - lia.
  - destruct k as [|k]; simpl in Hl.
    + now injection Hl as <-.
    + apply (IH (i + 1) k); [exact Hf | lia | lia | exact Hl].
Qed.

Lemma findIndex_first l sid j s :
  findIndex l sid <> -1 ->
  0 <= j < findIndex l sid ->
  nthZ l j = Some s ->
  stepIdent s <> sid.
Proof.
  intros Hf Hj Hl. unfold nthZ in Hl.
  destruct (Z.ltb_spec j 0); [lia|].
  apply (findIndexFrom_first 0 l sid (Z.to_nat j) s); try assumption; [lia|].
  unfold findIndex in Hj. lia.
Qed.

Lemma findIndexFrom_missing i l sid :
  findIndexFrom i l sid = -1 ->
  0 <= i ->
  Forall (fun s => stepIdent s <> sid) l.
Proof.
  revert i. induction l as [|s rest IH]; intros i; simpl; [constructor|].
  destruct (String.eqb_spec (stepIdent s) sid) as [Heq|Hne]; intros Hf Hi; [lia|].
  constructor; [exact Hne | apply (IH (i + 1)); [exact Hf | lia]].
Qed.

(** ** The loop of [getNextStepIndex] *)

Section ResolverFacts.
Context `{JsRuntime}.
Variable form : Form.
Variable formData : gmap string JsValue.
Variable currentStep : Step.
Variable currentStepIndex : Z.

Let scan := scanNavigation form formData currentStepIndex.
Let resolve := resolveFrom form formData currentStep currentStepIndex.

Let unmatched := unmatchedRule formData.

Lemma scanNavigation_skip pre rest :
  Forall unmatched pre -> scan (pre ++ rest) = scan rest.
Proof.
  induction 1 as [|nav pre Hnav _ IH]; [reflexivity|].
  simpl. unfold scan in *. simpl. rewrite Hnav. exact IH.
Qed.

Lemma scanNavigation_unmatched navs :
  Forall unmatched navs -> scan navs = None.
Proof.
  intros Hall. rewrite <- (app_nil_r navs).
  now rewrite scanNavigation_skip.
Qed.

Lemma resolveFrom_skip pre rest :
  Forall unmatched pre -> resolve (pre ++ rest) = resolve rest.
Proof.
  intros Hall. unfold resolve, resolveFrom.
  fold scan. now rewrite scanNavigation_skip.
Qed.

End ResolverFacts.

(** ** Timers and transitions *)

Section TimerFacts.
Context `{JsRuntime}.
Variable form : Form.

Lemma machine_eta m : {| view := view m; refs := refs m; timers := timers m |} = m.
Proof. now destruct m. Qed.

Lemma removeNth_last {A : Type} (l : list A) (x : A) :
  Preview.removeNth (length l) (l ++ [x])%list = l.
Proof.
  unfold Preview.removeNth. rewrite take_app_length.
  rewrite drop_ge by (rewrite length_app; simpl; lia).
  apply app_nil_r.
Qed.

Lemma last_timer_fires t m n :
  n = length (timers m) ->
  Preview.dispatch form (Preview.TimerElapsed n) (Preview.setTimeout t m) =
  Preview.fire form t m.
Proof.
  intros ->. unfold Preview.dispatch, Preview.setTimeout. cbn [timers view refs].
  rewrite list_lookup_middle by reflexivity.
  now rewrite removeNth_last, machine_eta.
Qed.

Lemma run_cons ev evs m :
  Preview.run form (ev :: evs) m = Preview.run form evs (Preview.dispatch form ev m).
Proof. reflexivity. Qed.

Lemma run_nil m : Preview.run form [] m = m.
Proof. reflexivity. Qed.

Lemma transition_fade_out snap m newIndex n :
  isTransitioning snap = false ->
  n = length (timers m) ->
  Preview.dispatch form (Preview.TimerElapsed n)
    (Preview.transitionToStep snap newIndex m) =
  Preview.setTimeout FadeIn
    (Preview.setPendingStepIndex None
       (Preview.setCurrentStepIndex newIndex (Preview.setIsTransitioning true m))).
Proof.
  intros Hsnap ->. unfold Preview.transitionToStep. rewrite Hsnap.
  rewrite last_timer_fires by reflexivity. reflexivity.
Qed.

Lemma transition_run snap m newIndex n :
  isTransitioning snap = false ->
  n = length (timers m) ->
  Preview.run form [Preview.TimerElapsed n; Preview.TimerElapsed n]
    (Preview.transitionToStep snap newIndex m) =
  Preview.setIsNavigating false
    (Preview.setIsTransitioning false
       (Preview.setPendingStepIndex None (Preview.setCurrentStepIndex newIndex m))).
Proof.
  intros Hsnap Hn. rewrite !run_cons, run_nil.
  rewrite (transition_fade_out snap m newIndex n Hsnap Hn).
  rewrite last_timer_fires by (subst n; reflexivity). reflexivity.
Qed.

Lemma submit_run m n :
  n = length (timers m) ->
  Preview.dispatch form (Preview.TimerElapsed n) (Preview.handleSubmit m) =
  Preview.setIsSubmitting false
    (Preview.setSubmitted true (Preview.setIsSubmitting true m)).
Proof.
  intros Hn. unfold Preview.handleSubmit.
  rewrite last_timer_fires by exact Hn. reflexivity.
Qed.

Lemma conditionalNavMatched_exists snap step :
  Preview.conditionalNavMatched snap step = true <->
  Exists (fun nav => evaluateCondition (formData snap) (condition nav) = true)
    (conditionalNavigation step).
Proof.
  unfold Preview.conditionalNavMatched.
  rewrite existsb_exists, Exists_exists.
  split; intros (nav & Hin & Hnav); exists nav; split; try exact Hnav;
    now apply list_elem_of_In.
Qed.

(** Continue, when validation is left out or finds nothing, goes on to
    the navigation on a machine that differs at most in its errors. *)
Lemma continue_passes m step :
  Preview.currentStepOf form (view m) = Some step ->
  isTransitioning (view m) = false ->
  (forall r, Preview.continueValidation (view m) step = Some r ->
     exists e, r = Normal e /\ Validator.isValid e = true) ->
  exists m0,
    Preview.dispatch form Preview.ClickContinue m =
      Preview.continueNavigation form (view m) step m0 /\
    timers m0 = timers m /\ refs m0 = refs m /\
    currentStepIndex (view m0) = currentStepIndex (view m) /\
    formData (view m0) = formData (view m) /\
    isSubmitting (view m0) = isSubmitting (view m) /\
    submitted (view m0) = submitted (view m).
Proof.
  intros Hcs Htr Hpass.
  cbn [Preview.dispatch]. unfold Preview.handleContinue. rewrite Hcs, Htr.
  destruct (Preview.continueValidation (view m) step) as [r|] eqn:Hv.
  - destruct (Hpass r eq_refl) as (e & -> & Hvalid). cbv zeta. rewrite Hvalid.
    exists (Preview.setErrors e m). now repeat split.
  - exists m. now repeat split.
Qed.

End TimerFacts.

(** ** Claims on the navigation resolver *)

(** C1. The loop of [getNextStepIndex] runs over the step's rules in
    descending priority, rules of equal priority in document order.  For
    the first rule in that order whose condition is true: target [submit]
    gives -1 (submit); target [next] gives [currentStepIndex + 1]; target
    [specific] gives the index of the step whose id is [target.stepId]
    when there is one, and otherwise the result is that of the rules after
    it (and then of the default).  In the example of the spec (priority 10
    to step C on X = "yes", priority 5 always true to next, X = "yes") the
    result is the index of step C. *)
Theorem getNextStepIndex_first_match `{JsRuntime}
    (form : Form) (formData : gmap string JsValue) (currentStep : Step)
    (currentStepIndex : Z) (pre post : list ConditionalNavigation)
    (nav : ConditionalNavigation) :
  let sorted := sortedNavigation (conditionalNavigation currentStep) in
  let result := getNextStepIndex form formData currentStep currentStepIndex in
  sorted = (pre ++ nav :: post)%list ->
  Forall (fun r => evaluateCondition formData (condition r) = false) pre ->
  evaluateCondition formData (condition nav) = true ->
  (Permutation sorted (conditionalNavigation currentStep) /\
   StronglySorted (fun a b => priority b <= priority a) sorted /\
   (forall p, filter (fun n => priority n = p) sorted =
              filter (fun n => priority n = p) (conditionalNavigation currentStep))) /\
  (targetType (target nav) = submit -> result = -1) /\
  (targetType (target nav) = next -> result = currentStepIndex + 1) /\
  (targetType (target nav) = specific ->
   forall sid, truthyString (stepId (target nav)) = Some sid ->
     findIndex (steps form) sid <> -1 ->
     result = findIndex (steps form) sid /\
     (exists s, nthZ (steps form) result = Some s /\ stepIdent s = sid) /\
     (forall j s, 0 <= j < result -> nthZ (steps form) j = Some s ->
                  stepIdent s <> sid)) /\
  (targetType (target nav) = specific ->
   (forall sid, truthyString (stepId (target nav)) = Some sid ->
                Forall (fun s => stepIdent s <> sid) (steps form)) ->
   result = resolveFrom form formData currentStep currentStepIndex post) /\
  (getNextStepIndex NavigationExample.form NavigationExample.answers
     NavigationExample.stepA 0 = 2 /\
   getNextStepIndex NavigationExample.form' NavigationExample.answers
     NavigationExample.stepA' 0 = 2).
Proof.
  intros sorted result Hsplit Hpre Hnav.
  assert (Hres : result =
            resolveFrom form formData currentStep currentStepIndex (nav :: post)).
  { unfold result, getNextStepIndex. fold sorted. rewrite Hsplit.
    now apply resolveFrom_skip. }
  assert (Hspecific : forall sid,
            targetType (target nav) = specific ->
            truthyString (stepId (target nav)) = Some sid ->
            findIndex (steps form) sid <> -1 ->
            result = findIndex (steps form) sid).
  { intros sid Ht Hsid Hfound. rewrite Hres. unfold resolveFrom. simpl.
    rewrite Hnav, Ht, Hsid.
    now destruct (Z.eqb_spec (findIndex (steps form) sid) (-1)). }
  refine (conj _ (conj _ (conj _ (conj _ (conj _ _))))).
  - split; [apply sortedNavigation_perm|].
    split; [apply sortedNavigation_sorted | intros p; apply sortedNavigation_stable].
  - intros Ht. rewrite Hres. unfold resolveFrom. simpl. now rewrite Hnav, Ht.
  - intros Ht. rewrite Hres. unfold resolveFrom. simpl. now rewrite Hnav, Ht.
  - intros Ht sid Hsid Hfound. split; [now apply Hspecific|].
    rewrite (Hspecific sid Ht Hsid Hfound).
    split; [now apply findIndex_found|].
    intros j s Hj Hl. now apply (findIndex_first (steps form) sid j s).
  - intros Ht Hmiss. rewrite Hres. unfold resolveFrom. simpl. rewrite Hnav, Ht.
    destruct (truthyString (stepId (target nav))) as [sid|] eqn:Hsid; [|reflexivity].
    specialize (Hmiss sid eq_refl).
    destruct (Z.eqb_spec (findIndex (steps form) sid) (-1)) as [_|Hne]; [reflexivity|].
    destruct (findIndex_found _ _ Hne) as (s & Hl & Hs).
    unfold nthZ in Hl. destruct (_ <? 0); [discriminate|].
    apply list_elem_of_lookup_2 in Hl.
    rewrite Forall_forall in Hmiss. now apply Hmiss in Hl.
  - split; vm_compute; reflexivity.
Qed.

Lemma getNextStepIndex_first_match_witness :
  sortedNavigation (conditionalNavigation NavigationExample.stepA) =
    ([] ++ NavigationExample.ruleToC :: [NavigationExample.ruleNext])%list /\
  evaluateCondition NavigationExample.answers
    (condition NavigationExample.ruleToC) = true /\
  getNextStepIndex NavigationExample.form NavigationExample.answers
    NavigationExample.stepA 0 = findIndex (steps NavigationExample.form) "C".
Proof.
  split; [reflexivity|]. split; [reflexivity|].
  destruct (getNextStepIndex_first_match
              NavigationExample.form NavigationExample.answers
              NavigationExample.stepA 0 [] [NavigationExample.ruleNext]
              NavigationExample.ruleToC eq_refl (Forall_nil_2 _) eq_refl)
    as (_ & _ & _ & Hspecific & _).
  destruct (Hspecific eq_refl "C" eq_refl) as (Hresult & _).
  - vm_compute. discriminate.
  - exact Hresult.
Defined.

Lemma meansSubmit_iff form nextIndex :
  meansSubmit form nextIndex = true <->
  nextIndex = -1 \/ Z.of_nat (length (steps form)) <= nextIndex.
Proof.
  unfold meansSubmit. rewrite orb_true_iff, Z.eqb_eq, Z.leb_le. reflexivity.
Qed.

(** C2. When no rule of the step has a true condition, [getNextStepIndex]
    is the index of the first step whose id is [defaultNextStep] if that
    id is set and some step of the form has it, and [currentStepIndex + 1]
    otherwise.  The continue handler submits exactly when the resolved
    index is -1 (the explicit submit, which is what a matching rule with
    target [submit] resolves to) or is not below the number of steps: it
    sets [isSubmitting] and schedules the submission, and the preview is
    submitted when that timer elapses.  Otherwise it starts the
    transition to the resolved index, which is the step shown once the
    two timers of the transition have elapsed.  For steps A, B, C without
    rules and defaults the resolver gives 1 from A, 2 from B and 3 from
    C, and Continue on C submits; when B names A as its default next
    step the resolver gives 0 from B, and 2 when it names no step. *)
Theorem getNextStepIndex_default `{JsRuntime}
    (form : Form) (answers : gmap string JsValue) (currentStep : Step)
    (index : Z) :
  let result := getNextStepIndex form answers currentStep index in
  let sorted := sortedNavigation (conditionalNavigation currentStep) in
  (Forall (fun r => evaluateCondition answers (condition r) = false)
     (conditionalNavigation currentStep) ->
   (forall sid s, truthyString (defaultNextStep currentStep) = Some sid ->
      s ∈ steps form -> stepIdent s = sid ->
      result = findIndex (steps form) sid /\
      0 <= result < Z.of_nat (length (steps form)) /\
      (exists s', nthZ (steps form) result = Some s' /\ stepIdent s' = sid) /\
      (forall j s', 0 <= j < result -> nthZ (steps form) j = Some s' ->
         stepIdent s' <> sid)) /\
   ((forall sid, truthyString (defaultNextStep currentStep) = Some sid ->
       Forall (fun s => stepIdent s <> sid) (steps form)) ->
    result = index + 1)) /\
  (forall snap m,
     currentStepIndex snap = index ->
     formData snap = answers ->
     Preview.continueNavigation form snap currentStep m =
       if decide (result = -1 \/ Z.of_nat (length (steps form)) <= result)
       then Preview.handleSubmit m
       else Preview.transitionToStep snap result (Preview.setIsNavigating true m)) /\
  (forall m,
     Preview.currentStepOf form (view m) = Some currentStep ->
     currentStepIndex (view m) = index ->
     formData (view m) = answers ->
     isTransitioning (view m) = false ->
     (forall r, Preview.continueValidation (view m) currentStep = Some r ->
        exists e, r = Normal e /\ Validator.isValid e = true) ->
     let n := length (timers m) in
     let clicked := Preview.dispatch form Preview.ClickContinue m in
     (result = -1 \/ Z.of_nat (length (steps form)) <= result ->
      isSubmitting (view clicked) = true /\
      timers clicked = (timers m ++ [SubmitDelay])%list /\
      refs clicked = refs m /\
      currentStepIndex (view clicked) = index /\
      submitted
        (view (Preview.dispatch form (Preview.TimerElapsed n) clicked)) = true /\
      isSubmitting
        (view (Preview.dispatch form (Preview.TimerElapsed n) clicked)) = false) /\
     (result <> -1 -> result < Z.of_nat (length (steps form)) ->
      isSubmitting (view clicked) = isSubmitting (view m) /\
      timers clicked = (timers m ++ [FadeOut result])%list /\
      pendingStepIndex (refs clicked) = Some result /\
      currentStepIndex
        (view (Preview.run form [Preview.TimerElapsed n; Preview.TimerElapsed n]
                 clicked)) = result /\
      submitted
        (view (Preview.run form [Preview.TimerElapsed n; Preview.TimerElapsed n]
                 clicked)) = submitted (view m))) /\
  (forall pre nav post,
     sorted = (pre ++ nav :: post)%list ->
     Forall (fun r => evaluateCondition answers (condition r) = false) pre ->
     evaluateCondition answers (condition nav) = true ->
     targetType (target nav) = submit ->
     result = -1) /\
  (forall m,
     isSubmitting (view (Preview.handleSubmit m)) = true /\
     timers (Preview.handleSubmit m) = (timers m ++ [SubmitDelay])%list /\
     submitted
       (view (Preview.dispatch form (Preview.TimerElapsed (length (timers m)))
                (Preview.handleSubmit m))) = true /\
     submitted (view (Preview.fire form SubmitDelay (Preview.handleSubmit m))) = true) /\
  (let abc := NavigationExample.abc in
   getNextStepIndex abc ∅ (Examples.plainStep "A" []) 0 = 1 /\
   getNextStepIndex abc ∅ (Examples.plainStep "B" []) 1 = 2 /\
   getNextStepIndex abc ∅ (Examples.plainStep "C" []) 2 = 3 /\
   pendingStepIndex (refs (Preview.run abc [Preview.ClickContinue]
                             (NavigationExample.atStep 0))) = Some 1 /\
   pendingStepIndex (refs (Preview.run abc [Preview.ClickContinue]
                             (NavigationExample.atStep 1))) = Some 2 /\
   Preview.run abc [Preview.ClickContinue] (NavigationExample.atStep 2) =
     Preview.handleSubmit (NavigationExample.atStep 2) /\
   submitted
     (view (Preview.run abc [Preview.ClickContinue; Preview.TimerElapsed 0]
              (NavigationExample.atStep 2))) = true /\
   getNextStepIndex DefaultExample.loopForm ∅ DefaultExample.backToA 1 = 0 /\
   currentStepIndex
     (view (Preview.run DefaultExample.loopForm
              [Preview.ClickContinue; Preview.TimerElapsed 0; Preview.TimerElapsed 0]
              (NavigationExample.atStep 1))) = 0 /\
   getNextStepIndex DefaultExample.staleForm ∅ DefaultExample.toNowhere 1 = 2).
Proof.
  intros result sorted.
  refine (conj _ (conj _ (conj _ (conj _ (conj _ _))))).
  - intros Hnone.
    assert (Hres : result = defaultNavigation form currentStep index).
    { unfold result, getNextStepIndex, resolveFrom.
      rewrite scanNavigation_unmatched; [reflexivity|].
      eapply Permutation_Forall; [|exact Hnone].
      symmetry. apply sortedNavigation_perm. }
    split.
    + intros sid s Hsid Hin Hs.
      assert (Hf : findIndex (steps form) sid <> -1).
      { intros Hmiss. apply findIndexFrom_missing in Hmiss; [|lia].
        rewrite Forall_forall in Hmiss. exact (Hmiss s Hin Hs). }
      assert (Hfound : result = findIndex (steps form) sid).
      { rewrite Hres. unfold defaultNavigation. rewrite Hsid.
        now destruct (Z.eqb_spec (findIndex (steps form) sid) (-1)). }
      refine (conj Hfound (conj _ (conj _ _))).
      * rewrite Hfound. unfold findIndex in Hf |- *.
        destruct (findIndexFrom_range 0 (steps form) sid); [contradiction | lia].
      * rewrite Hfound. now apply findIndex_found.
      * intros j s' Hj Hl. rewrite Hfound in Hj.
        exact (findIndex_first (steps form) sid j s' Hf Hj Hl).
    + intros Hmiss. rewrite Hres. unfold defaultNavigation.
      destruct (truthyString (defaultNextStep currentStep)) as [sid|]; [|reflexivity].
      specialize (Hmiss sid eq_refl).
      destruct (Z.eqb_spec (findIndex (steps form) sid) (-1)) as [_|Hne]; [reflexivity|].
      destruct (findIndex_found _ _ Hne) as (s & Hl & Hs).
      unfold nthZ in Hl. destruct (_ <? 0); [discriminate|].
      apply list_elem_of_lookup_2 in Hl.
      rewrite Forall_forall in Hmiss. now apply Hmiss in Hl.
  - intros snap m Hidx Hdata. unfold Preview.continueNavigation.
    rewrite Hidx, Hdata. fold result.
    destruct (meansSubmit form result) eqn:Hm; case_decide as Hd; try reflexivity.
    + apply meansSubmit_iff in Hm. contradiction.
    + apply meansSubmit_iff in Hd. congruence.
  - intros m Hcs Hidx Hdata Htr Hpass n clicked.
    destruct (continue_passes form m currentStep Hcs Htr Hpass)
      as (m0 & Hclick & Htimers & Hrefs & Hi0 & _ & Hsub0 & Hdone0).
    unfold Preview.continueNavigation in Hclick. cbv zeta in Hclick.
    rewrite Hidx, Hdata in Hclick. fold result in Hclick. fold clicked in Hclick.
    assert (Hn : n = length (timers m0)) by (subst n; now rewrite Htimers).
    clearbody clicked. split.
    + intros Hsubmit. apply meansSubmit_iff in Hsubmit.
      rewrite Hsubmit in Hclick. subst clicked.
      rewrite (submit_run form m0 n Hn).
      cbn [view refs timers isSubmitting submitted currentStepIndex
           Preview.handleSubmit Preview.setTimeout Preview.setIsSubmitting
           Preview.setSubmitted].
      rewrite Htimers, Hrefs, Hi0, Hidx. now repeat split.
    + intros Hne Hlt.
      assert (Hmove : meansSubmit form result = false).
      { destruct (meansSubmit form result) eqn:Hm; [|reflexivity].
        apply meansSubmit_iff in Hm. lia. }
      rewrite Hmove in Hclick. subst clicked.
      rewrite (transition_run form (view m) (Preview.setIsNavigating true m0) result n
                 Htr Hn).
      unfold Preview.transitionToStep. rewrite Htr.
      cbn [view refs timers isSubmitting submitted currentStepIndex pendingStepIndex
           Preview.setTimeout Preview.setIsNavigating Preview.setIsTransitioning
           Preview.setPendingStepIndex Preview.setCurrentStepIndex].
      rewrite Htimers, Hsub0, Hdone0. now repeat split.
  - intros pre nav post Hsplit Hpre Hnav Ht.
    unfold result, getNextStepIndex. fold sorted. rewrite Hsplit.
    rewrite resolveFrom_skip by exact Hpre.
    unfold resolveFrom. simpl. now rewrite Hnav, Ht.
  - intros m. rewrite (submit_run form m _ eq_refl). now repeat split.
  - repeat split; vm_compute; reflexivity.
Qed.

Lemma getNextStepIndex_default_witness :
  Forall (fun r => evaluateCondition ∅ (condition r) = false)
    (conditionalNavigation DefaultExample.backToA) /\
  truthyString (defaultNextStep DefaultExample.backToA) = Some "A" /\
  Examples.plainStep "A" [] ∈ steps DefaultExample.loopForm /\
  getNextStepIndex DefaultExample.loopForm ∅ DefaultExample.backToA 1 = 0 /\
  getNextStepIndex DefaultExample.staleForm ∅ DefaultExample.toNowhere 1 = 1 + 1.
Proof.
  assert (Hin : Examples.plainStep "A" [] ∈ steps DefaultExample.loopForm)
    by apply list_elem_of_here.
  refine (conj (Forall_nil_2 _) (conj eq_refl (conj Hin (conj _ _)))).
  - destruct (getNextStepIndex_default DefaultExample.loopForm ∅
                DefaultExample.backToA 1) as (Hdefault & _).
    destruct (Hdefault (Forall_nil_2 _)) as (Hset & _).
    exact (proj1 (Hset "A" (Examples.plainStep "A" []) eq_refl Hin eq_refl)).
  - destruct (getNextStepIndex_default DefaultExample.staleForm ∅
                DefaultExample.toNowhere 1) as (Hdefault & _).
    destruct (Hdefault (Forall_nil_2 _)) as (_ & Hnext).
    apply Hnext. intros sid [= <-].
    repeat constructor; discriminate.
Defined.

(** ** Claims on the continue handler *)

Lemma isValid_false_iff (e : gmap string string) :
  Validator.isValid e = false <-> e <> ∅.
Proof.
  unfold Validator.isValid. rewrite Nat.eqb_neq.
  split; intros Hne Habs; apply Hne.
  - subst e. apply map_size_empty.
  - now apply map_size_empty_iff.
Qed.

(** C3 as stated fails: with [validateOnContinue] off, the handler does not
    call [validateStep] although no rule matches, and Continue leaves the
    step with its required field unanswered. *)
Lemma continue_skips_validation_counterexample :
  ~ (forall (snap : ViewState) (step : Step),
       Preview.continueValidation snap step = None <->
       Exists (fun nav => evaluateCondition (formData snap) (condition nav) = true)
         (conditionalNavigation step)) /\
  (let m := Preview.run ContinueExample.uncheckedForm [Preview.ClickContinue]
              Preview.initial in
   errors (view m) = ∅ /\ pendingStepIndex (refs m) = Some 1).
Proof.
  split.
  - intros Hclaim.
    destruct (Hclaim Preview.initialView ContinueExample.uncheckedStep) as [Hskip _].
    specialize (Hskip eq_refl). inversion Hskip.
  - split; vm_compute; reflexivity.
Qed.

(** C3, amended.  [handleContinue] does nothing while a transition is in
    flight.  Otherwise it leaves out the call of [validateStep] if and only
    if some rule of the step has a true condition or [validateOnContinue]
    is off: in that case it goes straight to the navigation, whatever
    [validateStep] would have returned or thrown, and the stored errors stay
    as they were; in the other case what it does is decided by
    [validateStep]: it ends by its exception, or stores its error map and
    navigates only when that map is empty.  When no rule matches,
    [validateOnContinue] is on and [validateStep] returns a non-empty error
    map, the handler stores that map and returns: step index, submission
    flags, refs and timers are unchanged. *)
Theorem handleContinue_validation `{JsRuntime}
    (form : Form) (snap : ViewState) (step : Step) (m : Machine)
    (newErrors : gmap string string) :
  Preview.currentStepOf form snap = Some step ->
  let matched :=
    Exists (fun nav => evaluateCondition (formData snap) (condition nav) = true)
      (conditionalNavigation step) in
  let nextIndex :=
    getNextStepIndex form (formData snap) step (currentStepIndex snap) in
  let navigated (m0 : Machine) :=
    if meansSubmit form nextIndex then Preview.handleSubmit m0
    else Preview.transitionToStep snap nextIndex (Preview.setIsNavigating true m0) in
  (isTransitioning snap = true -> Preview.handleContinue form snap m = Normal m) /\
  (Preview.conditionalNavMatched snap step = true <-> matched) /\
  (Preview.continueValidation snap step = None <->
   Preview.conditionalNavMatched snap step = true \/ validateOnContinue step = false) /\
  (isTransitioning snap = false ->
   matched \/ validateOnContinue step = false ->
   Preview.handleContinue form snap m = Normal (navigated m) /\
   errors (view (navigated m)) = errors (view m)) /\
  (isTransitioning snap = false ->
   ~ matched ->
   validateOnContinue step = true ->
   Preview.handleContinue form snap m =
     match Validator.validateStep (formData snap) step with
     | Throw err => Throw err
     | Normal e =>
         if Validator.isValid e then Normal (navigated (Preview.setErrors e m))
         else Normal (Preview.setErrors e m)
     end /\
   (forall e, Validator.validateStep (formData snap) step = Normal e ->
      Validator.isValid e = true ->
      errors (view (navigated (Preview.setErrors e m))) = e)) /\
  (isTransitioning snap = false ->
   Preview.conditionalNavMatched snap step = false ->
   validateOnContinue step = true ->
   Validator.validateStep (formData snap) step = Normal newErrors ->
   newErrors <> ∅ ->
   Preview.handleContinue form snap m = Normal (Preview.setErrors newErrors m) /\
   currentStepIndex (view (Preview.setErrors newErrors m)) = currentStepIndex (view m) /\
   isSubmitting (view (Preview.setErrors newErrors m)) = isSubmitting (view m) /\
   submitted (view (Preview.setErrors newErrors m)) = submitted (view m) /\
   refs (Preview.setErrors newErrors m) = refs m /\
   timers (Preview.setErrors newErrors m) = timers m).
Proof.
  intros Hstep matched nextIndex navigated.
  assert (Herrors : forall m0, errors (view (navigated m0)) = errors (view m0)).
  { intros m0. unfold navigated, Preview.transitionToStep.
    destruct (meansSubmit form nextIndex), (isTransitioning snap); reflexivity. }
  assert (Hnav : forall m0, Preview.continueNavigation form snap step m0 = navigated m0)
    by reflexivity.
  refine (conj _ (conj _ (conj _ (conj _ (conj _ _))))).
  - intros Ht. unfold Preview.handleContinue. now rewrite Hstep, Ht.
  - apply conditionalNavMatched_exists.
  - unfold Preview.continueValidation.
    destruct (Preview.conditionalNavMatched snap step), (validateOnContinue step);
      simpl; split; intros Hx; try discriminate; auto;
      destruct Hx; discriminate.
  - intros Ht Hskip. split; [|apply Herrors].
    unfold Preview.handleContinue, Preview.continueValidation. rewrite Hstep, Ht.
    destruct Hskip as [Hmatched | Hoff].
    + apply conditionalNavMatched_exists in Hmatched. rewrite Hmatched. simpl.
      now rewrite Hnav.
    + rewrite Hoff, andb_false_r. now rewrite Hnav.
  - intros Ht Hno Hon.
    assert (Hunmatched : Preview.conditionalNavMatched snap step = false).
    { destruct (Preview.conditionalNavMatched snap step) eqn:Hm; [|reflexivity].
      apply conditionalNavMatched_exists in Hm. contradiction. }
    split.
    + unfold Preview.handleContinue, Preview.continueValidation.
      rewrite Hstep, Ht, Hunmatched, Hon. simpl.
      destruct (Validator.validateStep (formData snap) step) as [e|err]; [|reflexivity].
      cbv zeta. destruct (Validator.isValid e); [|reflexivity]. now rewrite Hnav.
    + intros e _ _. now rewrite Herrors.
  - intros Ht Hno Hv Hval Hne.
    split; [|repeat split].
    unfold Preview.handleContinue, Preview.continueValidation.
    rewrite Hstep, Ht, Hno, Hv, Hval. simpl.
    apply isValid_false_iff in Hne. now rewrite Hne.
Qed.

Lemma handleContinue_validation_witness :
  Preview.currentStepOf ContinueExample.checkedForm Preview.initialView =
    Some ContinueExample.checkedStep /\
  Preview.handleContinue ContinueExample.checkedForm Preview.initialView
    Preview.initial =
  Normal (Preview.setErrors {[ "name" := Validator.msgRequired ]} Preview.initial) /\
  Preview.currentStepOf DefaultExample.overriddenForm Preview.initialView =
    Some DefaultExample.overriddenStep /\
  Validator.validateStep ∅ DefaultExample.overriddenStep =
    Normal {[ "name" := Validator.msgRequired ]} /\
  Preview.handleContinue DefaultExample.overriddenForm Preview.initialView
    Preview.initial =
  Normal (Preview.transitionToStep Preview.initialView 1
            (Preview.setIsNavigating true Preview.initial)).
Proof.
  refine (conj eq_refl (conj _ (conj eq_refl (conj eq_refl _)))).
  - destruct (handleContinue_validation ContinueExample.checkedForm
                Preview.initialView ContinueExample.checkedStep Preview.initial
                {[ "name" := Validator.msgRequired ]} eq_refl)
      as (_ & _ & _ & _ & _ & Habort).
    apply Habort; try reflexivity.
    apply insert_non_empty.
  - destruct (handleContinue_validation DefaultExample.overriddenForm
                Preview.initialView DefaultExample.overriddenStep Preview.initial
                ∅ eq_refl)
      as (_ & _ & _ & Hskip & _).
    refine (proj1 (Hskip eq_refl _)).
    left. apply Exists_cons_hd. reflexivity.
Defined.

(** ** Claims on the condition evaluator *)

Lemma startsWith_spec s p :
  JsString.startsWith s p = true <-> exists b, s = p ++ b.
Proof.
  revert s. induction p as [|c p IH]; intros s; simpl.
  - destruct s; (split; [intros _; eexists; reflexivity | reflexivity]).
  - destruct s as [|a s].
    + split; [discriminate | intros (b & Hb); discriminate Hb].
    + simpl. rewrite andb_true_iff, Ascii.eqb_eq, IH. split.
      * intros (-> & b & ->). now exists b.
      * intros (b & Hb). injection Hb as -> ->. split; [reflexivity | now exists b].
Qed.

Lemma includes_spec s p :
  JsString.includes s p = true <-> exists a b, s = a ++ p ++ b.
Proof.
  induction s as [|c s IH].
  - change (JsString.includes "" p) with (JsString.startsWith "" p || false).
    rewrite orb_false_r, startsWith_spec. split.
    + intros (b & Hb). now exists "", b.
    + intros ([|? ?] & b & Hb); [now exists b | discriminate Hb].
  - change (JsString.includes (String c s) p)
      with (JsString.startsWith (String c s) p || JsString.includes s p).
    rewrite orb_true_iff, startsWith_spec, IH. split.
    + intros [(b & Hb) | (a & b & Hb)].
      * now exists "", b.
      * exists (String c a), b. simpl. now rewrite Hb.
    + intros ([|a0 a] & b & Hb).
      * left. now exists b.
      * right. simpl in Hb. injection Hb as -> ->. now exists a, b.
Qed.

(** C4 as stated fails: the first line of [evaluateRule] is
    [formData[rule.questionId] || ''], so a present answer that is falsy is
    replaced too.  The slider answer 0 is compared as [''] and not as 0
    ("0" is not found in it), and the answer [false] equals ['']. *)
Lemma ruleValue_nullish_counterexample :
  ~ (forall (answers : gmap string JsValue) (rule : ConditionRule),
       ruleValue answers rule = nullishValue answers rule) /\
  (let answers := EvaluatorExample.sliderAtZero in
   let rule := EvaluatorExample.volumeContainsZero in
   ruleValue answers rule = VString "" /\
   nullishValue answers rule = VNumber EvaluatorExample.zero /\
   evaluateRule answers rule = false /\
   evaluateOn (nullishValue answers rule) rule = true) /\
  (let answers := EvaluatorExample.unchecked in
   let rule := EvaluatorExample.agreeEqualsEmpty in
   evaluateRule answers rule = true /\
   evaluateOn (nullishValue answers rule) rule = false).
Proof.
  split; [|split; repeat split; vm_compute; reflexivity].
  intros Hclaim.
  specialize (Hclaim EvaluatorExample.sliderAtZero EvaluatorExample.volumeContainsZero).
  vm_compute in Hclaim. discriminate Hclaim.
Qed.

(** C4, amended.  The value under comparison is
    [answers[rule.questionId] || '']: an answer that is absent or falsy
    ([undefined], [null], [false], [0], [NaN], ['']) is replaced by the empty
    string, and every truthy answer is compared as it is.  It differs from the
    [??] reading only on a present [false] or on a present falsy number.  A
    [questionId] that is not in the map is evaluated against [''], and the
    evaluation is total. *)
Theorem ruleValue_falsy_default `{JsRuntime}
    (answers : gmap string JsValue) (rule : ConditionRule) :
  (answers !! questionId rule = None -> ruleValue answers rule = VString "") /\
  (forall v, answers !! questionId rule = Some v -> Js.truthy v = true ->
             ruleValue answers rule = v) /\
  (forall v, answers !! questionId rule = Some v -> Js.truthy v = false ->
             ruleValue answers rule = VString "") /\
  (ruleValue answers rule <> nullishValue answers rule ->
   answers !! questionId rule = Some (VBool false) \/
   exists x, answers !! questionId rule = Some (VNumber x) /\
             Js.truthyNumber x = false) /\
  evaluateRule answers rule = evaluateOn (ruleValue answers rule) rule.
Proof.
  unfold ruleValue, nullishValue, readAnswer.
  refine (conj _ (conj _ (conj _ (conj _ _)))).
  - now intros ->.
  - intros v -> Hv. simpl. now rewrite Hv.
  - intros v -> Hv. simpl. now rewrite Hv.
  - destruct (answers !! questionId rule) as [v|]; simpl; [|congruence].
    destruct v as [| |[]|x|s|l]; simpl; try congruence.
    + intros _. now left.
    + destruct (Js.truthyNumber x) eqn:Hx; [congruence|].
      intros _. right. now exists x.
    + destruct (String.eqb_spec s ""); simpl; congruence.
  - reflexivity.
Qed.

Lemma ruleValue_falsy_default_witness :
  (EvaluatorExample.sliderAtZero !! "volume" = Some (VNumber EvaluatorExample.zero) /\
   Js.truthy (VNumber EvaluatorExample.zero) = false) /\
  ruleValue EvaluatorExample.sliderAtZero EvaluatorExample.volumeContainsZero =
    VString "".
Proof.
  split; [split; reflexivity|].
  destruct (ruleValue_falsy_default EvaluatorExample.sliderAtZero
              EvaluatorExample.volumeContainsZero) as (_ & _ & Hfalsy & _).
  apply (Hfalsy (VNumber EvaluatorExample.zero)); reflexivity.
Defined.

(** C5. On an array answer, [contains] is true exactly when some element
    has the compare value as a substring, and [not_contains] is true
    exactly when no element has: it is the negation of [contains]. *)
Theorem evaluateRule_contains_array `{JsRuntime}
    (answers : gmap string JsValue) (qid compareValue : string)
    (elements : list string) :
  let rule op := {| questionId := qid; operator := op; value := compareValue |} in
  answers !! qid = Some (VArray elements) ->
  (evaluateRule answers (rule contains) = true <->
   exists v, In v elements /\ exists a b, v = a ++ compareValue ++ b) /\
  (evaluateRule answers (rule not_contains) = true <->
   forall v, In v elements -> ~ exists a b, v = a ++ compareValue ++ b) /\
  evaluateRule answers (rule not_contains) =
    negb (evaluateRule answers (rule contains)).
Proof.
  intros rule Hans.
  assert (Hc : evaluateRule answers (rule contains) =
               existsb (fun v => JsString.includes v compareValue) elements).
  { unfold evaluateRule, ruleValue, readAnswer. simpl. now rewrite Hans. }
  assert (Hn : evaluateRule answers (rule not_contains) =
               negb (existsb (fun v => JsString.includes v compareValue) elements)).
  { unfold evaluateRule, ruleValue, readAnswer. simpl. now rewrite Hans. }
  assert (Hex : existsb (fun v => JsString.includes v compareValue) elements = true <->
                exists v, In v elements /\ exists a b, v = a ++ compareValue ++ b).
  { rewrite existsb_exists. split; intros (v & Hin & Hv); exists v; split; auto;
      now apply includes_spec. }
  refine (conj _ (conj _ _)).
  - now rewrite Hc.
  - rewrite Hn, negb_true_iff, <- not_true_iff_false, Hex. split.
    + intros Hnone v Hin Hv. apply Hnone. now exists v.
    + intros Hall (v & Hin & Hv). now apply (Hall v).
  - now rewrite Hc, Hn.
Qed.

Lemma evaluateRule_contains_array_witness :
  EvaluatorExample.colours !! "colours" = Some (VArray ["red"; "green"]) /\
  evaluateRule EvaluatorExample.colours (EvaluatorExample.coloursContain "ee") = true /\
  evaluateRule EvaluatorExample.colours
    {| questionId := "colours"; operator := not_contains; value := "ee" |} = false.
Proof.
  split; [reflexivity|].
  destruct (evaluateRule_contains_array EvaluatorExample.colours "colours" "ee"
              ["red"; "green"] eq_refl) as (Hsome & _ & Hneg).
  assert (Hc : evaluateRule EvaluatorExample.colours
                 (EvaluatorExample.coloursContain "ee") = true).
  { apply Hsome. exists "green". split; [right; now left|].
    now exists "gr", "n". }
  split; [exact Hc|].
  change (evaluateRule EvaluatorExample.colours
            (EvaluatorExample.coloursContain "ee")) with
    (evaluateRule EvaluatorExample.colours
       {| questionId := "colours"; operator := contains; value := "ee" |}) in Hc.
  cbv zeta in Hneg. rewrite Hneg, Hc. reflexivity.
Defined.

(** ** Claims on the validator *)

Section ValidatorFacts.
Context `{JsRuntime}.
Variable answers : gmap string JsValue.

Import Validator Reading.

Lemma assignIf_failing c key msg (e : gmap string string) :
  assignIf c key msg e = assignSome (failing c msg) key e.
Proof. now destruct c. Qed.

Lemma assignSome_then (c1 c2 : option string) key (e : gmap string string) :
  assignSome c2 key (assignSome c1 key e) =
  assignSome (match c2 with Some m => Some m | None => c1 end) key e.
Proof.
  destruct c2 as [m2|], c1 as [m1|]; simpl; try reflexivity.
  apply insert_insert_eq.
Qed.

Lemma assign_checks (cs : list (option string)) (acc : option string) key
    (e : gmap string string) :
  fold_left (fun e c => assignSome c key e) cs (assignSome acc key e) =
  assignSome
    (fold_left (fun acc c => match c with Some m => Some m | None => acc end) cs acc)
    key e.
Proof.
  revert acc. induction cs as [|c cs IH]; intros acc; simpl; [reflexivity|].
  now rewrite assignSome_then, IH.
Qed.

Lemma lastFailure_snoc cs c :
  lastFailure (cs ++ [c]) =
  match c with Some m => Some m | None => lastFailure cs end.
Proof. unfold lastFailure. now rewrite fold_left_app. Qed.

(** The statements of the present-value block up to the pattern block are
    the assignment of the last failing check among the first ten. *)
Lemma presentValueBlock_checks q key v (e : gmap string string) :
  presentValueBlock q key v e =
  patternBlock q key v
    (assignSome (lastFailure (typeSpecificChecks q (Js.toString v) ++ rangeChecks q v))
       key e).
Proof.
  unfold lastFailure.
  rewrite <- (assign_checks _ None key e).
  unfold presentValueBlock, typeSpecificChecks, rangeChecks. simpl.
  rewrite !assignIf_failing.
  destruct (isType q date && useDateInputMask q),
    (isType q datetime && useDateInputMask q); reflexivity.
Qed.

Lemma patternBlock_result q key v (e : gmap string string) :
  patternBlock q key v e =
  match truthyString (pattern (validation q)) with
  | Some p =>
      match RegExp_new p with
      | Some _ => Normal (assignSome (patternCheck q v) key e)
      | None => Throw SyntaxError
      end
  | None => Normal e
  end.
Proof.
  unfold patternBlock, patternCheck.
  destruct (truthyString (pattern (validation q))) as [p|]; [|reflexivity].
  destruct (RegExp_new p); [|reflexivity].
  now rewrite assignIf_failing.
Qed.

Lemma validateQuestion_result (e : gmap string string) q :
  validateQuestion answers e q =
  if patternThrows answers q then Throw SyntaxError
  else if checked answers q
       then Normal (assignSome (reportedMessage answers q) (fieldKey q) e)
       else Normal e.
Proof.
  unfold validateQuestion, patternThrows, checked, reportedMessage.
  destruct (shouldShowQuestion answers q); simpl; [|reflexivity].
  destruct (isType q hidden || isType q helper_text); simpl; [reflexivity|].
  destruct (required (validation q) && missingRequired _); simpl; [reflexivity|].
  destruct (Js.truthy _); simpl; [|reflexivity].
  rewrite presentValueBlock_checks, patternBlock_result.
  unfold checksInOrder. rewrite app_assoc, lastFailure_snoc.
  unfold patternCheck.
  destruct (truthyString (pattern (validation q))) as [p|]; [|reflexivity].
  destruct (RegExp_new p); [|reflexivity].
  now rewrite assignSome_then.
Qed.

Lemma forEachQuestion_normal qs (e : gmap string string) :
  existsb (patternThrows answers) qs = false ->
  exists e', forEachQuestion answers qs e = Normal e'.
Proof.
  revert e. induction qs as [|q qs IH]; intros e; simpl; [now exists e|].
  rewrite orb_false_iff. intros [Hq Hqs].
  rewrite validateQuestion_result, Hq.
  destruct (checked answers q); simpl; now apply IH.
Qed.

Lemma forEachQuestion_throw qs (e : gmap string string) :
  existsb (patternThrows answers) qs = true ->
  forEachQuestion answers qs e = Throw SyntaxError.
Proof.
  revert e. induction qs as [|q qs IH]; intros e; simpl; [discriminate|].
  rewrite validateQuestion_result.
  destruct (patternThrows answers q); simpl; [reflexivity|].
  intros Hqs. destruct (checked answers q); simpl; now apply IH.
Qed.

End ValidatorFacts.

(** C7 as stated fails: [validateStep] calls [new RegExp(validation.pattern)]
    outside any [try], so on a present value of a question whose pattern
    does not compile it ends by the [SyntaxError] and returns no error map. *)
Lemma validateStep_throws_counterexample :
  ~ (forall (answers : gmap string JsValue) (step : Step),
       exists e, Validator.validateStep answers step = Normal e) /\
  RegExp_new "(" = None /\
  Validator.validateStep ValidatorExample.codeAnswer
    (Examples.plainStep "A" [ValidatorExample.brokenPattern]) = Throw SyntaxError.
Proof.
  split; [|split; reflexivity].
  intros Hclaim.
  destruct (Hclaim ValidatorExample.codeAnswer
              (Examples.plainStep "A" [ValidatorExample.brokenPattern])) as (e & He).
  vm_compute in He. discriminate He.
Qed.

(** C7, amended.  [validateStep] returns an error map whenever no question
    it checks reaches the pattern check with a pattern that does not
    compile; in particular whenever every pattern of the step, if set,
    compiles.  When a shown input question with a present value has a
    pattern that does not compile, [validateStep] ends by the
    [SyntaxError] of [new RegExp]. *)
Theorem validateStep_completes `{JsRuntime}
    (answers : gmap string JsValue) (step : Step) :
  (existsb (Reading.patternThrows answers) (questions step) = false ->
   exists e, Validator.validateStep answers step = Normal e) /\
  (existsb (Reading.patternThrows answers) (questions step) = true ->
   Validator.validateStep answers step = Throw SyntaxError) /\
  (Forall (fun q => forall p, truthyString (pattern (validation q)) = Some p ->
                              RegExp_new p <> None) (questions step) ->
   exists e, Validator.validateStep answers step = Normal e).
Proof.
  refine (conj _ (conj _ _)).
  - apply forEachQuestion_normal.
  - apply forEachQuestion_throw.
  - intros Hall. apply forEachQuestion_normal.
    apply not_true_iff_false. rewrite existsb_exists.
    intros (q & Hin & Hq). apply list_elem_of_In in Hin.
    rewrite Forall_forall in Hall. specialize (Hall q Hin).
    unfold Reading.patternThrows in Hq.
    destruct (truthyString (pattern (validation q))) as [p|];
      [|now rewrite andb_false_r in Hq].
    specialize (Hall p eq_refl).
    destruct (RegExp_new p); [now rewrite andb_false_r in Hq | congruence].
Qed.

Lemma validateStep_completes_witness :
  existsb (Reading.patternThrows ValidatorExample.codeAnswer)
    (questions (Examples.plainStep "A" [ValidatorExample.literalPattern])) = false /\
  exists e, Validator.validateStep ValidatorExample.codeAnswer
              (Examples.plainStep "A" [ValidatorExample.literalPattern]) = Normal e.
Proof.
  split; [reflexivity|].
  destruct (validateStep_completes ValidatorExample.codeAnswer
              (Examples.plainStep "A" [ValidatorExample.literalPattern]))
    as (Hreturns & _).
  apply Hreturns. reflexivity.
Defined.









(** ** Claims on reset and on progress *)

(** C6 as stated fails: [resetPreview] clears no timer, and a callback that
    was scheduled before the reset still runs.  After Continue and Reset the
    fade-out timer sets the step index to 1; after an answer on an
    auto-advancing step and Reset, the auto-advance timer starts the
    transition and its fade-out timer sets the step index to 1. *)
Lemma reset_keeps_timers_counterexample :
  ~ (forall (form : Form) (before : list Preview.Event) (n : nat),
       let m := Preview.run form (before ++ [Preview.ClickReset]) Preview.initial in
       currentStepIndex (view (Preview.dispatch form (Preview.TimerElapsed n) m)) = 0) /\
  (let m := Preview.run ResetExample.twoSteps ResetExample.resetDuringFadeOut
              Preview.initial in
   currentStepIndex (view m) = 0 /\ timers m = [FadeOut 1] /\
   currentStepIndex
     (view (Preview.dispatch ResetExample.twoSteps (Preview.TimerElapsed 0) m)) = 1) /\
  (let m := Preview.run ResetExample.autoForm ResetExample.resetDuringAutoAdvance
              Preview.initial in
   currentStepIndex (view m) = 0 /\ formData (view m) = ∅ /\
   length (timers m) = 1%nat /\
   currentStepIndex
     (view (Preview.run ResetExample.autoForm
              [Preview.TimerElapsed 0; Preview.TimerElapsed 0] m)) = 1).
Proof.
  split; [|split; repeat split; vm_compute; reflexivity].
  intros Hclaim.
  specialize (Hclaim ResetExample.twoSteps [Preview.ClickContinue] 0%nat).
  vm_compute in Hclaim. discriminate Hclaim.
Qed.

Lemma removeNth_snoc_last {A : Type} (l : list A) (n : nat) (x : A) :
  (n < length l)%nat ->
  (Preview.removeNth n l ++ [x])%list !! (length l - 1)%nat = Some x.
Proof.
  intros Hn. unfold Preview.removeNth.
  assert (Hlen : length (take n l ++ drop (S n) l)%list = (length l - 1)%nat).
  { rewrite length_app, length_take, length_drop. lia. }
  rewrite lookup_app_r by lia. rewrite Hlen, Nat.sub_diag. reflexivity.
Qed.

(** C6, amended.  [resetPreview] sets the step index to 0, empties the
    answer map and the error map and clears [submitted]; it leaves
    [isSubmitting], [isTransitioning], both refs and every pending timer as
    they are.  A fade-out timer that was pending at the reset still commits
    its target index when it elapses; a pending auto-advance timer still
    starts its transition, whose fade-out then commits the index resolved
    from the timer's own snapshot; a pending submit delay still sets
    [submitted]. *)
Theorem resetPreview_state `{JsRuntime} (form : Form) (m : Machine) :
  let m' := Preview.resetPreview m in
  view m' =
    {| currentStepIndex := 0; formData := ∅; errors := ∅;
       isSubmitting := isSubmitting (view m); submitted := false;
       isTransitioning := isTransitioning (view m) |} /\
  refs m' = refs m /\
  timers m' = timers m /\
  (forall n newIndex, timers m !! n = Some (FadeOut newIndex) ->
     currentStepIndex (view (Preview.dispatch form (Preview.TimerElapsed n) m')) =
       newIndex) /\
  (forall n snap step,
     timers m !! n = Some (AutoAdvance snap) ->
     Preview.currentStepOf form snap = Some step ->
     isTransitioning snap = false ->
     let nextIndex :=
       getNextStepIndex form (formData snap) step (currentStepIndex snap) in
     meansSubmit form nextIndex = false ->
     let m1 := Preview.dispatch form (Preview.TimerElapsed n) m' in
     pendingStepIndex (refs m1) = Some nextIndex /\
     currentStepIndex
       (view (Preview.dispatch form
                (Preview.TimerElapsed (length (timers m) - 1)) m1)) = nextIndex) /\
  (forall n, timers m !! n = Some SubmitDelay ->
     submitted (view (Preview.dispatch form (Preview.TimerElapsed n) m')) = true).
Proof.
  intros m'.
  refine (conj eq_refl (conj eq_refl (conj eq_refl (conj _ (conj _ _))))).
  - intros n newIndex Hn. unfold Preview.dispatch.
    change (timers m') with (timers m). now rewrite Hn.
  - intros n snap step Hn Hstep Htrans nextIndex Hnext m1.
    assert (Hm1 : m1 =
              Preview.setTimeout (FadeOut nextIndex)
                (Preview.setPendingStepIndex (Some nextIndex)
                   (Preview.setIsTransitioning true
                      {| view := view m'; refs := refs m';
                         timers := Preview.removeNth n (timers m) |}))).
    { unfold m1, Preview.dispatch. change (timers m') with (timers m).
      rewrite Hn. unfold Preview.fire. rewrite Hstep. fold nextIndex.
      rewrite Hnext. unfold Preview.transitionToStep. now rewrite Htrans. }
    split; [now rewrite Hm1|].
    rewrite Hm1. unfold Preview.dispatch.
    change (timers (Preview.setTimeout _ _))
      with (Preview.removeNth n (timers m) ++ [FadeOut nextIndex])%list.
    rewrite removeNth_snoc_last; [reflexivity|].
    now apply lookup_lt_Some in Hn.
  - intros n Hn. unfold Preview.dispatch.
    change (timers m') with (timers m). now rewrite Hn.
Qed.

Lemma resetPreview_state_witness :
  let m := Preview.run ResetExample.twoSteps [Preview.ClickContinue] Preview.initial in
  timers m !! 0%nat = Some (FadeOut 1) /\
  currentStepIndex
    (view (Preview.dispatch ResetExample.twoSteps (Preview.TimerElapsed 0)
             (Preview.resetPreview m))) = 1.
Proof.
  split; [reflexivity|].
  destruct (resetPreview_state ResetExample.twoSteps
              (Preview.run ResetExample.twoSteps [Preview.ClickContinue]
                 Preview.initial)) as (_ & _ & _ & Hfade & _).
  apply (Hfade 0%nat 1). reflexivity.
Defined.

(** C10. In mode [linear] and in mode [step_based] the progress is
    [(currentStepIndex + 1) / totalSteps * 100], the same in both modes, and
    it is 0 when there are no steps.  With 4 steps it is 25 at index 0 and
    100 at index 3. *)
Theorem progress_linear_step_based `{JsRuntime}
    (form : Form) (view : ViewState) :
  let totalSteps := Z.of_nat (length (steps form)) in
  mode (progressConfig form) = linear \/ mode (progressConfig form) = step_based ->
  (totalSteps = 0 -> Progress.progress form view = PrimFloat.zero) /\
  (totalSteps <> 0 ->
   Progress.progress form view =
     (Js.ofZ (currentStepIndex view + 1) / Js.ofZ totalSteps * Js.ofZ 100)%float) /\
  (forall form',
     steps form' = steps form ->
     mode (progressConfig form') = linear \/
     mode (progressConfig form') = step_based ->
     Progress.progress form' view = Progress.progress form view) /\
  (Progress.progress (ProgressExample.formIn linear) (ProgressExample.atIndex 0) =
     Js.ofZ 25 /\
   Progress.progress (ProgressExample.formIn linear) (ProgressExample.atIndex 3) =
     Js.ofZ 100 /\
   Progress.progress (ProgressExample.formIn step_based) (ProgressExample.atIndex 0) =
     Js.ofZ 25 /\
   Progress.progress (ProgressExample.formIn step_based) (ProgressExample.atIndex 3) =
     Js.ofZ 100).
Proof.
  intros totalSteps Hmode.
  assert (Hformula : forall f : Form,
            mode (progressConfig f) = linear \/ mode (progressConfig f) = step_based ->
            Progress.progress f view =
              if Z.of_nat (length (steps f)) =? 0 then PrimFloat.zero
              else (Js.ofZ (currentStepIndex view + 1) /
                    Js.ofZ (Z.of_nat (length (steps f))) * Js.ofZ 100)%float).
  { intros f Hf. unfold Progress.progress, Preview.currentStepOf.
    destruct (steps f) as [|s0 rest] eqn:Hsteps.
    - unfold nthZ. destruct (_ <? 0); simpl; now rewrite ?lookup_nil.
    - assert (Hsome : exists s, match nthZ (s0 :: rest) (currentStepIndex view) with
                                | Some s => Some s
                                | None => (s0 :: rest) !! 0%nat
                                end = Some s).
      { destruct (nthZ (s0 :: rest) (currentStepIndex view)) as [s|];
          [now exists s | now exists s0]. }
      destruct Hsome as (s & ->).
      destruct (Z.of_nat (length (s0 :: rest)) =? 0); [reflexivity|].
      destruct Hf as [-> | ->]; reflexivity. }
  refine (conj _ (conj _ (conj _ _))).
  - intros Hzero. rewrite (Hformula form Hmode). fold totalSteps.
    now rewrite Hzero.
  - intros Hpos. rewrite (Hformula form Hmode). fold totalSteps.
    now destruct (Z.eqb_spec totalSteps 0).
  - intros form' Hsteps Hmode'.
    now rewrite (Hformula form Hmode), (Hformula form' Hmode'), Hsteps.
  - repeat split; vm_compute; reflexivity.
Qed.

Lemma progress_linear_step_based_witness :
  mode (progressConfig (ProgressExample.formIn linear)) = linear /\
  Progress.progress (ProgressExample.formIn linear)
    (ProgressExample.atIndex 1) = Js.ofZ 50.
Proof.
  split; [reflexivity|].
  destruct (progress_linear_step_based (ProgressExample.formIn linear)
              (ProgressExample.atIndex 1) (or_introl eq_refl)) as (_ & Hvalue & _).
  rewrite Hvalue; [reflexivity | discriminate].
Defined.

(** * Further properties of the component *)

(** ** The condition evaluator *)

(** X1. A condition with logic [AND] is true exactly when every rule is
    true and false exactly when some rule is false; one with logic [OR]
    is true exactly when some rule is true and false exactly when every
    rule is false.  So [AND] without rules holds and [OR] without rules
    does not. *)
Theorem evaluateCondition_logic `{JsRuntime}
    (answers : gmap string JsValue) (rs : list ConditionRule) :
  (evaluateCondition answers {| logic := AND; rules := rs |} = true <->
   Forall (fun r => evaluateRule answers r = true) rs) /\
  (evaluateCondition answers {| logic := OR; rules := rs |} = true <->
   Exists (fun r => evaluateRule answers r = true) rs) /\
  (evaluateCondition answers {| logic := AND; rules := rs |} = false <->
   Exists (fun r => evaluateRule answers r = false) rs) /\
  (evaluateCondition answers {| logic := OR; rules := rs |} = false <->
   Forall (fun r => evaluateRule answers r = false) rs).
Proof.
  unfold evaluateCondition. simpl.
  induction rs as [|r rs (IHa & IHo & IHna & IHno)]; simpl.
  - repeat split; try constructor; try discriminate; intros Hx; inversion Hx.
  - rewrite Forall_cons, !Exists_cons, Forall_cons, andb_true_iff, orb_true_iff,
      andb_false_iff, orb_false_iff, IHa, IHo, IHna, IHno.
    repeat split; tauto.
Qed.

(** X2. The negated operators are exact complements on every answer,
    scalar, array or missing: [is_not_empty] of [is_empty], [not_equals]
    of [equals] and [not_contains] of [contains]. *)
Theorem evaluateRule_complements `{JsRuntime}
    (answers : gmap string JsValue) (qid compareValue : string) :
  let rule op := {| questionId := qid; operator := op; value := compareValue |} in
  evaluateRule answers (rule is_not_empty) = negb (evaluateRule answers (rule is_empty)) /\
  evaluateRule answers (rule not_equals) = negb (evaluateRule answers (rule equals)) /\
  evaluateRule answers (rule not_contains) = negb (evaluateRule answers (rule contains)).
Proof.
  intros rule. unfold evaluateRule, evaluateOn. simpl.
  destruct (ruleValue answers (rule is_not_empty)) as [| |b|x|s|l] eqn:Hv;
    change (ruleValue answers (rule is_empty)) with (ruleValue answers (rule is_not_empty));
    change (ruleValue answers (rule not_equals)) with (ruleValue answers (rule is_not_empty));
    change (ruleValue answers (rule equals)) with (ruleValue answers (rule is_not_empty));
    change (ruleValue answers (rule not_contains)) with (ruleValue answers (rule is_not_empty));
    change (ruleValue answers (rule contains)) with (ruleValue answers (rule is_not_empty));
    rewrite Hv; simpl; repeat split;
    rewrite ?negb_orb, ?negb_involutive, ?andb_true_r, ?orb_false_r; try reflexivity.
  destruct l; reflexivity.
Qed.

Lemma startsWith_empty p : JsString.startsWith "" p = true <-> p = "".
Proof. destruct p; simpl; split; congruence. Qed.

Lemma includes_empty p : JsString.includes "" p = true <-> p = "".
Proof.
  change (JsString.includes "" p) with (JsString.startsWith "" p || false).
  rewrite orb_false_r. apply startsWith_empty.
Qed.

Lemma endsWith_empty p : JsString.endsWith "" p = true <-> p = "".
Proof.
  unfold JsString.endsWith. destruct p; simpl; split; congruence.
Qed.

(** X3. A rule on a question that has no answer, or a falsy one, is
    evaluated on the empty string: [is_empty] holds and [is_not_empty]
    does not; [equals], [contains], [starts_with] and [ends_with] hold
    exactly when the compare value is empty. *)
Theorem evaluateRule_unanswered `{JsRuntime}
    (answers : gmap string JsValue) (qid compareValue : string) :
  let rule op := {| questionId := qid; operator := op; value := compareValue |} in
  Js.truthy (readAnswer answers qid) = false ->
  evaluateRule answers (rule is_empty) = true /\
  evaluateRule answers (rule is_not_empty) = false /\
  (evaluateRule answers (rule equals) = true <-> compareValue = "") /\
  (evaluateRule answers (rule contains) = true <-> compareValue = "") /\
  (evaluateRule answers (rule starts_with) = true <-> compareValue = "") /\
  (evaluateRule answers (rule ends_with) = true <-> compareValue = "").
Proof.
  intros rule Hfalsy.
  assert (Hv : forall op, ruleValue answers (rule op) = VString "").
  { intros op. unfold ruleValue. simpl. now rewrite Hfalsy. }
  unfold evaluateRule. rewrite !Hv. unfold evaluateOn. simpl.
  refine (conj eq_refl (conj eq_refl (conj _ (conj _ (conj _ _))))).
  - destruct compareValue; simpl; split; congruence.
  - apply includes_empty.
  - apply startsWith_empty.
  - apply endsWith_empty.
Qed.

Lemma evaluateRule_unanswered_witness :
  Js.truthy (readAnswer (∅ : gmap string JsValue) "q") = false /\
  evaluateRule ∅ {| questionId := "q"; operator := is_empty; value := "x" |} = true.
Proof.
  assert (Hfalsy : Js.truthy (readAnswer (∅ : gmap string JsValue) "q") = false)
    by reflexivity.
  split; [exact Hfalsy|].
  destruct (evaluateRule_unanswered ∅ "q" "x" Hfalsy) as (Hempty & _).
  exact Hempty.
Defined.

Lemma SFcompare_nan_l y : SFcompare S754_nan y = None.
Proof. reflexivity. Qed.

Lemma SFcompare_nan_r x : SFcompare x S754_nan = None.
Proof. now destruct x. Qed.

Lemma SFcompare_refl_nan x : SFcompare x x <> Some Eq -> x = S754_nan.
Proof.
  destruct x as [s|s| |s m e]; simpl; try congruence.
  - now destruct s.
  - rewrite Z.compare_refl. rewrite Pos.compare_cont_refl. now destruct s.
Qed.

Lemma isNaN_spec x : Js.isNaN x = true -> Prim2SF x = S754_nan.
Proof.
  unfold Js.isNaN. rewrite negb_true_iff, FloatAxioms.eqb_spec. unfold SFeqb.
  intros Hx. apply SFcompare_refl_nan. intros Heq. now rewrite Heq in Hx.
Qed.

Lemma compare_cont_swap m1 m2 :
  Pos.compare_cont Eq m2 m1 = CompOpp (Pos.compare_cont Eq m1 m2).
Proof. now rewrite Pos.compare_cont_antisym. Qed.

Lemma SFcompare_lt_gt x y : SFcompare x y = Some Lt -> SFcompare y x = Some Gt.
Proof.
  destruct x as [s1|s1| |s1 m1 e1], y as [s2|s2| |s2 m2 e2]; simpl;
    try congruence; try (destruct s1; congruence); try (destruct s2; congruence);
    try (destruct s1, s2; congruence).
  rewrite (Z.compare_antisym e1 e2), (compare_cont_swap m1 m2).
  destruct s1, s2; try congruence;
    destruct (e1 ?= e2); simpl; try congruence;
    destruct (Pos.compare_cont Eq m1 m2); simpl; congruence.
Qed.

Lemma ltb_asym x y : PrimFloat.ltb x y = true -> PrimFloat.ltb y x = false.
Proof.
  rewrite !FloatAxioms.ltb_spec. unfold SFltb.
  destruct (SFcompare (Prim2SF x) (Prim2SF y)) as [[]|] eqn:Hc; try discriminate.
  now rewrite (SFcompare_lt_gt _ _ Hc).
Qed.

Lemma ltb_nan x y :
  Js.isNaN x = true \/ Js.isNaN y = true -> PrimFloat.ltb x y = false.
Proof.
  rewrite FloatAxioms.ltb_spec. unfold SFltb.
  intros [Hx|Hy]; [rewrite (isNaN_spec _ Hx) | rewrite (isNaN_spec _ Hy)].
  - reflexivity.
  - now rewrite SFcompare_nan_r.
Qed.

(** X4. [greater_than] and [less_than] are never both true for one answer
    and compare value, and both are false when the answer or the compare
    value converts to [NaN]. *)
Theorem evaluateRule_numeric `{JsRuntime}
    (answers : gmap string JsValue) (qid compareValue : string) :
  let rule op := {| questionId := qid; operator := op; value := compareValue |} in
  let v := ruleValue answers (rule greater_than) in
  (evaluateRule answers (rule greater_than) = true ->
   evaluateRule answers (rule less_than) = false) /\
  (Js.isNaN (Js.toNumber v) = true \/ Js.isNaN (StringToNumber compareValue) = true ->
   evaluateRule answers (rule greater_than) = false /\
   evaluateRule answers (rule less_than) = false).
Proof.
  intros rule v. unfold evaluateRule, evaluateOn. simpl.
  change (ruleValue answers (rule less_than)) with v. fold v.
  split.
  - apply ltb_asym.
  - intros Hnan. split; apply ltb_nan; tauto.
Qed.

Lemma evaluateRule_numeric_witness :
  let answers : gmap string JsValue := {[ "age" := VString "abc" ]} in
  Js.isNaN (Js.toNumber (VString "abc")) = true /\
  evaluateRule answers {| questionId := "age"; operator := greater_than; value := "3" |}
    = false.
Proof.
  split; [reflexivity|].
  destruct (evaluateRule_numeric {[ "age" := VString "abc" ]} "age" "3")
    as (_ & Hnan).
  destruct Hnan as (Hgt & _); [left; reflexivity | exact Hgt].
Defined.

(** ** The literal patterns of the validator *)

Lemma append_nil_l (t : string) : "" ++ t = t.
Proof. reflexivity. Qed.

Lemma append_cons (c : ascii) (s t : string) : String c s ++ t = String c (s ++ t).
Proof. reflexivity. Qed.

Ltac string_simpl :=
  simpl; rewrite ?append_cons, ?append_nil_l; simpl.

Ltac string_simpl_in H :=
  simpl in H; rewrite ?append_cons, ?append_nil_l in H; simpl in H.

Section RegexFacts.
Import Regex Language.

Lemma append_nil_r (s : string) : s ++ "" = s.
Proof. induction s; string_simpl; congruence. Qed.

Lemma append_assoc (a b c : string) : (a ++ b) ++ c = a ++ (b ++ c).
Proof. induction a; string_simpl; congruence. Qed.

Lemma append_length (a b : string) :
  String.length (a ++ b) = (String.length a + String.length b)%nat.
Proof. induction a; string_simpl; congruence. Qed.

Lemma append_eq_nil (a b : string) : a ++ b = "" -> a = "" /\ b = "".
Proof. destruct a; string_simpl; [tauto | discriminate]. Qed.

Lemma nullable_spec r : nullable r = true <-> Matches r "".
Proof.
  split.
  - induction r; simpl; try discriminate; intros Hn.
    + constructor.
    + apply andb_true_iff in Hn as [H1 H2].
      change "" with ("" ++ ""). constructor; auto.
    + apply orb_true_iff in Hn as [H1|H2]; [apply MatchAltL | apply MatchAltR]; auto.
    + constructor.
  - induction r; intros Hm; inversion Hm; subst; simpl; try reflexivity.
    + match goal with Heq : _ ++ _ = "" |- _ => apply append_eq_nil in Heq as [-> ->] end.
      rewrite IHr1, IHr2 by assumption. reflexivity.
    + rewrite IHr1 by assumption. reflexivity.
    + rewrite IHr2 by assumption. apply orb_true_r.
Qed.

Lemma deriv_sound c r s : Matches (deriv c r) s -> Matches r (String c s).
Proof.
  revert s. induction r; simpl; intros s Hm.
  - inversion Hm.
  - inversion Hm.
  - destruct (p c) eqn:Hp; inversion Hm; subst. now constructor.
  - assert (Hleft : forall t, Matches (Seq (deriv c r1) r2) t ->
                              Matches (Seq r1 r2) (String c t)).
    { intros t Ht. inversion Ht; subst.
      change (String c (s1 ++ s2)) with (String c s1 ++ s2).
      constructor; auto. }
    destruct (nullable r1) eqn:Hn; [|now apply Hleft].
    inversion Hm; subst; [now apply Hleft|].
    change (String c s) with ("" ++ String c s).
    constructor; [now apply nullable_spec | auto].
  - inversion Hm; subst; [apply MatchAltL | apply MatchAltR]; auto.
  - inversion Hm; subst.
    change (String c (s1 ++ s2)) with (String c s1 ++ s2).
    constructor; auto.
Qed.

Lemma deriv_complete c r t :
  Matches r t -> forall s, t = String c s -> Matches (deriv c r) s.
Proof.
  induction 1 as [|p a Hp|r1 r2 s1 s2 H1 IH1 H2 IH2|r1 r2 s0 H1 IH1
                  |r1 r2 s0 H2 IH2| |r s1 s2 H1 IH1 H2 IH2];
    intros s Heq; simpl.
  - discriminate.
  - injection Heq as -> <-. rewrite Hp. constructor.
  - destruct s1 as [|a s1]; string_simpl_in Heq.
    + subst s2. apply nullable_spec in H1. rewrite H1.
      apply MatchAltR. now apply IH2.
    + injection Heq as -> <-.
      assert (Hseq : Matches (Seq (deriv c r1) r2) (s1 ++ s2))
        by (constructor; [now apply IH1 | assumption]).
      destruct (nullable r1); [now apply MatchAltL | assumption].
  - apply MatchAltL. now apply IH1.
  - apply MatchAltR. now apply IH2.
  - discriminate.
  - destruct s1 as [|a s1]; string_simpl_in Heq.
    + now apply IH2.
    + injection Heq as -> <-. constructor; [now apply IH1 | assumption].
Qed.

(** The derivative matcher decides membership. *)
Lemma test_spec r s : test r s = true <-> Matches r s.
Proof.
  revert r. induction s as [|c s IH]; intros r; simpl.
  - apply nullable_spec.
  - rewrite IH. split; [apply deriv_sound|].
    intros Hm. now apply (deriv_complete c r (String c s)).
Qed.

Lemma matches_class p s :
  Matches (Class p) s <-> exists c, s = String c "" /\ p c = true.
Proof.
  split.
  - intros Hm. inversion Hm; subst. eauto.
  - intros (c & -> & Hp). now constructor.
Qed.

Lemma matches_seq r1 r2 s :
  Matches (Seq r1 r2) s <-> exists s1 s2, s = s1 ++ s2 /\ Matches r1 s1 /\ Matches r2 s2.
Proof.
  split.
  - intros Hm. inversion Hm; subst. eauto.
  - intros (s1 & s2 & -> & H1 & H2). now constructor.
Qed.

Lemma matches_lit c s : Matches (Lit c) s <-> s = String c "".
Proof.
  unfold Lit. rewrite matches_class. split.
  - intros (a & -> & Ha). apply Ascii.eqb_eq in Ha. now subst.
  - intros ->. exists c. split; [reflexivity | apply Ascii.eqb_refl].
Qed.

Lemma every_app p a b : every p (a ++ b) = every p a && every p b.
Proof. induction a; string_simpl; [reflexivity|]. now rewrite IHa, andb_assoc. Qed.

Lemma matches_star_class p s : Matches (Star (Class p)) s <-> every p s = true.
Proof.
  split.
  - intros Hm. remember (Star (Class p)) as r eqn:Hr.
    induction Hm; try discriminate; [reflexivity|].
    injection Hr as ->. inversion Hm1; subst. string_simpl.
    rewrite IHHm2 by reflexivity. now rewrite andb_true_r.
  - induction s as [|c s IH]; simpl; [constructor|].
    intros Hs. apply andb_true_iff in Hs as [Hc Hs].
    change (String c s) with (String c "" ++ s).
    constructor; [now constructor | auto].
Qed.

Lemma matches_times p n s :
  Matches (Times n (Class p)) s <-> String.length s = n /\ every p s = true.
Proof.
  revert s. induction n as [|n IH]; intros s; simpl.
  - split.
    + intros Hm. inversion Hm. now split.
    + intros [Hl _]. destruct s; [constructor | discriminate].
  - rewrite matches_seq. split.
    + intros (s1 & s2 & -> & H1 & H2).
      apply matches_class in H1 as (c & -> & Hc). apply IH in H2 as [Hl Hs].
      string_simpl. rewrite Hc, Hs, Hl. now split.
    + intros [Hl Hs]. destruct s as [|c s]; [discriminate|].
      simpl in Hs. apply andb_true_iff in Hs as [Hc Hs].
      exists (String c ""), s. split; [reflexivity|].
      split; [apply matches_class; eauto|].
      apply IH. split; [now injection Hl | assumption].
Qed.

Lemma matches_upto p n s :
  Matches (UpTo n (Class p)) s <-> (String.length s <= n)%nat /\ every p s = true.
Proof.
  revert s. induction n as [|n IH]; intros s; simpl.
  - split.
    + intros Hm. inversion Hm. now split.
    + intros [Hl _]. destruct s; [constructor | simpl in Hl; lia].
  - unfold Opt. split.
    + intros Hm. inversion Hm as [| | |? ? ? Hl| ? ? ? Hr| |]; subst.
      * apply matches_seq in Hl as (s1 & s2 & -> & H1 & H2).
        apply matches_class in H1 as (c & -> & Hc). apply IH in H2 as [Hlen Hs].
        string_simpl. rewrite Hc, Hs. split; [lia | reflexivity].
      * inversion Hr. split; [simpl; lia | reflexivity].
    + intros [Hl Hs]. destruct s as [|c s]; [apply MatchAltR; constructor|].
      simpl in Hs, Hl. apply andb_true_iff in Hs as [Hc Hs].
      apply MatchAltL. apply matches_seq.
      exists (String c ""), s. split; [reflexivity|].
      split; [apply matches_class; eauto|].
      apply IH. split; [lia | assumption].
Qed.

Lemma take_drop_chars n s : JsString.takeChars n s ++ JsString.dropChars n s = s.
Proof.
  revert s. induction n as [|n IH]; intros [|c s]; string_simpl; try reflexivity.
  now rewrite IH.
Qed.

Lemma takeChars_length n s :
  String.length (JsString.takeChars n s) = Nat.min n (String.length s).
Proof.
  revert s. induction n as [|n IH]; intros [|c s]; simpl; try reflexivity.
  now rewrite IH.
Qed.

Lemma matches_between p lo hi s :
  (lo <= hi)%nat ->
  (Matches (Between lo hi (Class p)) s <->
   (lo <= String.length s <= hi)%nat /\ every p s = true).
Proof.
  intros Hle. unfold Between. rewrite matches_seq. split.
  - intros (s1 & s2 & -> & H1 & H2).
    apply matches_times in H1 as [Hl1 Hs1]. apply matches_upto in H2 as [Hl2 Hs2].
    rewrite append_length, every_app, Hs1, Hs2. split; [lia | reflexivity].
  - intros [Hl Hs].
    exists (JsString.takeChars lo s), (JsString.dropChars lo s).
    pose proof (take_drop_chars lo s) as Hsplit.
    assert (Hparts : every p (JsString.takeChars lo s) = true /\
                     every p (JsString.dropChars lo s) = true).
    { apply andb_true_iff. now rewrite <- every_app, Hsplit. }
    assert (Hlen : (String.length (JsString.takeChars lo s) +
                    String.length (JsString.dropChars lo s))%nat = String.length s).
    { now rewrite <- append_length, Hsplit. }
    rewrite takeChars_length in Hlen.
    split; [now rewrite Hsplit|].
    split; [apply matches_times | apply matches_upto].
    + split; [rewrite takeChars_length; lia | tauto].
    + split; [lia | tauto].
Qed.

Lemma matches_atleast p n s :
  Matches (AtLeast n (Class p)) s <-> (n <= String.length s)%nat /\ every p s = true.
Proof.
  unfold AtLeast. rewrite matches_seq. split.
  - intros (s1 & s2 & -> & H1 & H2).
    apply matches_times in H1 as [Hl1 Hs1]. apply matches_star_class in H2.
    rewrite append_length, every_app, Hs1, H2. split; [lia | reflexivity].
  - intros [Hl Hs].
    exists (JsString.takeChars n s), (JsString.dropChars n s).
    pose proof (take_drop_chars n s) as Hsplit.
    assert (Hparts : every p (JsString.takeChars n s) = true /\
                     every p (JsString.dropChars n s) = true).
    { apply andb_true_iff. now rewrite <- every_app, Hsplit. }
    split; [now rewrite Hsplit|].
    split; [apply matches_times | apply matches_star_class; tauto].
    split; [rewrite takeChars_length; lia | tauto].
Qed.

Lemma matches_plus_class p s :
  Matches (Plus (Class p)) s <-> s <> "" /\ every p s = true.
Proof.
  unfold Plus. rewrite matches_seq. split.
  - intros (s1 & s2 & -> & H1 & H2).
    apply matches_class in H1 as (c & -> & Hc). apply matches_star_class in H2.
    string_simpl. rewrite Hc, H2. split; [discriminate | reflexivity].
  - intros [Hne Hs]. destruct s as [|c s]; [contradiction|].
    simpl in Hs. apply andb_true_iff in Hs as [Hc Hs].
    exists (String c ""), s. split; [reflexivity|].
    split; [apply matches_class; eauto | now apply matches_star_class].
Qed.

End RegexFacts.

(** X5. The email pattern accepts exactly the strings
    [local@domain.tld] whose three parts are non-empty and contain neither
    white space nor [@]; the domain and the last part may contain dots. *)
Theorem emailRegex_shape (s : string) :
  Regex.test Validator.emailRegex s = true <->
  exists local domain tld,
    s = local ++ "@" ++ domain ++ "." ++ tld /\
    local <> "" /\ domain <> "" /\ tld <> "" /\
    Language.every Validator.notSpaceOrAt local = true /\
    Language.every Validator.notSpaceOrAt domain = true /\
    Language.every Validator.notSpaceOrAt tld = true.
Proof.
  rewrite test_spec. unfold Validator.emailRegex. split.
  - intros Hm.
    apply matches_seq in Hm as (a & r1 & -> & Ha & Hm).
    apply matches_seq in Hm as (at_ & r2 & -> & Hat & Hm).
    apply matches_seq in Hm as (b & r3 & -> & Hb & Hm).
    apply matches_seq in Hm as (dot & c & -> & Hdot & Hc).
    apply matches_lit in Hat as ->. apply matches_lit in Hdot as ->.
    apply matches_plus_class in Ha as [? ?], Hb as [? ?], Hc as [? ?].
    exists a, b, c. repeat split; assumption.
  - intros (a & b & c & -> & Ha & Hb & Hc & Ea & Eb & Ec).
    apply matches_seq. exists a, ("@" ++ b ++ "." ++ c).
    split; [reflexivity|]. split; [now apply matches_plus_class|].
    apply matches_seq. exists "@", (b ++ "." ++ c).
    split; [reflexivity|]. split; [now apply matches_lit|].
    apply matches_seq. exists b, ("." ++ c).
    split; [reflexivity|]. split; [now apply matches_plus_class|].
    apply matches_seq. exists ".", c.
    split; [reflexivity|]. split; [now apply matches_lit | now apply matches_plus_class].
Qed.

(** X6. The phone pattern accepts exactly the strings of at least 7
    characters that are all digits, white space, [-], [+], [(] or [)]:
    it counts characters, not digits. *)
Theorem phoneRegex_shape (s : string) :
  Regex.test Validator.phoneRegex s = true <->
  (7 <= String.length s)%nat /\ Language.every Validator.phoneChar s = true.
Proof.
  rewrite test_spec. unfold Validator.phoneRegex. apply matches_atleast.
Qed.

Lemma numberPlate_matches (s : string) :
  Regex.test Validator.numberPlateRegex s = true <->
  exists year county seq,
    s = year ++ "-" ++ county ++ "-" ++ seq /\
    (2 <= String.length year <= 3)%nat /\
    Language.every JsString.isDigit year = true /\
    (1 <= String.length county <= 2)%nat /\
    Language.every JsString.isUpper county = true /\
    (1 <= String.length seq <= 6)%nat /\
    Language.every JsString.isDigit seq = true.
Proof.
  rewrite test_spec. unfold Validator.numberPlateRegex. split.
  - intros Hm.
    apply matches_seq in Hm as (y & r1 & -> & Hy & Hm).
    apply matches_seq in Hm as (d1 & r2 & -> & Hd1 & Hm).
    apply matches_seq in Hm as (c & r3 & -> & Hc & Hm).
    apply matches_seq in Hm as (d2 & q & -> & Hd2 & Hq).
    apply matches_lit in Hd1 as ->. apply matches_lit in Hd2 as ->.
    apply matches_between in Hy as [? ?]; [|lia].
    apply matches_between in Hc as [? ?]; [|lia].
    apply matches_between in Hq as [? ?]; [|lia].
    exists y, c, q. repeat split; try assumption; lia.
  - intros (y & c & q & -> & Ly & Ey & Lc & Ec & Lq & Eq).
    apply matches_seq. exists y, ("-" ++ c ++ "-" ++ q).
    split; [reflexivity|]. split; [apply matches_between; [lia | tauto]|].
    apply matches_seq. exists "-", (c ++ "-" ++ q).
    split; [reflexivity|]. split; [now apply matches_lit|].
    apply matches_seq. exists c, ("-" ++ q).
    split; [reflexivity|]. split; [apply matches_between; [lia | tauto]|].
    apply matches_seq. exists "-", q.
    split; [reflexivity|]. split; [now apply matches_lit|].
    apply matches_between; [lia | tauto].
Qed.

(** X7. The number-plate pattern accepts exactly [year-county-sequence]
    with 2 or 3 digits, 1 or 2 capital letters and 1 to 6 digits. *)
Theorem numberPlateRegex_shape (s : string) :
  Regex.test Validator.numberPlateRegex s = true <->
  exists year county seq,
    s = year ++ "-" ++ county ++ "-" ++ seq /\
    (2 <= String.length year <= 3)%nat /\
    Language.every JsString.isDigit year = true /\
    (1 <= String.length county <= 2)%nat /\
    Language.every JsString.isUpper county = true /\
    (1 <= String.length seq <= 6)%nat /\
    Language.every JsString.isDigit seq = true.
Proof. apply numberPlate_matches. Qed.

(** ** The validator over a whole step *)

Section StepFacts.
Context `{JsRuntime}.
Variable answers : gmap string JsValue.
Import Validator Reading.

Lemma forEachQuestion_cons q qs (e0 e : gmap string string) :
  forEachQuestion answers (q :: qs) e0 = Normal e ->
  forEachQuestion answers qs
    (if checked answers q
     then assignSome (reportedMessage answers q) (fieldKey q) e0 else e0) = Normal e.
Proof.
  simpl. rewrite validateQuestion_result.
  destruct (patternThrows answers q); [discriminate|].
  now destruct (checked answers q).
Qed.

Lemma forEachQuestion_other qs (e0 e : gmap string string) k :
  forEachQuestion answers qs e0 = Normal e ->
  k ∉ checkedKeys answers qs ->
  e !! k = e0 !! k.
Proof.
  revert e0. induction qs as [|q qs IH]; intros e0 Hrun Hk.
  - simpl in Hrun. now injection Hrun as <-.
  - apply forEachQuestion_cons in Hrun. unfold checkedKeys in *. simpl in Hk.
    destruct (checked answers q) eqn:Hq.
    + simpl in Hk. apply not_elem_of_cons in Hk as [Hne Hk].
      rewrite (IH _ Hrun Hk). unfold assignSome.
      destruct (reportedMessage answers q); [|reflexivity].
      now apply lookup_insert_ne.
    + now apply IH.
Qed.

Lemma forEachQuestion_reported qs (e0 e : gmap string string) q :
  forEachQuestion answers qs e0 = Normal e ->
  NoDup (checkedKeys answers qs) ->
  q ∈ qs ->
  checked answers q = true ->
  e !! fieldKey q =
    match reportedMessage answers q with
    | Some msg => Some msg
    | None => e0 !! fieldKey q
    end.
Proof.
  revert e0. induction qs as [|q0 qs IH]; intros e0 Hrun Hnodup Hin Hq.
  - inversion Hin.
  - apply forEachQuestion_cons in Hrun. unfold checkedKeys in *. simpl in Hnodup.
    destruct (checked answers q0) eqn:Hq0.
    + simpl in Hnodup. apply NoDup_cons in Hnodup as [Hfresh Hnodup].
      apply elem_of_cons in Hin as [->|Hin].
      * rewrite (forEachQuestion_other _ _ _ _ Hrun Hfresh). unfold assignSome.
        destruct (reportedMessage answers q0); [apply lookup_insert_eq | reflexivity].
      * rewrite (IH _ Hrun Hnodup Hin Hq).
        destruct (reportedMessage answers q); [reflexivity|].
        assert (Hne : fieldKey q0 <> fieldKey q).
        { intros Heq. apply Hfresh. rewrite Heq.
          apply list_elem_of_fmap. exists q. split; [reflexivity|].
          apply list_elem_of_In, filter_In. split; [now apply list_elem_of_In | exact Hq]. }
        unfold assignSome. destruct (reportedMessage answers q0); [|reflexivity].
        now apply lookup_insert_ne.
    + apply elem_of_cons in Hin as [->|Hin]; [congruence|].
      now apply IH.
Qed.

End StepFacts.

(** X8. When the questions that a step validates have distinct keys, the
    error map that [validateStep] returns holds, for each of them, exactly
    its reported message (the required message, or the last failing
    check), and nothing under any other key; so the step is valid exactly
    when no checked question reports a message.  Questions that are hidden
    by their display condition, and the types [hidden] and [helper_text],
    never contribute. *)
Theorem validateStep_reports `{JsRuntime}
    (answers : gmap string JsValue) (step : Step) (e : gmap string string) :
  NoDup (checkedKeys answers (questions step)) ->
  Validator.validateStep answers step = Normal e ->
  (forall q, q ∈ questions step -> Reading.checked answers q = true ->
             e !! Validator.fieldKey q = Reading.reportedMessage answers q) /\
  (forall k, k ∉ checkedKeys answers (questions step) -> e !! k = None) /\
  (Validator.isValid e = true <->
   forall q, q ∈ questions step -> Reading.checked answers q = true ->
             Reading.reportedMessage answers q = None).
Proof.
  intros Hnodup Hrun. unfold Validator.validateStep in Hrun.
  assert (Hrep : forall q, q ∈ questions step -> Reading.checked answers q = true ->
                   e !! Validator.fieldKey q = Reading.reportedMessage answers q).
  { intros q Hin Hq.
    rewrite (forEachQuestion_reported answers _ _ _ q Hrun Hnodup Hin Hq).
    destruct (Reading.reportedMessage answers q); [reflexivity | apply lookup_empty]. }
  assert (Hother : forall k, k ∉ checkedKeys answers (questions step) -> e !! k = None).
  { intros k Hk. rewrite (forEachQuestion_other answers _ _ _ k Hrun Hk).
    apply lookup_empty. }
  refine (conj Hrep (conj Hother _)).
  unfold Validator.isValid. rewrite Nat.eqb_eq, map_size_empty_iff. split.
  - intros -> q Hin Hq. rewrite <- (Hrep q Hin Hq). apply lookup_empty.
  - intros Hall. apply map_eq. intros k. rewrite lookup_empty.
    destruct (decide (k ∈ checkedKeys answers (questions step))) as [Hk|Hk];
      [|now apply Hother].
    apply list_elem_of_fmap in Hk as (q & -> & Hq).
    apply list_elem_of_In, filter_In in Hq as [Hin Hq].
    apply list_elem_of_In in Hin.
    rewrite (Hrep q Hin Hq). now apply Hall.
Qed.

Lemma validateStep_reports_witness :
  let step := Examples.plainStep "A"
                [ValidatorExample.longEmail; ContinueExample.nameQuestion] in
  NoDup (checkedKeys ValidatorExample.mailAnswer (questions step)) /\
  Validator.validateStep ValidatorExample.mailAnswer step =
    Normal {[ "mail" := "Minimum 5 characters required";
              "name" := Validator.msgRequired ]} /\
  ({[ "mail" := "Minimum 5 characters required";
      "name" := Validator.msgRequired ]} : gmap string string) !! "zip" = None.
Proof.
  intros step.
  assert (Hnodup : NoDup (checkedKeys ValidatorExample.mailAnswer (questions step))).
  { apply NoDup_ListNoDup. vm_compute.
    repeat constructor; simpl; intuition discriminate. }
  assert (Hrun : Validator.validateStep ValidatorExample.mailAnswer step =
            Normal {[ "mail" := "Minimum 5 characters required";
                      "name" := Validator.msgRequired ]}) by reflexivity.
  split; [exact Hnodup|]. split; [exact Hrun|].
  destruct (validateStep_reports ValidatorExample.mailAnswer step _ Hnodup Hrun)
    as (_ & Hother & _).
  apply Hother. rewrite list_elem_of_In. vm_compute. intuition discriminate.
Defined.

(** ** The date masks *)

Ltac div_lia := Z.div_mod_to_equations; lia.

Section DateFacts.
Import Numerals Language.

Lemma split_plain sep a :
  every (notChar sep) a = true -> JsString.split sep a = [a].
Proof.
  induction a as [|c a IH]; simpl; [reflexivity|].
  intros Ha. apply andb_true_iff in Ha as [Hc Ha].
  unfold notChar in Hc. apply negb_true_iff in Hc. rewrite Hc, (IH Ha). reflexivity.
Qed.

Lemma split_at sep a b :
  every (notChar sep) a = true ->
  JsString.split sep (a ++ String sep b) = a :: JsString.split sep b.
Proof.
  induction a as [|c a IH]; intros Ha; string_simpl.
  - now rewrite Ascii.eqb_refl.
  - simpl in Ha. apply andb_true_iff in Ha as [Hc Ha].
    unfold notChar in Hc. apply negb_true_iff in Hc. rewrite Hc, (IH Ha). reflexivity.
Qed.

Lemma digitChar_spec k :
  0 <= k < 10 ->
  JsString.isDigit (digitChar k) = true /\
  JsString.isWhiteSpace (digitChar k) = false /\
  Z.of_nat (nat_of_ascii (digitChar k) - 48) = k /\
  notChar "/" (digitChar k) = true /\ notChar ":" (digitChar k) = true /\
  Ascii.eqb (digitChar k) "-" = false /\ Ascii.eqb (digitChar k) "+" = false.
Proof.
  intros Hk.
  assert (Hall : forallb digitOk [0; 1; 2; 3; 4; 5; 6; 7; 8; 9] = true) by reflexivity.
  rewrite forallb_forall in Hall.
  assert (Hin : In k [0; 1; 2; 3; 4; 5; 6; 7; 8; 9]) by (simpl; lia).
  specialize (Hall k Hin). unfold digitOk in Hall.
  apply andb_true_iff in Hall as [Hall Hplus].
  apply andb_true_iff in Hall as [Hall Hminus].
  apply andb_true_iff in Hall as [Hall Hcolon].
  apply andb_true_iff in Hall as [Hall Hslash].
  apply andb_true_iff in Hall as [Hall Hvalue].
  apply andb_true_iff in Hall as [Hdigit Hspace].
  apply negb_true_iff in Hspace. apply Z.eqb_eq in Hvalue.
  unfold notChar in Hminus, Hplus.
  apply negb_true_iff in Hminus. apply negb_true_iff in Hplus.
  repeat split; assumption.
Qed.

Lemma digitsValue_cons acc c s :
  JsString.digitsValue acc (String c s) =
  if JsString.isDigit c
  then JsString.digitsValue
         (Some (10 * default 0 acc + Z.of_nat (nat_of_ascii c - 48))) s
  else acc.
Proof. reflexivity. Qed.

Lemma every_cons p c s : Language.every p (String c s) = p c && Language.every p s.
Proof. reflexivity. Qed.

Lemma parseInt_unsigned c s :
  JsString.isWhiteSpace c = false ->
  Ascii.eqb c "-" = false -> Ascii.eqb c "+" = false ->
  JsString.parseInt (String c s) = JsString.digitsValue None (String c s).
Proof.
  intros Hw Hm Hp. unfold JsString.parseInt.
  change (JsString.skipWhiteSpace (String c s))
    with (if JsString.isWhiteSpace c then JsString.skipWhiteSpace s else String c s).
  rewrite Hw.
  destruct c as [b0 b1 b2 b3 b4 b5 b6 b7].
  destruct b0, b1, b2, b3, b4, b5, b6, b7; try reflexivity;
    vm_compute in Hm, Hp; discriminate.
Qed.

(** [parseInt] on a string that starts with a digit reads the digits. *)
Lemma parseInt_digit k s :
  0 <= k < 10 ->
  JsString.parseInt (String (digitChar k) s) =
  JsString.digitsValue (Some k) s.
Proof.
  intros Hk. destruct (digitChar_spec k Hk) as (Hd & Hw & Hv & _ & _ & Hm & Hp).
  rewrite (parseInt_unsigned _ _ Hw Hm Hp), digitsValue_cons, Hd, Hv.
  reflexivity.
Qed.

Lemma digitsValue_digit acc k s :
  0 <= k < 10 ->
  JsString.digitsValue (Some acc) (String (digitChar k) s) =
  JsString.digitsValue (Some (10 * acc + k)) s.
Proof.
  intros Hk. destruct (digitChar_spec k Hk) as (Hd & _ & Hv & _).
  rewrite digitsValue_cons, Hd, Hv. reflexivity.
Qed.

Lemma twoDigits_spec n :
  0 <= n < 100 ->
  JsString.parseInt (twoDigits n) = Some n /\
  every (notChar "/") (twoDigits n) = true /\
  every (notChar ":") (twoDigits n) = true.
Proof.
  intros Hn. unfold twoDigits.
  assert (H1 : 0 <= n / 10 < 10) by div_lia.
  assert (H2 : 0 <= n mod 10 < 10) by div_lia.
  destruct (digitChar_spec _ H1) as (_ & _ & _ & S1 & C1 & _).
  destruct (digitChar_spec _ H2) as (_ & _ & _ & S2 & C2 & _).
  rewrite parseInt_digit, digitsValue_digit by assumption.
  rewrite !every_cons, S1, S2, C1, C2.
  split; [|split; reflexivity].
  change (JsString.digitsValue (Some (10 * (n / 10) + n mod 10)) "")
    with (Some (10 * (n / 10) + n mod 10)).
  f_equal. div_lia.
Qed.

Lemma fourDigits_spec n :
  0 <= n < 10000 ->
  JsString.parseInt (fourDigits n) = Some n /\
  every (notChar "/") (fourDigits n) = true.
Proof.
  intros Hn. unfold fourDigits, twoDigits.
  assert (H1 : 0 <= n / 1000 < 10) by div_lia.
  assert (H2 : 0 <= n / 100 mod 10 < 10) by div_lia.
  assert (H3 : 0 <= n mod 100 / 10 < 10) by div_lia.
  assert (H4 : 0 <= n mod 100 mod 10 < 10) by div_lia.
  destruct (digitChar_spec _ H1) as (_ & _ & _ & S1 & _).
  destruct (digitChar_spec _ H2) as (_ & _ & _ & S2 & _).
  destruct (digitChar_spec _ H3) as (_ & _ & _ & S3 & _).
  destruct (digitChar_spec _ H4) as (_ & _ & _ & S4 & _).
  rewrite parseInt_digit, !digitsValue_digit by assumption.
  rewrite !every_cons, S1, S2, S3, S4.
  split; [|reflexivity].
  match goal with
  | |- JsString.digitsValue (Some ?v) "" = _ =>
      change (JsString.digitsValue (Some v) "") with (Some v)
  end.
  f_equal. div_lia.
Qed.

Lemma dateText_split d m y :
  0 <= d < 100 -> 0 <= m < 100 -> 0 <= y < 10000 ->
  JsString.split "/" (dateText d m y) = [twoDigits d; twoDigits m; fourDigits y].
Proof.
  intros Hd Hm Hy. unfold dateText.
  destruct (twoDigits_spec d Hd) as (_ & Sd & _).
  destruct (twoDigits_spec m Hm) as (_ & Sm & _).
  destruct (fourDigits_spec y Hy) as (_ & Sy).
  change (twoDigits d ++ "/" ++ twoDigits m ++ "/" ++ fourDigits y)
    with (twoDigits d ++ String "/" (twoDigits m ++ String "/" (fourDigits y))).
  now rewrite (split_at _ _ _ Sd), (split_at _ _ _ Sm), (split_plain _ _ Sy).
Qed.

Lemma isLeapYear_range y :
  1900 <= y <= 2100 ->
  (Validator.isLeapYear y = true <-> y mod 4 = 0 /\ y <> 1900 /\ y <> 2100).
Proof.
  intros Hy. unfold Validator.isLeapYear.
  rewrite orb_true_iff, andb_true_iff, negb_true_iff, !Z.eqb_eq, Z.eqb_neq.
  split.
  - intros [[H4 H100]|H400]; div_lia.
  - intros (H4 & H19 & H21).
    destruct (Z.eq_dec (y mod 100) 0) as [H100|H100]; [right | left; tauto].
    div_lia.
Qed.

Lemma daysInMonth_cases y m :
  (m = 2 /\ Validator.isLeapYear y = true /\ Validator.daysInMonth y m = 29) \/
  (m = 2 /\ Validator.isLeapYear y = false /\ Validator.daysInMonth y m = 28) \/
  ((m = 4 \/ m = 6 \/ m = 9 \/ m = 11) /\ Validator.daysInMonth y m = 30) \/
  (m <> 2 /\ m <> 4 /\ m <> 6 /\ m <> 9 /\ m <> 11 /\ Validator.daysInMonth y m = 31).
Proof.
  unfold Validator.daysInMonth.
  destruct (Z.eqb_spec m 2) as [->|H2].
  - destruct (Validator.isLeapYear y); tauto.
  - destruct (Z.eqb_spec m 4), (Z.eqb_spec m 6), (Z.eqb_spec m 9), (Z.eqb_spec m 11);
      simpl; tauto.
Qed.

Lemma badDate_false d m y :
  Validator.badDate (Some d) (Some m) (Some y) = false <->
  1 <= d <= 31 /\ 1 <= m <= 12 /\ 1900 <= y <= 2100.
Proof.
  unfold Validator.badDate. rewrite !orb_false_iff, !Z.ltb_ge. lia.
Qed.

Lemma dayCheck_none d m y :
  Validator.dayCheck (Some d) (Some m) (Some y) = None <->
  d <= Validator.daysInMonth y m.
Proof.
  unfold Validator.dayCheck. simpl.
  destruct (Z.ltb_spec (Validator.daysInMonth y m) d); split; try discriminate;
    try reflexivity; lia.
Qed.

Lemma calendarDay_check d m y :
  calendarDay d m y <->
  Validator.badDate (Some d) (Some m) (Some y) = false /\
  Validator.dayCheck (Some d) (Some m) (Some y) = None.
Proof.
  rewrite badDate_false, dayCheck_none. unfold calendarDay.
  split.
  - intros (Hm & Hy & Hd & H30 & Hfeb). split; [lia|].
    destruct (daysInMonth_cases y m)
      as [(-> & Hl & ->)|[(-> & Hl & ->)|[(H & ->)|(? & ? & ? & ? & ? & ->)]]].
    + lia.
    + destruct (Hfeb eq_refl) as [?|(-> & H4 & H19 & H21)]; [lia|].
      assert (Validator.isLeapYear y = true) by (apply isLeapYear_range; tauto).
      congruence.
    + now apply H30.
    + lia.
  - intros [(Hd & Hm & Hy) Hday].
    split; [exact Hm|]. split; [exact Hy|]. split; [exact Hd|].
    destruct (daysInMonth_cases y m)
      as [(-> & Hl & Hv)|[(-> & Hl & Hv)|[(H & Hv)|(? & ? & ? & ? & ? & Hv)]]];
      rewrite Hv in Hday.
    + apply isLeapYear_range in Hl as (H4 & H19 & H21); [|exact Hy].
      split; [lia|]. intros _.
      destruct (Z.eq_dec d 29) as [->|]; [right; tauto | left; lia].
    + split; [lia|]. intros _. left. lia.
    + split; [intros _; lia | lia].
    + split; [lia | intros ->; contradiction].
Qed.

Lemma dateMaskError_text d m y :
  0 <= d < 100 -> 0 <= m < 100 -> 0 <= y < 10000 ->
  Validator.dateMaskError (dateText d m y) =
  if Validator.badDate (Some d) (Some m) (Some y) then Some Validator.msgDateInvalid
  else Validator.dayCheck (Some d) (Some m) (Some y).
Proof.
  intros Hd Hm Hy. unfold Validator.dateMaskError.
  assert (Hlen : String.length (dateText d m y) = 10%nat) by reflexivity.
  cbv zeta. rewrite Hlen, (dateText_split d m y Hd Hm Hy).
  destruct (twoDigits_spec d Hd) as (Pd & _).
  destruct (twoDigits_spec m Hm) as (Pm & _).
  destruct (fourDigits_spec y Hy) as (Py & _).
  change (Validator.badParts [twoDigits d; twoDigits m; fourDigits y]) with false.
  change ([twoDigits d; twoDigits m; fourDigits y] !! 0%nat) with (Some (twoDigits d)).
  change ([twoDigits d; twoDigits m; fourDigits y] !! 1%nat) with (Some (twoDigits m)).
  change ([twoDigits d; twoDigits m; fourDigits y] !! 2%nat) with (Some (fourDigits y)).
  unfold default, id. rewrite Pd, Pm, Py. reflexivity.
Qed.

Lemma dateTimeMaskError_text d m y h mi :
  0 <= d < 100 -> 0 <= m < 100 -> 0 <= y < 10000 ->
  0 <= h < 100 -> 0 <= mi < 100 ->
  Validator.dateTimeMaskError (dateTimeText d m y h mi) =
  if Validator.badDate (Some d) (Some m) (Some y) then Some Validator.msgDateInvalid
  else if Validator.badTime (Some h) (Some mi) then Some Validator.msgTimeInvalid
  else Validator.dayCheck (Some d) (Some m) (Some y).
Proof.
  intros Hd Hm Hy Hh Hmi. unfold Validator.dateTimeMaskError.
  assert (Hlen : String.length (dateTimeText d m y h mi) = 16%nat) by reflexivity.
  assert (Hdate : JsString.takeChars 10 (dateTimeText d m y h mi) = dateText d m y)
    by reflexivity.
  assert (Htime : JsString.dropChars 11 (dateTimeText d m y h mi) =
                  twoDigits h ++ String ":" (twoDigits mi)) by reflexivity.
  cbv zeta. rewrite Hlen, Hdate, Htime, (dateText_split d m y Hd Hm Hy).
  destruct (twoDigits_spec d Hd) as (Pd & _).
  destruct (twoDigits_spec m Hm) as (Pm & _).
  destruct (fourDigits_spec y Hy) as (Py & _).
  destruct (twoDigits_spec h Hh) as (Ph & _ & Ch).
  destruct (twoDigits_spec mi Hmi) as (Pmi & _ & Cmi).
  rewrite (split_at _ _ _ Ch), (split_plain _ _ Cmi).
  change (Validator.badParts [twoDigits d; twoDigits m; fourDigits y]) with false.
  change ([twoDigits d; twoDigits m; fourDigits y] !! 0%nat) with (Some (twoDigits d)).
  change ([twoDigits d; twoDigits m; fourDigits y] !! 1%nat) with (Some (twoDigits m)).
  change ([twoDigits d; twoDigits m; fourDigits y] !! 2%nat) with (Some (fourDigits y)).
  change ([twoDigits h; twoDigits mi] !! 0%nat) with (Some (twoDigits h)).
  change ([twoDigits h; twoDigits mi] !! 1%nat) with (Some (twoDigits mi)).
  unfold default, id. rewrite Pd, Pm, Py, Ph, Pmi. reflexivity.
Qed.

End DateFacts.

(** X9. On a text [DD/MM/YYYY] written with digits, the date mask check
    reports nothing exactly for the days of the calendar from 1900 to
    2100: month 1 to 12, at most 30 days in April, June, September and
    November, 28 in February and 29 in a leap year (1900 and 2100 are
    none).  A day beyond the end of an otherwise valid month is reported
    with the length of that month. *)
Theorem dateMaskError_calendar (d m y : Z) :
  0 <= d < 100 -> 0 <= m < 100 -> 0 <= y < 10000 ->
  (Validator.dateMaskError (Numerals.dateText d m y) = None <->
   Numerals.calendarDay d m y) /\
  (1 <= d <= 31 -> 1 <= m <= 12 -> 1900 <= y <= 2100 ->
   Validator.daysInMonth y m < d ->
   Validator.dateMaskError (Numerals.dateText d m y) =
     Some (Validator.msgInvalidDay (Validator.daysInMonth y m))) /\
  28 <= Validator.daysInMonth y m <= 31.
Proof.
  intros Hd Hm Hy. rewrite (dateMaskError_text d m y Hd Hm Hy), calendarDay_check.
  refine (conj _ (conj _ _)).
  - destruct (Validator.badDate (Some d) (Some m) (Some y)); split; try tauto.
    + discriminate.
    + intros [Hbad _]. discriminate Hbad.
  - intros Rd Rm Ry Hlate.
    assert (Hok : Validator.badDate (Some d) (Some m) (Some y) = false)
      by (apply badDate_false; lia).
    rewrite Hok. unfold Validator.dayCheck. simpl.
    destruct (Z.ltb_spec (Validator.daysInMonth y m) d); [reflexivity | lia].
  - destruct (daysInMonth_cases y m)
      as [(_ & _ & ->)|[(_ & _ & ->)|[(_ & ->)|(_ & _ & _ & _ & _ & ->)]]]; lia.
Qed.

Lemma dateMaskError_calendar_witness :
  (0 <= 29 < 100 /\ 0 <= 2 < 100 /\ 0 <= 2024 < 10000) /\
  Numerals.dateText 29 2 2024 = "29/02/2024" /\
  Validator.dateMaskError (Numerals.dateText 29 2 2024) = None /\
  Validator.dateMaskError (Numerals.dateText 29 2 1900) =
    Some "Invalid day for this month (max 28)".
Proof.
  split; [lia|]. split; [reflexivity|].
  destruct (dateMaskError_calendar 29 2 2024 ltac:(lia) ltac:(lia) ltac:(lia))
    as (Hvalid & _).
  destruct (dateMaskError_calendar 29 2 1900 ltac:(lia) ltac:(lia) ltac:(lia))
    as (_ & Hlate & _).
  split.
  - apply Hvalid. unfold Numerals.calendarDay.
    split; [lia|]. split; [lia|]. split; [lia|]. split; [lia|].
    intros _. right. split; [reflexivity|]. split; [reflexivity | lia].
  - apply Hlate; try lia. reflexivity.
Defined.

(** X10. On a text [DD/MM/YYYY HH:MM] written with digits, the datetime
    mask check reports nothing exactly when the date is a day of the
    calendar from 1900 to 2100, the hour is at most 23 and the minute at
    most 59.  The checks run in this order: a day outside 1 to 31, a
    month outside 1 to 12 or a year outside 1900 to 2100 is reported as
    an invalid date, whatever the time; otherwise an hour above 23 or a
    minute above 59 is reported as an invalid time, also when the day is
    past the end of its month; a day past the end of its month is
    reported, with the length of the month, only when the time is
    valid. *)
Theorem dateTimeMaskError_calendar (d m y h mi : Z) :
  0 <= d < 100 -> 0 <= m < 100 -> 0 <= y < 10000 ->
  0 <= h < 100 -> 0 <= mi < 100 ->
  let reported :=
    Validator.dateTimeMaskError (Numerals.dateTimeText d m y h mi) in
  let inRange := 1 <= d <= 31 /\ 1 <= m <= 12 /\ 1900 <= y <= 2100 in
  (reported = None <-> Numerals.calendarDay d m y /\ h <= 23 /\ mi <= 59) /\
  (Validator.badDate (Some d) (Some m) (Some y) = true ->
   reported = Some Validator.msgDateInvalid) /\
  (~ inRange -> reported = Some Validator.msgDateInvalid) /\
  (inRange -> 23 < h \/ 59 < mi -> reported = Some Validator.msgTimeInvalid) /\
  (inRange -> h <= 23 -> mi <= 59 -> Validator.daysInMonth y m < d ->
   reported = Some (Validator.msgInvalidDay (Validator.daysInMonth y m))).
Proof.
  intros Hd Hm Hy Hh Hmi reported inRange. subst reported inRange.
  rewrite (dateTimeMaskError_text d m y h mi Hd Hm Hy Hh Hmi), calendarDay_check.
  assert (Htime : Validator.badTime (Some h) (Some mi) = false <-> h <= 23 /\ mi <= 59).
  { unfold Validator.badTime. rewrite !orb_false_iff, !Z.ltb_ge. lia. }
  pose proof (badDate_false d m y) as Hdate.
  refine (conj _ (conj _ (conj _ (conj _ _)))).
  - destruct (Validator.badDate (Some d) (Some m) (Some y)).
    + split; [discriminate | intros [[Hbad _] _]; discriminate Hbad].
    + destruct (Validator.badTime (Some h) (Some mi)).
      * split; [discriminate|]. intros [_ Ht]. apply Htime in Ht. discriminate Ht.
      * split; [intros Hday | tauto].
        split; [now split | now apply Htime].
  - now intros ->.
  - intros Hout.
    destruct (Validator.badDate (Some d) (Some m) (Some y)); [reflexivity|].
    exfalso. apply Hout. now apply Hdate.
  - intros Hin Hlate. apply Hdate in Hin. rewrite Hin.
    destruct (Validator.badTime (Some h) (Some mi)); [reflexivity|].
    exfalso. destruct Htime as [Hok _]. specialize (Hok eq_refl). lia.
  - intros Hin Hh' Hmi' Hpast. apply Hdate in Hin. rewrite Hin.
    destruct Htime as [_ Hok]. rewrite (Hok (conj Hh' Hmi')).
    unfold Validator.dayCheck. simpl.
    destruct (Z.ltb_spec (Validator.daysInMonth y m) d); [reflexivity | lia].
Qed.

Lemma dateTimeMaskError_calendar_witness :
  (0 <= 31 < 100 /\ 0 <= 12 < 100 /\ 0 <= 2024 < 10000 /\
   0 <= 23 < 100 /\ 0 <= 59 < 100) /\
  Numerals.dateTimeText 31 12 2024 23 59 = "31/12/2024 23:59" /\
  Validator.dateTimeMaskError (Numerals.dateTimeText 31 12 2024 23 59) = None /\
  Numerals.dateTimeText 31 2 2024 25 0 = "31/02/2024 25:00" /\
  Validator.dateTimeMaskError (Numerals.dateTimeText 31 2 2024 25 0) =
    Some Validator.msgTimeInvalid /\
  Validator.dateTimeMaskError (Numerals.dateTimeText 31 2 2024 23 0) =
    Some "Invalid day for this month (max 29)".
Proof.
  split; [lia|]. split; [reflexivity|].
  destruct (dateTimeMaskError_calendar 31 12 2024 23 59
              ltac:(lia) ltac:(lia) ltac:(lia) ltac:(lia) ltac:(lia)) as (Hvalid & _).
  destruct (dateTimeMaskError_calendar 31 2 2024 25 0
              ltac:(lia) ltac:(lia) ltac:(lia) ltac:(lia) ltac:(lia))
    as (_ & _ & _ & Htime & _).
  destruct (dateTimeMaskError_calendar 31 2 2024 23 0
              ltac:(lia) ltac:(lia) ltac:(lia) ltac:(lia) ltac:(lia))
    as (_ & _ & _ & _ & Hday).
  split; [|split; [reflexivity|split]].
  - apply Hvalid. unfold Numerals.calendarDay. repeat split; lia.
  - apply Htime; lia.
  - apply Hday; try lia. vm_compute. reflexivity.
Defined.

Example fields_examples :
  Fields.eircodeChange "d02x285" = "D02 X285" /\
  Fields.eircodeChange "d02 x2859999" = "D02 X285" /\
  Fields.eircodeChange "d0" = "D0" /\
  Fields.numberPlateChange "191d12345" = "191-D-12345" /\
  Fields.numberPlateChange "1912345" = "191-2345" /\
  Fields.numberPlateChange "12-kk-1" = "12-KK-1" /\
  Fields.formatDate "29022024" = "29/02/2024" /\
  Fields.formatDate "12" = "12/" /\
  Fields.formatDate "2902202499" = "29/02/2024" /\
  Fields.dateChange "12/" "12" 2 = "1" /\
  Fields.dateChange "12/3" "123" 2 = "13" /\
  Fields.formatDateTime "310120241530" = "31/01/2024 15:30" /\
  Fields.formatDateTime "3101202415309" = "31/01/2024 15:30" /\
  Fields.trim "  a b " = "a b" /\
  Fields.checkboxChange (VString "") "x" true = VArray ["x"].
Proof. repeat split; vm_compute; reflexivity. Qed.

(** ** The input handlers of the fields *)

(** X11. In a checkbox group, ticking an option makes it checked and
    clearing it makes it unchecked, whatever the answer was before (an
    answer that is not an array counts as no selection); the other
    options keep their state, and clearing removes every copy of the
    value. *)
Theorem checkboxChange_isChecked (value_ : JsValue) (optionValue other : string) :
  Fields.isChecked (Fields.checkboxChange value_ optionValue true) optionValue = true /\
  Fields.isChecked (Fields.checkboxChange value_ optionValue false) optionValue = false /\
  (other <> optionValue ->
   forall checked,
     Fields.isChecked (Fields.checkboxChange value_ optionValue checked) other =
     Fields.isChecked value_ other) /\
  (Fields.isChecked value_ optionValue = false ->
   Fields.checkboxChange (Fields.checkboxChange value_ optionValue true)
     optionValue false =
   VArray (match value_ with VArray l => l | _ => [] end)).
Proof.
  unfold Fields.checkboxChange, Fields.isChecked.
  set (current := match value_ with VArray l => l | _ => [] end).
  assert (Hcur : forall o, match value_ with
                           | VArray l => existsb (String.eqb o) l
                           | _ => false
                           end = existsb (String.eqb o) current).
  { intros o. unfold current. now destruct value_. }
  rewrite !Hcur. clear Hcur. clearbody current.
  refine (conj _ (conj _ (conj _ _))).
  - rewrite existsb_app. simpl. rewrite String.eqb_refl. apply orb_true_r.
  - apply not_true_iff_false. rewrite existsb_exists.
    intros (v & Hin & Hv). apply filter_In in Hin as [_ Hne].
    apply String.eqb_eq in Hv. subst v. now rewrite String.eqb_refl in Hne.
  - intros Hne [|].
    + rewrite existsb_app. simpl.
      destruct (String.eqb_spec other optionValue); [contradiction|].
      now rewrite !orb_false_r.
    + induction current as [|v l IH]; simpl; [reflexivity|].
      destruct (String.eqb_spec v optionValue) as [->|Hv]; simpl.
      * destruct (String.eqb_spec other optionValue); [contradiction | exact IH].
      * now rewrite IH.
  - intros Hnot. f_equal.
    rewrite List.filter_app. simpl. rewrite String.eqb_refl. simpl.
    rewrite app_nil_r.
    induction current as [|v l IH]; simpl; [reflexivity|].
    simpl in Hnot. apply orb_false_iff in Hnot as [Hv Hl].
    rewrite String.eqb_sym, Hv. simpl. now rewrite IH.
Qed.

Lemma checkboxChange_isChecked_witness :
  "b" <> "a" /\
  Fields.isChecked (VArray ["a"]) "a" = true /\
  Fields.isChecked (Fields.checkboxChange (VArray ["a"]) "a" false) "a" = false /\
  Fields.isChecked (Fields.checkboxChange (VArray ["a"; "b"]) "a" false) "b" = true.
Proof.
  split; [discriminate|].
  split; [reflexivity|].
  destruct (checkboxChange_isChecked (VArray ["a"]) "a" "b") as (_ & Hoff & _).
  split; [exact Hoff|].
  destruct (checkboxChange_isChecked (VArray ["a"; "b"]) "a" "b") as (_ & _ & Hkeep & _).
  rewrite (Hkeep ltac:(discriminate) false). reflexivity.
Defined.

Section TextFacts.
Import Language Fields.

Lemma every_keepChars p s : every p (keepChars p s) = true.
Proof.
  induction s as [|c s IH]; simpl; [reflexivity|].
  destruct (p c) eqn:Hc; simpl; [now rewrite Hc | exact IH].
Qed.

Lemma keepChars_id p s : every p s = true -> keepChars p s = s.
Proof.
  induction s as [|c s IH]; simpl; [reflexivity|].
  intros Hs. apply andb_true_iff in Hs as [Hc Hs]. now rewrite Hc, IH.
Qed.

Lemma keepChars_app p a b : keepChars p (a ++ b) = keepChars p a ++ keepChars p b.
Proof.
  induction a as [|c a IH]; string_simpl; [reflexivity|].
  destruct (p c); string_simpl; now rewrite IH.
Qed.

Lemma keepChars_none p s :
  every (fun c => negb (p c)) s = true -> keepChars p s = "".
Proof.
  induction s as [|c s IH]; simpl; [reflexivity|].
  intros Hs. apply andb_true_iff in Hs as [Hc Hs].
  apply negb_true_iff in Hc. now rewrite Hc, IH.
Qed.

Lemma every_weaken (p q : ascii -> bool) s :
  (forall c, p c = true -> q c = true) -> every p s = true -> every q s = true.
Proof.
  intros Hpq. induction s as [|c s IH]; simpl; [reflexivity|].
  intros Hs. apply andb_true_iff in Hs as [Hc Hs]. now rewrite (Hpq c Hc), IH.
Qed.

Lemma every_takeChars p n s : every p s = true -> every p (JsString.takeChars n s) = true.
Proof.
  revert s. induction n as [|n IH]; intros [|c s]; simpl; try reflexivity.
  intros Hs. apply andb_true_iff in Hs as [Hc Hs]. now rewrite Hc, IH.
Qed.

Lemma every_dropChars p n s : every p s = true -> every p (JsString.dropChars n s) = true.
Proof.
  revert s. induction n as [|n IH]; intros [|c s]; simpl; try tauto.
  intros Hs. apply andb_true_iff in Hs as [Hc Hs]. now apply IH.
Qed.

Lemma dropChars_length n s :
  String.length (JsString.dropChars n s) = (String.length s - n)%nat.
Proof.
  revert s. induction n as [|n IH]; intros [|c s]; simpl; try reflexivity; try lia.
  apply IH.
Qed.

Lemma toUpperCase_app a b :
  JsString.toUpperCase (a ++ b) = JsString.toUpperCase a ++ JsString.toUpperCase b.
Proof. induction a as [|c a IH]; string_simpl; [reflexivity | now rewrite IH]. Qed.

Lemma toUpperCase_id s :
  every (fun c => negb (JsString.isLower c)) s = true -> JsString.toUpperCase s = s.
Proof.
  induction s as [|c s IH]; simpl; [reflexivity|].
  intros Hs. apply andb_true_iff in Hs as [Hc Hs]. apply negb_true_iff in Hc.
  unfold JsString.upperChar. now rewrite Hc, IH.
Qed.

Lemma toUpperCase_length s : String.length (JsString.toUpperCase s) = String.length s.
Proof. induction s; simpl; congruence. Qed.

Lemma stripWhiteSpace_app a b :
  JsString.stripWhiteSpace (a ++ b) =
  JsString.stripWhiteSpace a ++ JsString.stripWhiteSpace b.
Proof.
  induction a as [|c a IH]; string_simpl; [reflexivity|].
  destruct (JsString.isWhiteSpace c); string_simpl; now rewrite IH.
Qed.

Lemma stripWhiteSpace_id s :
  every (fun c => negb (JsString.isWhiteSpace c)) s = true ->
  JsString.stripWhiteSpace s = s.
Proof.
  induction s as [|c s IH]; simpl; [reflexivity|].
  intros Hs. apply andb_true_iff in Hs as [Hc Hs]. apply negb_true_iff in Hc.
  now rewrite Hc, IH.
Qed.

(** The classes of characters do not overlap. *)
Lemma isAlnum_char c :
  isAlnum c = true ->
  JsString.isLower c = false /\ JsString.isWhiteSpace c = false /\
  Ascii.eqb c "-" = false /\ Ascii.eqb c "/" = false /\ Ascii.eqb c ":" = false.
Proof.
  destruct c as [[] [] [] [] [] [] [] []]; vm_compute; intros Hc;
    try discriminate Hc; repeat split.
Qed.

Lemma isDigit_char c :
  JsString.isDigit c = true -> isAlnum c = true /\ JsString.isUpper c = false.
Proof.
  destruct c as [[] [] [] [] [] [] [] []]; vm_compute; intros Hc;
    try discriminate Hc; repeat split.
Qed.

Lemma isUpper_char c :
  JsString.isUpper c = true -> isAlnum c = true /\ JsString.isDigit c = false.
Proof.
  destruct c as [[] [] [] [] [] [] [] []]; vm_compute; intros Hc;
    try discriminate Hc; repeat split.
Qed.

Lemma alnum_upper s : every isAlnum s = true -> JsString.toUpperCase s = s.
Proof.
  intros Hs. apply toUpperCase_id. revert Hs. apply every_weaken.
  intros c Hc. apply isAlnum_char in Hc as (-> & _). reflexivity.
Qed.

Lemma alnum_strip s : every isAlnum s = true -> JsString.stripWhiteSpace s = s.
Proof.
  intros Hs. apply stripWhiteSpace_id. revert Hs. apply every_weaken.
  intros c Hc. apply isAlnum_char in Hc as (_ & -> & _). reflexivity.
Qed.

Lemma trimEnd_alnum s : every isAlnum s = true -> trimEnd s = s.
Proof.
  induction s as [|c s IH]; simpl; [reflexivity|].
  intros Hs. apply andb_true_iff in Hs as [Hc Hs]. rewrite (IH Hs).
  apply isAlnum_char in Hc as (_ & -> & _). now destruct s.
Qed.

Lemma trimEnd_app a b :
  b <> "" -> trimEnd b = b -> trimEnd (a ++ b) = a ++ b.
Proof.
  intros Hne Hb. induction a as [|c a IH]; string_simpl; [exact Hb|].
  rewrite IH. destruct (a ++ b) eqn:Hab; [|reflexivity].
  apply append_eq_nil in Hab as [_ ->]. contradiction.
Qed.

End TextFacts.

Section EircodeFacts.
Import Language Fields.

Lemma take3_take7 s : JsString.takeChars 3 (JsString.takeChars 7 s) = JsString.takeChars 3 s.
Proof. destruct s as [|? [|? [|? s]]]; reflexivity. Qed.

Lemma take4_drop3_take7 s :
  JsString.takeChars 4 (JsString.dropChars 3 (JsString.takeChars 7 s)) =
  JsString.takeChars 4 (JsString.dropChars 3 s).
Proof. destruct s as [|? [|? [|? [|? [|? [|? [|? s]]]]]]]; reflexivity. Qed.

Lemma take3_take4 s :
  JsString.takeChars 3 s ++ JsString.takeChars 4 (JsString.dropChars 3 s) =
  JsString.takeChars 7 s.
Proof. destruct s as [|? [|? [|? [|? [|? [|? [|? s]]]]]]]; reflexivity. Qed.

Lemma skipWhiteSpace_alnum s :
  every isAlnum s = true -> forall t, JsString.skipWhiteSpace (s ++ t) = s ++ t \/ s = "".
Proof.
  destruct s as [|c s]; [now right|]. simpl. intros Hs t. left.
  apply andb_true_iff in Hs as [Hc _].
  apply isAlnum_char in Hc as (_ & Hw & _). string_simpl. now rewrite Hw.
Qed.

Lemma eircodeShape_trim val :
  every isAlnum val = true -> trim (eircodeShape val) = eircodeShape val.
Proof.
  intros Hval. unfold eircodeShape, trim.
  destruct (Nat.ltb_spec 3 (String.length val)) as [Hlong|Hshort].
  - set (t3 := JsString.takeChars 3 val).
    set (t4 := JsString.takeChars 4 (JsString.dropChars 3 val)).
    assert (H3 : every isAlnum t3 = true) by now apply every_takeChars.
    assert (H4 : every isAlnum t4 = true)
      by now apply every_takeChars, every_dropChars.
    assert (N3 : t3 <> "").
    { unfold t3. destruct val; [simpl in Hlong; lia | discriminate]. }
    assert (N4 : t4 <> "").
    { intros Heq. apply (f_equal String.length) in Heq.
      unfold t4 in Heq. rewrite takeChars_length, dropChars_length in Heq.
      change (String.length "") with 0%nat in Heq. lia. }
    destruct (skipWhiteSpace_alnum t3 H3 (" " ++ t4)) as [->|?]; [|contradiction].
    rewrite <- append_assoc. apply trimEnd_app; [exact N4 | now apply trimEnd_alnum].
  - destruct (skipWhiteSpace_alnum val Hval "") as [Hskip| ->]; [|reflexivity].
    rewrite append_nil_r in Hskip. rewrite Hskip. now apply trimEnd_alnum.
Qed.

Lemma eircodeChange_value text :
  eircodeChange text = eircodeShape (eircodeClean text).
Proof.
  unfold eircodeChange. fold (eircodeClean text).
  change (substring 0 3 (eircodeClean text))
    with (JsString.takeChars 3 (eircodeClean text)).
  change (substring 3 7 (eircodeClean text))
    with (JsString.takeChars 4 (JsString.dropChars 3 (eircodeClean text))).
  apply eircodeShape_trim. apply every_keepChars.
Qed.

Lemma eircodeShape_clean val :
  every isAlnum val = true ->
  JsString.toUpperCase (JsString.stripWhiteSpace (eircodeShape val)) =
    JsString.takeChars 7 val /\
  eircodeClean (eircodeShape val) = JsString.takeChars 7 val.
Proof.
  intros Hval. unfold eircodeShape, eircodeClean.
  destruct (Nat.ltb_spec 3 (String.length val)) as [Hlong|Hshort].
  - set (t3 := JsString.takeChars 3 val).
    set (t4 := JsString.takeChars 4 (JsString.dropChars 3 val)).
    assert (H3 : every isAlnum t3 = true) by now apply every_takeChars.
    assert (H4 : every isAlnum t4 = true)
      by now apply every_takeChars, every_dropChars.
    change (t3 ++ " " ++ t4) with (t3 ++ String " " t4).
    rewrite stripWhiteSpace_app, !toUpperCase_app, keepChars_app.
    change (JsString.stripWhiteSpace (String " " t4)) with (JsString.stripWhiteSpace t4).
    change (keepChars isAlnum (JsString.toUpperCase (String " " t4)))
      with (keepChars isAlnum (JsString.toUpperCase t4)).
    rewrite (alnum_strip t3 H3), (alnum_strip t4 H4), (alnum_upper t3 H3),
      (alnum_upper t4 H4), (keepChars_id _ t3 H3), (keepChars_id _ t4 H4).
    unfold t3, t4. now rewrite take3_take4.
  - assert (Hall : JsString.takeChars 7 val = val).
    { destruct val as [|? [|? [|? [|? s]]]]; try reflexivity. simpl in Hshort. lia. }
    rewrite alnum_strip, alnum_upper, keepChars_id, Hall by assumption. now split.
Qed.

End EircodeFacts.

Section StoredFacts.
Context `{JsRuntime}.
Import Validator Reading.

Lemma Normal_inj {A : Type} (a b : A) : Normal a = Normal b -> a = b.
Proof. intros Heq. now injection Heq. Qed.

Lemma isType_same q t : type q = t -> isType q t = true.
Proof. intros <-. unfold isType. now destruct (type q). Qed.

Lemma isType_other q t t' : type q = t -> t <> t' -> isType q t' = false.
Proof.
  intros <- Hne. unfold isType.
  destruct (type q), t'; try reflexivity; congruence.
Qed.

Lemma lastFailure_nones cs n :
  lastFailure (cs ++ repeat None n) = lastFailure cs.
Proof.
  induction n as [|n IH]; [now rewrite app_nil_r|].
  cbn [repeat]. rewrite repeat_cons, app_assoc, lastFailure_snoc. exact IH.
Qed.

(** What [validateStep] returns for a step with one question, of one
    type and without other validation than [required], whose answer is a
    string: the required message for the empty string when the question
    is required, nothing for it otherwise, and for any other string the
    last failing check of the type. *)
Lemma validateStep_stored answers step q t s :
  questions step = [q] ->
  plainQuestion q t ->
  t <> hidden -> t <> helper_text ->
  answers !! fieldKey q = Some (VString s) ->
  validateStep answers step =
  Normal (if String.eqb s ""
          then (if required (validation q) then {[ fieldKey q := msgRequired ]} else ∅)
          else assignSome (lastFailure (typeSpecificChecks q s)) (fieldKey q) ∅).
Proof.
  intros Hqs (Ht & Hshow & Hminl & Hmaxl & Hmin & Hmax & Hpat) Hhid Hhelp Hans.
  unfold validateStep. rewrite Hqs. cbn [forEachQuestion].
  unfold validateQuestion, shouldShowQuestion, readAnswer.
  rewrite Hshow, Hans, (isType_other q t hidden Ht Hhid),
    (isType_other q t helper_text Ht Hhelp).
  cbn [negb orb default id missingRequired Js.truthy Js.strictEqString].
  destruct (String.eqb s "") eqn:Hs; cbn [negb orb andb].
  - rewrite andb_true_r. destruct (required (validation q)); cbn [bindC].
    + now rewrite insert_empty.
    + reflexivity.
  - rewrite andb_false_r. rewrite presentValueBlock_checks, patternBlock_result.
    rewrite Hpat. cbn [truthyString bindC Js.toString].
    unfold rangeChecks. rewrite Hminl, Hmaxl, Hmin, Hmax.
    cbn [lengthBelow lengthAbove numberBelow numberAbove failing].
    now rewrite (lastFailure_nones _ 4).
Qed.

End StoredFacts.

(** X12. What the eircode field stores is at most 8 characters long,
    and formatting it again changes nothing; it is empty exactly when
    the typed text has no letter and no digit.  The eircode check of the
    validator passes on the stored value exactly when the typed text, in
    upper case and without anything but letters and digits, has at least
    7 characters and starts with a routing key of the list.  The
    validator runs that check on a non-empty value only: for a step whose
    one question is an eircode question without other validation,
    answered by the stored value, [validateStep] reports nothing exactly
    when the stored value is empty and the question is not required, or
    the typed text has those 7 characters and that routing key; it
    reports the required message for an empty value of a required
    question and the eircode message otherwise. *)
Theorem eircodeChange_validated `{JsRuntime} (text : string) :
  let val := Fields.keepChars Fields.isAlnum (JsString.toUpperCase text) in
  let stored := Fields.eircodeChange text in
  let wellFormed :=
    (7 <= String.length val)%nat /\
    In (JsString.takeChars 3 val) Validator.validEircodePrefixes in
  (String.length stored <= 8)%nat /\
  Fields.eircodeChange stored = stored /\
  (stored = "" <-> val = "") /\
  (Validator.eircodeInvalid stored = false <-> wellFormed) /\
  (forall (answers : gmap string JsValue) (step : Step) (q : Question),
     questions step = [q] ->
     plainQuestion q eircode ->
     answers !! Validator.fieldKey q = Some (VString stored) ->
     (Validator.validateStep answers step = Normal ∅ <->
      (val = "" /\ required (validation q) = false) \/ wellFormed) /\
     (val = "" -> required (validation q) = true ->
      Validator.validateStep answers step =
        Normal {[ Validator.fieldKey q := Validator.msgRequired ]}) /\
     (val <> "" -> ~ wellFormed ->
      Validator.validateStep answers step =
        Normal {[ Validator.fieldKey q := Validator.msgEircode ]})).
Proof.
  intros val stored wellFormed.
  assert (Hval : Language.every Fields.isAlnum val = true) by apply every_keepChars.
  destruct (eircodeShape_clean val Hval) as [Hstrip Hclean].
  assert (Hstored : stored = eircodeShape val) by apply eircodeChange_value.
  assert (Hlen : (String.length stored <= 8)%nat).
  { rewrite Hstored. unfold eircodeShape.
    destruct (Nat.ltb_spec 3 (String.length val)) as [Hlong|Hshort]; [|lia].
    rewrite !append_length, !takeChars_length, dropChars_length.
    change (String.length " ") with 1%nat. lia. }
  assert (Hempty : stored = "" <-> val = "").
  { rewrite Hstored. unfold eircodeShape.
    destruct (Nat.ltb_spec 3 (String.length val)) as [Hlong|Hshort]; [|tauto].
    split.
    - intros Heq. apply (f_equal String.length) in Heq.
      rewrite !append_length, !takeChars_length in Heq.
      change (String.length "") with 0%nat in Heq. lia.
    - intros Heq. rewrite Heq in Hlong. simpl in Hlong. lia. }
  assert (Hcheck : Validator.eircodeInvalid stored = false <-> wellFormed).
  { rewrite Hstored. unfold Validator.eircodeInvalid, wellFormed.
    rewrite Hstrip, take3_take7, takeChars_length.
    rewrite orb_false_iff, Nat.ltb_ge, negb_false_iff, existsb_exists.
    split.
    - intros [Hl (p & Hin & Hp)]. apply String.eqb_eq in Hp. subst p.
      split; [lia | exact Hin].
    - intros [Hl Hin]. split; [lia|].
      exists (JsString.takeChars 3 val). split; [exact Hin | apply String.eqb_refl]. }
  assert (Hlong : wellFormed -> val <> "").
  { intros [Hl _] Heq. rewrite Heq in Hl. simpl in Hl. lia. }
  refine (conj Hlen (conj _ (conj Hempty (conj Hcheck _)))).
  - change (Fields.eircodeChange (Fields.eircodeChange text) =
            Fields.eircodeChange text).
    rewrite !eircodeChange_value. change (eircodeClean text) with val.
    assert (Hc : eircodeClean (eircodeShape val) = JsString.takeChars 7 val)
      by exact Hclean.
    rewrite Hc. unfold eircodeShape at 1.
    rewrite take3_take7, take4_drop3_take7, takeChars_length.
    unfold eircodeShape.
    destruct (Nat.ltb_spec 3 (String.length val)) as [Hl|Hs].
    + destruct (Nat.ltb_spec 3 (Nat.min 7 (String.length val))); [reflexivity | lia].
    + destruct (Nat.ltb_spec 3 (Nat.min 7 (String.length val))); [lia|].
      destruct val as [|? [|? [|? [|? s]]]]; try reflexivity. simpl in Hs. lia.
  - intros answers step q Hqs Hplain Hans.
    assert (Htype : type q = eircode) by apply Hplain.
    rewrite (validateStep_stored answers step q eircode stored Hqs Hplain
               ltac:(discriminate) ltac:(discriminate) Hans).
    assert (Hchecks : Reading.lastFailure (Reading.typeSpecificChecks q stored) =
                      Reading.failing (Validator.eircodeInvalid stored)
                        Validator.msgEircode).
    { unfold Reading.typeSpecificChecks.
      rewrite (isType_other q eircode email Htype ltac:(discriminate)),
        (isType_other q eircode phone Htype ltac:(discriminate)),
        (isType_other q eircode numberplate Htype ltac:(discriminate)),
        (isType_other q eircode date Htype ltac:(discriminate)),
        (isType_other q eircode datetime Htype ltac:(discriminate)),
        (isType_same q eircode Htype).
      cbn [andb Reading.failing].
      now destruct (Validator.eircodeInvalid stored). }
    rewrite Hchecks. clear Hchecks.
    destruct (String.eqb_spec stored "") as [Hs|Hs].
    + apply Hempty in Hs.
      refine (conj _ (conj _ _)).
      * destruct (required (validation q)); split.
        -- intros Habs%Normal_inj. now apply map_non_empty_singleton in Habs.
        -- intros [[_ Hreq]|Hw]; [discriminate | now apply Hlong in Hw].
        -- intros _. left. now split.
        -- reflexivity.
      * intros _ ->. reflexivity.
      * intros Hne. contradiction.
    + assert (Hne : val <> "") by (intros Hv; now apply Hempty in Hv).
      destruct (Validator.eircodeInvalid stored) eqn:Hbad;
        cbn [Reading.failing Validator.assignSome].
      * assert (Hnot : ~ wellFormed)
          by (intros Hw; apply Hcheck in Hw; discriminate Hw).
        refine (conj _ (conj _ _)).
        -- split.
           ++ intros Habs%Normal_inj. now apply insert_non_empty in Habs.
           ++ intros [[Hv _]|Hw]; contradiction.
        -- intros Hv. contradiction.
        -- intros _ _. now rewrite insert_empty.
      * assert (Hw : wellFormed) by now apply Hcheck.
        refine (conj _ (conj _ _)).
        -- split; [intros _; now right | reflexivity].
        -- intros Hv. contradiction.
        -- intros _ Hnot. contradiction.
Qed.

Lemma eircodeChange_validated_witness :
  questions (Examples.plainStep "A" [ValidatorExample.eircodeQuestion]) =
    [ValidatorExample.eircodeQuestion] /\
  plainQuestion ValidatorExample.eircodeQuestion eircode /\
  Fields.eircodeChange "d02x285" = "D02 X285" /\
  Validator.validateStep (ValidatorExample.eircodeAnswer "D02 X285")
    (Examples.plainStep "A" [ValidatorExample.eircodeQuestion]) = Normal ∅ /\
  Fields.eircodeChange "--" = "" /\
  Validator.validateStep (ValidatorExample.eircodeAnswer "")
    (Examples.plainStep "A" [ValidatorExample.eircodeQuestion]) = Normal ∅ /\
  Validator.validateStep (ValidatorExample.eircodeAnswer "D02")
    (Examples.plainStep "A" [ValidatorExample.eircodeQuestion]) =
    Normal {[ "eir" := Validator.msgEircode ]}.
Proof.
  assert (Hplain : plainQuestion ValidatorExample.eircodeQuestion eircode)
    by (repeat split).
  refine (conj eq_refl (conj Hplain (conj eq_refl (conj _ (conj eq_refl (conj _ _)))))).
  - destruct (eircodeChange_validated "d02x285") as (_ & _ & _ & _ & Hstep).
    destruct (Hstep (ValidatorExample.eircodeAnswer "D02 X285")
                (Examples.plainStep "A" [ValidatorExample.eircodeQuestion])
                ValidatorExample.eircodeQuestion eq_refl Hplain eq_refl)
      as (Hnone & _).
    apply Hnone. right. split; [simpl; lia | vm_compute; tauto].
  - destruct (eircodeChange_validated "--") as (_ & _ & _ & _ & Hstep).
    destruct (Hstep (ValidatorExample.eircodeAnswer "")
                (Examples.plainStep "A" [ValidatorExample.eircodeQuestion])
                ValidatorExample.eircodeQuestion eq_refl Hplain eq_refl)
      as (Hnone & _).
    apply Hnone. left. split; reflexivity.
  - destruct (eircodeChange_validated "d02") as (_ & _ & _ & _ & Hstep).
    destruct (Hstep (ValidatorExample.eircodeAnswer "D02")
                (Examples.plainStep "A" [ValidatorExample.eircodeQuestion])
                ValidatorExample.eircodeQuestion eq_refl Hplain eq_refl)
      as (_ & _ & Hbad).
    apply Hbad; [discriminate|]. intros [Hl _]. simpl in Hl. lia.
Defined.

Section PlateFacts.
Import Language Fields.

Lemma takeGroup_spec p room s :
  let (g, rest) := takeGroup p room s in
  every p g = true /\ (String.length g <= room)%nat /\ s = g ++ rest.
Proof.
  revert s. induction room as [|room IH]; intros s; simpl.
  - destruct s; repeat split; simpl; lia.
  - destruct s as [|c s]; [repeat split; simpl; lia|].
    destruct (p c) eqn:Hc; [|repeat split; simpl; lia].
    specialize (IH s). destruct (takeGroup p room s) as [g rest].
    destruct IH as (Hg & Hl & ->). string_simpl. rewrite Hc, Hg.
    repeat split. lia.
Qed.

Lemma digits_no_dash s :
  every JsString.isDigit s = true -> every (notChar "-") s = true.
Proof.
  apply every_weaken. intros c Hc. apply isDigit_char in Hc as [Hc _].
  apply isAlnum_char in Hc as (_ & _ & Hd & _). unfold notChar. now rewrite Hd.
Qed.

Lemma upper_no_dash s :
  every JsString.isUpper s = true -> every (notChar "-") s = true.
Proof.
  apply every_weaken. intros c Hc. apply isUpper_char in Hc as [Hc _].
  apply isAlnum_char in Hc as (_ & _ & Hd & _). unfold notChar. now rewrite Hd.
Qed.

Lemma digits_upper s : every JsString.isDigit s = true -> JsString.toUpperCase s = s.
Proof.
  intros Hs. apply alnum_upper. revert Hs. apply every_weaken.
  intros c Hc. now apply isDigit_char in Hc as [Hc _].
Qed.

Lemma upper_upper s : every JsString.isUpper s = true -> JsString.toUpperCase s = s.
Proof.
  intros Hs. apply alnum_upper. revert Hs. apply every_weaken.
  intros c Hc. now apply isUpper_char in Hc as [Hc _].
Qed.

Lemma eqb_empty s : String.eqb s "" = true <-> s = "".
Proof. apply String.eqb_eq. Qed.

Lemma length_pos s : s <> "" <-> (1 <= String.length s)%nat.
Proof. destruct s; simpl; split; try congruence; lia. Qed.

Lemma plateText_verdict year county seq :
  every JsString.isDigit year = true ->
  every JsString.isUpper county = true ->
  every JsString.isDigit seq = true ->
  (String.length year <= 3)%nat -> (String.length county <= 2)%nat ->
  (String.length seq <= 6)%nat ->
  (Regex.test Validator.numberPlateRegex
     (JsString.toUpperCase (plateText year county seq)) = true <->
   (2 <= String.length year)%nat /\ county <> "" /\ seq <> "").
Proof.
  intros Ey Ec Eq Ly Lc Lq.
  pose proof (digits_no_dash _ Ey) as Dy. pose proof (upper_no_dash _ Ec) as Dc.
  pose proof (digits_no_dash _ Eq) as Dq.
  assert (Hup : JsString.toUpperCase (plateText year county seq) =
                plateText year county seq).
  { unfold plateText.
    destruct (String.eqb county ""), (String.eqb seq "");
      rewrite ?toUpperCase_app, ?(digits_upper _ Ey), ?(upper_upper _ Ec),
        ?(digits_upper _ Eq); reflexivity. }
  rewrite Hup, numberPlate_matches. clear Hup.
  assert (Hsplit : JsString.split "-" (plateText year county seq) =
            if String.eqb county ""
            then (if String.eqb seq "" then [year] else [year; seq])
            else (if String.eqb seq "" then [year; county] else [year; county; seq])).
  { unfold plateText.
    destruct (String.eqb county ""), (String.eqb seq "").
    - now apply split_plain.
    - change (year ++ "-" ++ seq) with (year ++ String "-" seq).
      now rewrite (split_at _ _ _ Dy), (split_plain _ _ Dq).
    - change (year ++ "-" ++ county) with (year ++ String "-" county).
      now rewrite (split_at _ _ _ Dy), (split_plain _ _ Dc).
    - rewrite append_assoc.
      change (year ++ ("-" ++ county) ++ "-" ++ seq)
        with (year ++ String "-" (county ++ String "-" seq)).
      now rewrite (split_at _ _ _ Dy), (split_at _ _ _ Dc), (split_plain _ _ Dq). }
  split.
  - intros (y & c & q & Heq & Ly' & Ey' & Lc' & Ec' & Lq' & Eq').
    assert (Hparts : JsString.split "-" (plateText year county seq) = [y; c; q]).
    { rewrite Heq.
      change (y ++ "-" ++ c ++ "-" ++ q) with (y ++ String "-" (c ++ String "-" q)).
      now rewrite (split_at _ _ _ (digits_no_dash _ Ey')),
        (split_at _ _ _ (upper_no_dash _ Ec')), (split_plain _ _ (digits_no_dash _ Eq')). }
    rewrite Hsplit in Hparts.
    destruct (String.eqb_spec county ""), (String.eqb_spec seq ""); try discriminate.
    injection Hparts as -> -> ->. repeat split; try assumption; lia.
  - intros (Hy & Hc & Hq). exists year, county, seq.
    apply length_pos in Hc, Hq.
    unfold plateText.
    destruct (String.eqb_spec county "") as [->|_]; [simpl in Hc; lia|].
    destruct (String.eqb_spec seq "") as [->|_]; [simpl in Hq; lia|].
    rewrite append_assoc. repeat split; try assumption; lia.
Qed.

Lemma plateGroups_spec text :
  let '(year, county, seq) := plateGroups text in
  every JsString.isDigit year = true /\ (String.length year <= 3)%nat /\
  every JsString.isUpper county = true /\ (String.length county <= 2)%nat /\
  every JsString.isDigit seq = true /\ (String.length seq <= 6)%nat /\
  numberPlateChange text = plateText year county seq.
Proof.
  unfold numberPlateChange, plateGroups.
  set (noDashes := keepChars _ (keepChars _ _)).
  pose proof (takeGroup_spec JsString.isDigit 3 noDashes) as H1.
  destruct (takeGroup JsString.isDigit 3 noDashes) as [year rest1].
  pose proof (takeGroup_spec JsString.isUpper 2 rest1) as H2.
  destruct (takeGroup JsString.isUpper 2 rest1) as [county rest2].
  pose proof (takeGroup_spec JsString.isDigit 6 rest2) as H3.
  destruct (takeGroup JsString.isDigit 6 rest2) as [seq rest3].
  destruct H1 as (Ey & Ly & _), H2 as (Ec & Lc & _), H3 as (Eq & Lq & _).
  repeat split; assumption.
Qed.

End PlateFacts.

(** X13. The number-plate field stores the groups it reads from the
    typed text (up to 3 digits, up to 2 letters, up to 6 digits, dashes
    and other characters dropped) joined by dashes, leaving out an empty
    group; the stored text is empty exactly when all three groups are.
    The number-plate check of the validator passes on the stored text
    exactly when the field read at least 2 year digits, a county letter
    and a sequence digit; so ["1912345"], stored as ["191-2345"], does
    not pass.  The validator runs that check on a non-empty value only:
    for a step whose one question is a number-plate question without
    other validation, answered by the stored text, [validateStep] reports
    nothing exactly when the stored text is empty and the question is not
    required, or the three groups were read as above; it reports the
    required message for an empty text of a required question and the
    number-plate message otherwise. *)
Theorem numberPlateChange_validated `{JsRuntime} (text : string) :
  let '(year, county, seq) := Fields.plateGroups text in
  let stored := Fields.numberPlateChange text in
  let wellFormed := (2 <= String.length year)%nat /\ county <> "" /\ seq <> "" in
  (Language.every JsString.isDigit year = true /\ (String.length year <= 3)%nat /\
   Language.every JsString.isUpper county = true /\ (String.length county <= 2)%nat /\
   Language.every JsString.isDigit seq = true /\ (String.length seq <= 6)%nat) /\
  stored = plateText year county seq /\
  (stored = "" <-> year = "" /\ county = "" /\ seq = "") /\
  (Regex.test Validator.numberPlateRegex (JsString.toUpperCase stored) = true <->
   wellFormed) /\
  (forall (answers : gmap string JsValue) (step : Step) (q : Question),
     questions step = [q] ->
     plainQuestion q numberplate ->
     answers !! Validator.fieldKey q = Some (VString stored) ->
     (Validator.validateStep answers step = Normal ∅ <->
      (stored = "" /\ required (validation q) = false) \/ wellFormed) /\
     (stored = "" -> required (validation q) = true ->
      Validator.validateStep answers step =
        Normal {[ Validator.fieldKey q := Validator.msgRequired ]}) /\
     (stored <> "" -> ~ wellFormed ->
      Validator.validateStep answers step =
        Normal {[ Validator.fieldKey q := Validator.msgNumberPlate ]})) /\
  Fields.numberPlateChange "1912345" = "191-2345".
Proof.
  pose proof (plateGroups_spec text) as Hgroups.
  destruct (Fields.plateGroups text) as [[year county] seq].
  cbv beta iota zeta in Hgroups |- *.
  destruct Hgroups as (Ey & Ly & Ec & Lc & Eq & Lq & Hstored).
  rewrite Hstored.
  set (stored := plateText year county seq).
  set (wellFormed := (2 <= String.length year)%nat /\ county <> "" /\ seq <> "").
  assert (Hcheck : Regex.test Validator.numberPlateRegex
                     (JsString.toUpperCase stored) = true <-> wellFormed)
    by now apply plateText_verdict.
  assert (Hempty : stored = "" <-> year = "" /\ county = "" /\ seq = "").
  { unfold stored, plateText.
    destruct (String.eqb_spec county "") as [->|Hc],
      (String.eqb_spec seq "") as [->|Hq]; split;
      try (intros (-> & ? & ?); congruence); try tauto.
    - intros Heq. apply append_eq_nil in Heq as [_ Heq]. discriminate Heq.
    - intros Heq. apply append_eq_nil in Heq as [_ Heq]. discriminate Heq.
    - intros Heq. apply append_eq_nil in Heq as [_ Heq]. discriminate Heq. }
  assert (Hread : wellFormed -> stored <> "").
  { intros (Hy & _ & _) Hs. apply Hempty in Hs as (-> & _ & _).
    simpl in Hy. lia. }
  refine (conj _ (conj eq_refl (conj Hempty (conj Hcheck (conj _ eq_refl))))).
  { repeat split; assumption. }
  intros answers step q Hqs Hplain Hans.
  assert (Htype : type q = numberplate) by apply Hplain.
  rewrite (validateStep_stored answers step q numberplate stored Hqs Hplain
             ltac:(discriminate) ltac:(discriminate) Hans).
  assert (Hchecks : Reading.lastFailure (Reading.typeSpecificChecks q stored) =
                    Reading.failing
                      (negb (Regex.test Validator.numberPlateRegex
                               (JsString.toUpperCase stored)))
                      Validator.msgNumberPlate).
  { unfold Reading.typeSpecificChecks.
    rewrite (isType_other q numberplate email Htype ltac:(discriminate)),
      (isType_other q numberplate phone Htype ltac:(discriminate)),
      (isType_other q numberplate eircode Htype ltac:(discriminate)),
      (isType_other q numberplate date Htype ltac:(discriminate)),
      (isType_other q numberplate datetime Htype ltac:(discriminate)),
      (isType_same q numberplate Htype).
    cbn [andb Reading.failing].
    now destruct (negb _). }
  rewrite Hchecks. clear Hchecks.
  destruct (String.eqb_spec stored "") as [Hs|Hs].
  - refine (conj _ (conj _ _)).
    + destruct (required (validation q)); split.
      * intros Habs%Normal_inj. now apply map_non_empty_singleton in Habs.
      * intros [[_ Hreq]|Hw]; [discriminate | now apply Hread in Hw].
      * intros _. left. now split.
      * reflexivity.
    + intros _ ->. reflexivity.
    + intros Hne. contradiction.
  - destruct (Regex.test Validator.numberPlateRegex (JsString.toUpperCase stored))
      eqn:Hok; cbn [negb Reading.failing Validator.assignSome].
    + assert (Hw : wellFormed) by now apply Hcheck.
      refine (conj _ (conj _ _)).
      * split; [intros _; now right | reflexivity].
      * intros Hv. contradiction.
      * intros _ Hnot. contradiction.
    + assert (Hnot : ~ wellFormed)
        by (intros Hw; apply Hcheck in Hw; discriminate Hw).
      refine (conj _ (conj _ _)).
      * split.
        -- intros Habs%Normal_inj. now apply insert_non_empty in Habs.
        -- intros [[Hv _]|Hw]; contradiction.
      * intros Hv. contradiction.
      * intros _ _. now rewrite insert_empty.
Qed.

Lemma numberPlateChange_validated_witness :
  plainQuestion MachineExample.plateQuestion numberplate /\
  Fields.numberPlateChange "191d12345" = "191-D-12345" /\
  Validator.validateStep (MachineExample.plateAnswer "191-D-12345")
    (Examples.plainStep "A" [MachineExample.plateQuestion]) = Normal ∅ /\
  Fields.numberPlateChange "--" = "" /\
  Validator.validateStep (MachineExample.plateAnswer "")
    (Examples.plainStep "A" [MachineExample.plateQuestion]) = Normal ∅ /\
  Validator.validateStep (MachineExample.plateAnswer "191-2345")
    (Examples.plainStep "A" [MachineExample.plateQuestion]) =
    Normal {[ "plate" := Validator.msgNumberPlate ]}.
Proof.
  assert (Hplain : plainQuestion MachineExample.plateQuestion numberplate)
    by (repeat split).
  refine (conj Hplain (conj eq_refl (conj _ (conj eq_refl (conj _ _))))).
  - pose proof (numberPlateChange_validated "191d12345") as Hthm.
    assert (Hgroups : Fields.plateGroups "191d12345" = ("191", "D", "12345"))
      by reflexivity.
    rewrite Hgroups in Hthm. destruct Hthm as (_ & _ & _ & _ & Hstep & _).
    destruct (Hstep (MachineExample.plateAnswer "191-D-12345")
                (Examples.plainStep "A" [MachineExample.plateQuestion])
                MachineExample.plateQuestion eq_refl Hplain
                ltac:(vm_compute; reflexivity))
      as (Hnone & _).
    apply Hnone. right. split; [simpl; lia | split; discriminate].
  - pose proof (numberPlateChange_validated "--") as Hthm.
    assert (Hgroups : Fields.plateGroups "--" = ("", "", "")) by reflexivity.
    rewrite Hgroups in Hthm. destruct Hthm as (_ & _ & _ & _ & Hstep & _).
    destruct (Hstep (MachineExample.plateAnswer "")
                (Examples.plainStep "A" [MachineExample.plateQuestion])
                MachineExample.plateQuestion eq_refl Hplain
                ltac:(vm_compute; reflexivity))
      as (Hnone & _).
    apply Hnone. left. split; reflexivity.
  - pose proof (numberPlateChange_validated "1912345") as Hthm.
    assert (Hgroups : Fields.plateGroups "1912345" = ("191", "", "2345"))
      by reflexivity.
    rewrite Hgroups in Hthm. destruct Hthm as (_ & _ & _ & _ & Hstep & _).
    destruct (Hstep (MachineExample.plateAnswer "191-2345")
                (Examples.plainStep "A" [MachineExample.plateQuestion])
                MachineExample.plateQuestion eq_refl Hplain
                ltac:(vm_compute; reflexivity))
      as (_ & _ & Hbad).
    apply Hbad; [discriminate|]. intros (_ & Hc & _). now apply Hc.
Defined.

Section MaskFacts.
Import Language Fields Numerals.

Lemma isDigit_separators :
  JsString.isDigit "/" = false /\ JsString.isDigit " " = false /\
  JsString.isDigit ":" = false.
Proof. repeat split. Qed.

Lemma keepChars_digit c s :
  JsString.isDigit c = true ->
  keepChars JsString.isDigit (String c s) = String c (keepChars JsString.isDigit s).
Proof. intros Hc. simpl. now rewrite Hc. Qed.

Lemma keepChars_slash s :
  keepChars JsString.isDigit (String "/" s) = keepChars JsString.isDigit s.
Proof. reflexivity. Qed.

Lemma every_digit_cons c s :
  every JsString.isDigit (String c s) = true ->
  JsString.isDigit c = true /\ every JsString.isDigit s = true.
Proof. simpl. apply andb_true_iff. Qed.

Ltac digit_chars H :=
  repeat match type of H with
         | every _ (String _ _) = true =>
             apply every_digit_cons in H as [? H]
         end.

Lemma dateShape_digits v :
  every JsString.isDigit v = true ->
  (String.length (dateShape v) <= 10)%nat /\
  keepChars JsString.isDigit (dateShape v) = JsString.takeChars 8 v.
Proof.
  intros Hv.
  destruct v as [|c1 [|c2 [|c3 [|c4 [|c5 [|c6 [|c7 [|c8 v]]]]]]]];
    digit_chars Hv;
    (split; [cbv; lia |]);
    cbv [dateShape substring String.length Nat.leb Nat.sub JsString.takeChars
         JsString.dropChars String.append];
    repeat (rewrite keepChars_slash || rewrite keepChars_digit by assumption);
    reflexivity.
Qed.

Lemma dateTimeShape_length v : (String.length (dateTimeShape v) <= 16)%nat.
Proof.
  destruct v as [|c1 [|c2 [|c3 [|c4 [|c5 [|c6 [|c7 [|c8 [|c9 [|c10 [|c11
                 [|c12 v]]]]]]]]]]]]; cbv; lia.
Qed.

End MaskFacts.

(** X14. The masked date field formats the text only when it did not get
    shorter than the previous value.  Then it stores the first 8 digits
    of what was typed and nothing else but its two slashes, in at most
    10 characters; and when those digits are the day, the month and the
    year, the stored text is [DD/MM/YYYY] and the date check of the
    validator accepts it exactly when that day exists in the calendar
    from 1900 to 2100.  A text that got shorter is stored as it is,
    unformatted, unless the character of the previous value at the
    cursor is a slash: then, for a cursor past the start, the stored text
    is the new text without the character before the cursor. *)
Theorem formatDate_typed (text prevValue : string) (cursorPos : nat) (d m y : Z) :
  let stored := Fields.dateChange prevValue text cursorPos in
  ((String.length prevValue <= String.length text)%nat ->
   (String.length stored <= 10)%nat /\
   Fields.keepChars JsString.isDigit stored =
     JsString.takeChars 8 (Fields.keepChars JsString.isDigit text)) /\
  ((String.length text < String.length prevValue)%nat ->
   Fields.charAt cursorPos prevValue <> Some "/"%char ->
   stored = text) /\
  ((String.length text < String.length prevValue)%nat ->
   Fields.charAt cursorPos prevValue = Some "/"%char ->
   (1 <= cursorPos)%nat ->
   stored = JsString.takeChars (cursorPos - 1) text ++ JsString.dropChars cursorPos text) /\
  (0 <= d < 100 -> 0 <= m < 100 -> 0 <= y < 10000 ->
   Fields.keepChars JsString.isDigit text =
     Numerals.twoDigits d ++ Numerals.twoDigits m ++ Numerals.fourDigits y ->
   (String.length prevValue <= String.length text)%nat ->
   stored = Numerals.dateText d m y /\
   (Validator.dateMaskError stored = None <-> Numerals.calendarDay d m y)).
Proof.
  intros stored.
  assert (Hshape : Fields.formatDate text =
                   dateShape (Fields.keepChars JsString.isDigit text)) by reflexivity.
  destruct (dateShape_digits _ (every_keepChars JsString.isDigit text)) as [Hlen Hkeep].
  assert (Hgrown : (String.length prevValue <= String.length text)%nat ->
                   stored = Fields.formatDate text).
  { intros Hprev. unfold stored, Fields.dateChange.
    destruct (Nat.ltb_spec (String.length text) (String.length prevValue));
      [lia | reflexivity]. }
  assert (Hshorter : (String.length text < String.length prevValue)%nat ->
            stored =
            match Fields.charAt cursorPos prevValue with
            | Some "/"%char =>
                Fields.sliceTo (Z.of_nat cursorPos - 1) text ++
                JsString.dropChars cursorPos text
            | _ => text
            end).
  { intros Hprev. unfold stored, Fields.dateChange.
    destruct (Nat.ltb_spec (String.length text) (String.length prevValue));
      [reflexivity | lia]. }
  clearbody stored.
  refine (conj _ (conj _ (conj _ _))).
  - intros Hprev. rewrite (Hgrown Hprev), Hshape. now split.
  - intros Hprev Hchar. rewrite (Hshorter Hprev).
    destruct (Fields.charAt cursorPos prevValue) as [c|]; [|reflexivity].
    destruct (Ascii.eqb_spec c "/") as [->|Hne]; [congruence|].
    destruct c as [[] [] [] [] [] [] [] []]; try reflexivity. congruence.
  - intros Hprev Hchar Hcursor. rewrite (Hshorter Hprev), Hchar.
    unfold Fields.sliceTo.
    destruct (Z.ltb_spec (Z.of_nat cursorPos - 1) 0); [lia|].
    replace (Z.to_nat (Z.of_nat cursorPos - 1)) with (cursorPos - 1)%nat by lia.
    reflexivity.
  - intros Hd Hm Hy Hdigits Hprev.
    assert (Hchange : stored = Numerals.dateText d m y).
    { rewrite (Hgrown Hprev), Hshape, Hdigits. reflexivity. }
    split; [exact Hchange|].
    rewrite Hchange, (dateMaskError_text d m y Hd Hm Hy), calendarDay_check.
    destruct (Validator.badDate (Some d) (Some m) (Some y)); split; try tauto.
    + discriminate.
    + intros [Hbad _]. discriminate Hbad.
Qed.

Lemma formatDate_typed_witness :
  (0 <= 29 < 100 /\ 0 <= 2 < 100 /\ 0 <= 2024 < 10000) /\
  Fields.keepChars JsString.isDigit "29.02.2024" =
    Numerals.twoDigits 29 ++ Numerals.twoDigits 2 ++ Numerals.fourDigits 2024 /\
  Fields.dateChange "29/02/202" "29.02.2024" 10 = "29/02/2024" /\
  Fields.dateChange "29/02/2024" "29022024" 8 = "29022024" /\
  Fields.dateChange "12/3" "123" 2 = "13".
Proof.
  split; [lia|]. split; [reflexivity|].
  destruct (formatDate_typed "29.02.2024" "29/02/202" 10 29 2 2024)
    as (_ & _ & _ & Htyped).
  destruct (formatDate_typed "29022024" "29/02/2024" 8 0 0 0)
    as (_ & Hraw & _).
  destruct (formatDate_typed "123" "12/3" 2 0 0 0)
    as (_ & _ & Hslash & _).
  refine (conj _ (conj _ _)).
  - exact (proj1 (Htyped ltac:(lia) ltac:(lia) ltac:(lia) eq_refl ltac:(simpl; lia))).
  - apply Hraw; [simpl; lia | discriminate].
  - exact (Hslash ltac:(simpl; lia) eq_refl ltac:(lia)).
Defined.

(** X15. The masked datetime field stores at most 16 characters.  When
    the digits of the typed text are day, month, year, hour and minute,
    the stored text is [DD/MM/YYYY HH:MM] and the validator accepts it
    exactly when the day exists in the calendar from 1900 to 2100, the
    hour is at most 23 and the minute at most 59.  Text that got shorter
    is stored as it is. *)
Theorem formatDateTime_typed (text prevValue : string) (d m y h mi : Z) :
  (String.length (Fields.formatDateTime text) <= 16)%nat /\
  ((String.length text < String.length prevValue)%nat ->
   Fields.dateTimeChange prevValue text = text) /\
  (0 <= d < 100 -> 0 <= m < 100 -> 0 <= y < 10000 ->
   0 <= h < 100 -> 0 <= mi < 100 ->
   Fields.keepChars JsString.isDigit text =
     Numerals.twoDigits d ++ Numerals.twoDigits m ++ Numerals.fourDigits y ++
     Numerals.twoDigits h ++ Numerals.twoDigits mi ->
   (String.length prevValue <= String.length text)%nat ->
   Fields.dateTimeChange prevValue text = Numerals.dateTimeText d m y h mi /\
   (Validator.dateTimeMaskError (Fields.dateTimeChange prevValue text) = None <->
    Numerals.calendarDay d m y /\ h <= 23 /\ mi <= 59)).
Proof.
  assert (Hshape : Fields.formatDateTime text =
                   dateTimeShape (Fields.keepChars JsString.isDigit text))
    by reflexivity.
  refine (conj _ (conj _ _)).
  - rewrite Hshape. apply dateTimeShape_length.
  - intros Hshorter. unfold Fields.dateTimeChange.
    destruct (Nat.ltb_spec (String.length text) (String.length prevValue));
      [reflexivity | lia].
  - intros Hd Hm Hy Hh Hmi Hdigits Hprev.
    assert (Hchange : Fields.dateTimeChange prevValue text =
                      Numerals.dateTimeText d m y h mi).
    { unfold Fields.dateTimeChange.
      destruct (Nat.ltb_spec (String.length text) (String.length prevValue)); [lia|].
      rewrite Hshape, Hdigits. reflexivity. }
    split; [exact Hchange|].
    rewrite Hchange, (dateTimeMaskError_text d m y h mi Hd Hm Hy Hh Hmi),
      calendarDay_check.
    assert (Htime : Validator.badTime (Some h) (Some mi) = false <-> h <= 23 /\ mi <= 59).
    { unfold Validator.badTime. rewrite !orb_false_iff, !Z.ltb_ge. lia. }
    destruct (Validator.badDate (Some d) (Some m) (Some y)).
    + split; [discriminate | intros [[Hbad _] _]; discriminate Hbad].
    + destruct (Validator.badTime (Some h) (Some mi)).
      * split; [discriminate|]. intros [_ Ht]. apply Htime in Ht. discriminate Ht.
      * split; [intros Hday | tauto].
        split; [now split | now apply Htime].
Qed.

Lemma formatDateTime_typed_witness :
  (String.length "31/12/2024 23:5" <= String.length "31/12/2024 23:59")%nat /\
  Fields.dateTimeChange "31/12/2024 23:5" "31/12/2024 23:59" = "31/12/2024 23:59".
Proof.
  split; [simpl; lia|].
  destruct (formatDateTime_typed "31/12/2024 23:59" "31/12/2024 23:5" 31 12 2024 23 59)
    as (_ & _ & Htyped).
  exact (proj1 (Htyped ltac:(lia) ltac:(lia) ltac:(lia) ltac:(lia) ltac:(lia)
                  eq_refl ltac:(simpl; lia))).
Defined.

(** ** The preview as a machine *)

Section MachineFacts.
Context `{JsRuntime}.
Variable form : Form.

Lemma currentStepOf_index a b :
  currentStepIndex a = currentStepIndex b ->
  Preview.currentStepOf form a = Preview.currentStepOf form b.
Proof. unfold Preview.currentStepOf. now intros ->. Qed.

Lemma currentStepOf_nth snap step :
  nthZ (steps form) (currentStepIndex snap) = Some step ->
  Preview.currentStepOf form snap = Some step /\
  0 <= currentStepIndex snap < Z.of_nat (length (steps form)).
Proof.
  intros Hn. unfold Preview.currentStepOf. rewrite Hn. split; [reflexivity|].
  unfold nthZ in Hn. destruct (Z.ltb_spec (currentStepIndex snap) 0); [discriminate|].
  apply lookup_lt_Some in Hn. lia.
Qed.

Lemma currentStepOf_some snap :
  steps form <> [] -> exists step, Preview.currentStepOf form snap = Some step.
Proof.
  intros Hne. unfold Preview.currentStepOf.
  destruct (nthZ (steps form) (currentStepIndex snap)) as [s|]; [now exists s|].
  destruct (steps form) as [|s l]; [congruence | now exists s].
Qed.

Lemma findIndex_range l sid :
  findIndex l sid = -1 \/ 0 <= findIndex l sid < Z.of_nat (length l).
Proof. unfold findIndex. destruct (findIndexFrom_range 0 l sid); [now left | right; lia]. Qed.

(** *** Where the resolver can point *)

Lemma scanNavigation_lower data cur navs :
  0 <= cur ->
  match scanNavigation form data cur navs with
  | Some r => r = -1 \/ 0 <= r
  | None => True
  end.
Proof.
  intros Hcur. induction navs as [|nav rest IH]; simpl; [exact I|].
  destruct (evaluateCondition data (condition nav)); [|exact IH].
  destruct (targetType (target nav)); try exact IH; try (right; lia); try (now left).
  destruct (truthyString (stepId (target nav))) as [sid|]; [|exact IH].
  cbv zeta. destruct (Z.eqb_spec (findIndex (steps form) sid) (-1)); [exact IH|].
  destruct (findIndex_range (steps form) sid); [congruence | right; lia].
Qed.

Lemma getNextStepIndex_lower data step cur :
  0 <= cur ->
  getNextStepIndex form data step cur = -1 \/ 0 <= getNextStepIndex form data step cur.
Proof.
  intros Hcur. unfold getNextStepIndex, resolveFrom.
  pose proof (scanNavigation_lower data cur
                (sortedNavigation (conditionalNavigation step)) Hcur) as Hs.
  destruct (scanNavigation form data cur _) as [r|]; [exact Hs|].
  unfold defaultNavigation.
  destruct (truthyString (defaultNextStep step)) as [sid|]; [|right; lia].
  cbv zeta. destruct (Z.eqb_spec (findIndex (steps form) sid) (-1)); [right; lia|].
  destruct (findIndex_range (steps form) sid); [congruence | right; lia].
Qed.

Lemma meansSubmit_false nextIndex :
  meansSubmit form nextIndex = false ->
  nextIndex <> -1 /\ nextIndex < Z.of_nat (length (steps form)).
Proof.
  unfold meansSubmit. rewrite orb_false_iff, Z.eqb_neq, Z.leb_gt. tauto.
Qed.

(** *** The first matching rule *)

Lemma firstMatching_spec snap navs nav :
  Preview.firstMatching snap navs = Some nav ->
  exists pre post,
    navs = (pre ++ nav :: post)%list /\
    evaluateCondition (formData snap) (condition nav) = true /\
    Forall (unmatchedRule (formData snap)) pre.
Proof.
  induction navs as [|x rest IH]; simpl; [discriminate|].
  destruct (evaluateCondition (formData snap) (condition x)) eqn:Hx.
  - intros [= <-]. exists [], rest. now repeat split.
  - intros Hf. destruct (IH Hf) as (pre & post & -> & Hnav & Hpre).
    exists (x :: pre), post. split; [reflexivity|]. split; [exact Hnav|].
    constructor; [exact Hx | exact Hpre].
Qed.

Lemma firstMatching_none snap navs :
  Preview.firstMatching snap navs = None ->
  Forall (unmatchedRule (formData snap)) navs.
Proof.
  induction navs as [|x rest IH]; simpl; [constructor|].
  destruct (evaluateCondition (formData snap) (condition x)) eqn:Hx; [discriminate|].
  intros Hf. constructor; [exact Hx | now apply IH].
Qed.

Lemma sorted_suffix (pre post : list ConditionalNavigation) :
  StronglySorted byPriorityDesc (pre ++ post)%list ->
  StronglySorted byPriorityDesc post.
Proof.
  induction pre as [|x pre IH]; simpl; [tauto|].
  intros Hs. apply StronglySorted_inv in Hs as [Hs _]. now apply IH.
Qed.

Lemma firstMatching_top snap step nav :
  Preview.firstMatching snap (sortedNavigation (conditionalNavigation step)) = Some nav ->
  In nav (conditionalNavigation step) /\
  evaluateCondition (formData snap) (condition nav) = true /\
  (forall other, In other (conditionalNavigation step) ->
     evaluateCondition (formData snap) (condition other) = true ->
     priority other <= priority nav).
Proof.
  intros Hf. destruct (firstMatching_spec _ _ _ Hf) as (pre & post & Hl & Hnav & Hpre).
  pose proof (sortedNavigation_perm (conditionalNavigation step)) as Hperm.
  pose proof (sortedNavigation_sorted (conditionalNavigation step)) as Hsorted.
  rewrite Hl in Hperm, Hsorted.
  split; [|split; [exact Hnav|]].
  - apply (Permutation_in _ Hperm). apply in_or_app. right. now left.
  - intros other Hin Hother.
    apply (Permutation_in _ (Permutation_sym Hperm)) in Hin.
    apply in_app_or in Hin as [Hin|[<-|Hin]].
    + rewrite List.Forall_forall in Hpre. specialize (Hpre _ Hin).
      unfold unmatchedRule in Hpre. congruence.
    + lia.
    + apply sorted_suffix in Hsorted.
      apply StronglySorted_inv in Hsorted as [_ Hall].
      rewrite List.Forall_forall in Hall. exact (Hall _ Hin).
Qed.

Lemma firstMatching_scan_next snap cur navs nav :
  Preview.firstMatching snap navs = Some nav ->
  targetType (target nav) = next ->
  scanNavigation form (formData snap) cur navs = Some (cur + 1).
Proof.
  induction navs as [|x rest IH]; simpl; [discriminate|].
  destruct (evaluateCondition (formData snap) (condition x)) eqn:Hx.
  - intros [= ->] Ht. now rewrite Ht.
  - exact IH.
Qed.

(** *** The step index stays at or above zero *)

Lemma indexOk_same m m' :
  currentStepIndex (view m') = currentStepIndex (view m) ->
  timers m' = timers m ->
  indexOk m -> indexOk m'.
Proof. unfold indexOk. now intros -> ->. Qed.

Lemma indexOk_setTimeout t m :
  timerIndexOk t -> indexOk m -> indexOk (Preview.setTimeout t m).
Proof.
  intros Ht [Hi Hts]. split; [exact Hi|]. cbn [timers Preview.setTimeout].
  apply Forall_app. split; [exact Hts | now constructor].
Qed.

Lemma indexOk_transition snap newIndex m :
  0 <= newIndex -> indexOk m -> indexOk (Preview.transitionToStep snap newIndex m).
Proof.
  intros Hn Hm. unfold Preview.transitionToStep.
  destruct (isTransitioning snap); [exact Hm|].
  apply indexOk_setTimeout; [exact Hn|].
  now apply (indexOk_same m).
Qed.

Lemma indexOk_submit m : indexOk m -> indexOk (Preview.handleSubmit m).
Proof.
  intros Hm. unfold Preview.handleSubmit.
  apply indexOk_setTimeout; [exact I|]. now apply (indexOk_same m).
Qed.

Lemma indexOk_resolve snap step m :
  0 <= currentStepIndex snap -> indexOk m ->
  indexOk
    (if meansSubmit form
          (getNextStepIndex form (formData snap) step (currentStepIndex snap))
     then Preview.handleSubmit m
     else Preview.transitionToStep snap
            (getNextStepIndex form (formData snap) step (currentStepIndex snap)) m).
Proof.
  intros Hsnap Hm.
  destruct (meansSubmit form _) eqn:Hs; [now apply indexOk_submit|].
  apply meansSubmit_false in Hs as [Hne _].
  apply indexOk_transition; [|exact Hm].
  destruct (getNextStepIndex_lower (formData snap) step (currentStepIndex snap) Hsnap);
    [congruence | assumption].
Qed.

Lemma indexOk_continueNavigation snap step m :
  0 <= currentStepIndex snap -> indexOk m ->
  indexOk (Preview.continueNavigation form snap step m).
Proof.
  intros Hsnap Hm. unfold Preview.continueNavigation. cbv zeta.
  pose proof (indexOk_resolve snap step (Preview.setIsNavigating true m) Hsnap
                (indexOk_same m _ eq_refl eq_refl Hm)) as Hr.
  destruct (meansSubmit form _).
  - apply (indexOk_same (Preview.handleSubmit (Preview.setIsNavigating true m)));
      [reflexivity | reflexivity | exact Hr].
  - exact Hr.
Qed.

Lemma indexOk_handleContinue snap m m' :
  0 <= currentStepIndex snap -> indexOk m ->
  Preview.handleContinue form snap m = Normal m' -> indexOk m'.
Proof.
  intros Hsnap Hm. unfold Preview.handleContinue.
  destruct (Preview.currentStepOf form snap) as [step|]; [|now intros [= <-]].
  destruct (isTransitioning snap); [now intros [= <-]|].
  destruct (Preview.continueValidation snap step) as [[e|e]|].
  - cbv zeta. destruct (Validator.isValid e); intros [= <-].
    + apply indexOk_continueNavigation; [exact Hsnap|]. now apply (indexOk_same m).
    + now apply (indexOk_same m).
  - discriminate.
  - intros [= <-]. now apply indexOk_continueNavigation.
Qed.

Lemma indexOk_handleBack snap m :
  indexOk m -> indexOk (Preview.handleBack form snap m).
Proof.
  intros Hm. unfold Preview.handleBack.
  destruct (Preview.currentStepOf form snap) as [step|]; [|exact Hm].
  destruct (isTransitioning snap); [exact Hm|]. cbv zeta.
  assert (Hm' : indexOk (Preview.setIsNavigating true m)) by now apply (indexOk_same m).
  destruct (truthyString (defaultPrevStep step)) as [sid|].
  - destruct (Z.eqb_spec (findIndex (steps form) sid) (-1)).
    + apply indexOk_transition; [lia | exact Hm'].
    + apply indexOk_transition; [|exact Hm'].
      destruct (findIndex_range (steps form) sid); [congruence | lia].
  - apply indexOk_transition; [lia | exact Hm'].
Qed.

Lemma indexOk_handleInputChange snap q v m :
  0 <= currentStepIndex snap -> indexOk m ->
  indexOk (Preview.handleInputChange form snap q v m).
Proof.
  intros Hsnap Hm. unfold Preview.handleInputChange.
  destruct (Preview.currentStepOf form snap) as [step|]; [|exact Hm]. cbv zeta.
  set (m1 := Preview.setFormData _ m).
  assert (Hm1 : indexOk m1) by now apply (indexOk_same m).
  set (m2 := match truthyString (errors snap !! Validator.fieldKey q) with
             | Some _ => _ | None => m1 end).
  assert (Hm2 : indexOk m2).
  { unfold m2. destruct (truthyString _); [|exact Hm1]. now apply (indexOk_same m1). }
  clearbody m2.
  destruct (autoAdvance step && _); [|exact Hm2].
  destruct (Preview.hasValidValue v && _ && _); [|exact Hm2].
  apply indexOk_setTimeout; [exact Hsnap|]. now apply (indexOk_same m2).
Qed.

Lemma indexOk_effect snap m :
  0 <= currentStepIndex snap -> indexOk m ->
  indexOk (Preview.autoNavigateEffect form snap m).
Proof.
  intros Hsnap Hm. unfold Preview.autoNavigateEffect.
  destruct (Preview.currentStepOf form snap) as [step|]; [|exact Hm].
  destruct (_ || _ || _ || _); [exact Hm|].
  destruct (Preview.firstMatching snap _) as [nav|]; [|exact Hm].
  apply indexOk_setTimeout; [exact Hsnap|]. now apply (indexOk_same m).
Qed.

Lemma indexOk_fire t m :
  timerIndexOk t -> indexOk m -> indexOk (Preview.fire form t m).
Proof.
  intros Ht Hm. destruct t as [newIndex| |snap nav|snap|]; simpl in Ht |- *.
  - apply indexOk_setTimeout; [exact I|]. destruct Hm as [_ Hts]. now split.
  - now apply (indexOk_same m).
  - destruct (targetType (target nav)),
      (truthyString (stepId (target nav))) as [sid|];
      try exact Hm; try (now apply indexOk_submit);
      try (apply indexOk_transition; [lia | exact Hm]).
    destruct (Z.eqb_spec (findIndex (steps form) sid) (-1)); [exact Hm|].
    apply indexOk_transition; [|exact Hm].
    destruct (findIndex_range (steps form) sid); [congruence | lia].
  - destruct (Preview.currentStepOf form snap) as [step|]; [|exact Hm].
    now apply indexOk_resolve.
  - now apply (indexOk_same m).
Qed.

Lemma indexOk_dispatch ev m :
  indexOk m -> indexOk (Preview.dispatch form ev m).
Proof.
  intros Hm. pose proof Hm as [Hi Hts].
  destruct ev as [| | |q v|key onTextarea| |n]; simpl.
  - destruct (Preview.handleContinue form (view m) m) as [m'|] eqn:Hc; [|exact Hm].
    exact (indexOk_handleContinue _ _ _ Hi Hm Hc).
  - now apply indexOk_handleBack.
  - split; [simpl; lia | exact Hts].
  - now apply indexOk_handleInputChange.
  - unfold Preview.handleKeyDown.
    destruct (Preview.currentStepOf form (view m)); [|exact Hm].
    destruct (_ && _ && _); [|exact Hm].
    destruct (Preview.handleContinue form (view m) m) as [m'|] eqn:Hc; [|exact Hm].
    exact (indexOk_handleContinue _ _ _ Hi Hm Hc).
  - now apply indexOk_effect.
  - destruct (timers m !! n) as [t|] eqn:Ht; [|exact Hm].
    apply indexOk_fire.
    + exact (Forall_lookup_1 _ _ _ _ Hts Ht).
    + split; [exact Hi|]. cbn [timers]. unfold Preview.removeNth.
      apply Forall_app. split; [now apply Forall_take | now apply Forall_drop].
Qed.

Lemma indexOk_run evs m : indexOk m -> indexOk (Preview.run form evs m).
Proof.
  revert m. induction evs as [|ev evs IH]; intros m Hm; [exact Hm|].
  rewrite run_cons. apply IH. now apply indexOk_dispatch.
Qed.

(** *** What the two delayed actions schedule *)

Lemma inputChange_stores m q v :
  let key := Validator.fieldKey q in
  let m' := Preview.handleInputChange form (view m) q v m in
  Preview.currentStepOf form (view m) <> None ->
  formData (view m') = (<[key := v]> (formData (view m))) /\
  truthyString (errors (view m') !! key) = None /\
  (forall k, k <> key -> errors (view m') !! k = errors (view m) !! k) /\
  currentStepIndex (view m') = currentStepIndex (view m) /\
  isTransitioning (view m') = isTransitioning (view m) /\
  isSubmitting (view m') = isSubmitting (view m) /\
  submitted (view m') = submitted (view m) /\
  pendingStepIndex (refs m') = pendingStepIndex (refs m).
Proof.
  intros key m' Hcs. subst m'. unfold Preview.handleInputChange.
  destruct (Preview.currentStepOf form (view m)) as [step|]; [clear Hcs|congruence].
  cbv zeta. fold key.
  destruct (truthyString (errors (view m) !! key)) as [msg|] eqn:Herr;
    destruct (autoAdvance step && _);
    try destruct (Preview.hasValidValue v && _ && _);
    cbn [view refs formData errors currentStepIndex isTransitioning isSubmitting
         submitted pendingStepIndex Preview.setTimeout Preview.setIsNavigating
         Preview.setErrors Preview.setFormData];
    (refine (conj eq_refl (conj _ (conj _ (conj eq_refl (conj eq_refl
       (conj eq_refl (conj eq_refl eq_refl))))))));
    try (now rewrite lookup_delete_eq);
    try (intros k Hk; now rewrite lookup_delete_ne by congruence);
    try exact Herr; try reflexivity.
Qed.

Lemma inputChange_schedules m q v step :
  Preview.currentStepOf form (view m) = Some step ->
  autoAdvance step = true ->
  length (questions step) = 1%nat ->
  Preview.hasValidValue v = true ->
  isNavigating (refs m) = false ->
  isTransitioning (view m) = false ->
  exists m2,
    Preview.dispatch form (Preview.InputChange q v) m =
      Preview.setTimeout (AutoAdvance (view m)) (Preview.setIsNavigating true m2) /\
    timers m2 = timers m /\
    formData (view m2) = (<[Validator.fieldKey q := v]> (formData (view m))).
Proof.
  intros Hcs Hauto Hone Hvalid Hnav Htr.
  cbn [Preview.dispatch]. unfold Preview.handleInputChange.
  rewrite Hcs, Hauto, Hone, Hvalid, Htr. cbv zeta.
  destruct (truthyString (errors (view m) !! Validator.fieldKey q));
    cbn [refs isNavigating Preview.setErrors Preview.setFormData];
    rewrite Hnav; cbn [andb negb Nat.eqb];
    eexists; (split; [reflexivity|]); split; reflexivity.
Qed.

Lemma effect_schedules m step nav :
  Preview.currentStepOf form (view m) = Some step ->
  isSubmitting (view m) = false ->
  submitted (view m) = false ->
  isTransitioning (view m) = false ->
  isNavigating (refs m) = false ->
  Preview.firstMatching (view m) (sortedNavigation (conditionalNavigation step)) =
    Some nav ->
  Preview.dispatch form Preview.EffectRun m =
    Preview.setTimeout (AutoNavigate (view m) nav) (Preview.setIsNavigating true m).
Proof.
  intros Hcs Hsub Hdone Htr Hnav Hfirst.
  cbn [Preview.dispatch]. unfold Preview.autoNavigateEffect.
  now rewrite Hcs, Hsub, Hdone, Htr, Hnav, Hfirst.
Qed.

Lemma navigating_blocks m :
  isNavigating (refs m) = true ->
  Preview.dispatch form Preview.EffectRun m = m /\
  (forall q v, timers (Preview.dispatch form (Preview.InputChange q v) m) = timers m).
Proof.
  intros Hnav. split.
  - cbn [Preview.dispatch]. unfold Preview.autoNavigateEffect.
    destruct (Preview.currentStepOf form (view m)); [|reflexivity].
    rewrite Hnav. now rewrite orb_true_r.
  - intros q v. cbn [Preview.dispatch]. unfold Preview.handleInputChange.
    destruct (Preview.currentStepOf form (view m)) as [step|]; [|reflexivity].
    cbv zeta.
    destruct (truthyString _); destruct (autoAdvance step && _);
      cbn [refs isNavigating Preview.setErrors Preview.setFormData];
      rewrite ?Hnav, ?andb_false_r; reflexivity.
Qed.

(** *** What clears the navigating flag *)

Lemma navigating_transition snap newIndex m :
  isNavigating (refs (Preview.transitionToStep snap newIndex m)) = isNavigating (refs m).
Proof. unfold Preview.transitionToStep. now destruct (isTransitioning snap). Qed.

Lemma navigating_continue snap m m' :
  isNavigating (refs m) = true ->
  Preview.handleContinue form snap m = Normal m' ->
  isNavigating (refs m') = true.
Proof.
  intros Hnav. unfold Preview.handleContinue.
  destruct (Preview.currentStepOf form snap) as [step|]; [|now intros [= <-]].
  destruct (isTransitioning snap); [now intros [= <-]|].
  assert (Hgo : forall m0, isNavigating (refs m0) = true ->
                  isNavigating (refs (Preview.continueNavigation form snap step m0)) = true).
  { intros m0 H0. unfold Preview.continueNavigation. cbv zeta.
    destruct (meansSubmit form _); [exact H0|].
    now rewrite navigating_transition. }
  destruct (Preview.continueValidation snap step) as [[e|e]|].
  - cbv zeta. destruct (Validator.isValid e); intros [= <-]; [|exact Hnav].
    now apply Hgo.
  - discriminate.
  - intros [= <-]. now apply Hgo.
Qed.

Lemma navigating_fire t m :
  isNavigating (refs m) = true ->
  t <> FadeIn ->
  isNavigating (refs (Preview.fire form t m)) = true.
Proof.
  intros Hnav Ht. destruct t as [newIndex| |snap nav|snap|]; cbn [Preview.fire].
  - exact Hnav.
  - congruence.
  - destruct (targetType (target nav)),
      (truthyString (stepId (target nav))) as [sid|];
      try exact Hnav; try (now rewrite navigating_transition).
    destruct (findIndex (steps form) sid =? -1); [exact Hnav|].
    now rewrite navigating_transition.
  - destruct (Preview.currentStepOf form snap) as [step|]; [|exact Hnav].
    cbv zeta. destruct (meansSubmit form _); [exact Hnav|].
    now rewrite navigating_transition.
  - exact Hnav.
Qed.

Lemma navigating_cleared ev m :
  isNavigating (refs m) = true ->
  isNavigating (refs (Preview.dispatch form ev m)) = false ->
  exists n, ev = Preview.TimerElapsed n /\ timers m !! n = Some FadeIn.
Proof.
  intros Hnav Hclear.
  assert (Hcontinue : forall r,
            Preview.handleContinue form (view m) m = r ->
            isNavigating (refs (match r with Normal m' => m' | Throw _ => m end)) = true).
  { intros [m'|err] Hr; [|exact Hnav]. exact (navigating_continue _ _ _ Hnav Hr). }
  destruct ev as [| | |q v|key onTextarea| |n]; cbn [Preview.dispatch] in Hclear.
  - rewrite (Hcontinue _ eq_refl) in Hclear. discriminate.
  - exfalso. revert Hclear. unfold Preview.handleBack.
    destruct (Preview.currentStepOf form (view m)) as [step|]; [|congruence].
    destruct (isTransitioning (view m)); [congruence|]. cbv zeta.
    destruct (truthyString (defaultPrevStep step)) as [sid|];
      [destruct (findIndex (steps form) sid =? -1)|];
      rewrite navigating_transition; discriminate.
  - exfalso. revert Hclear. unfold Preview.resetPreview. cbn [refs
      Preview.setSubmitted Preview.setErrors Preview.setFormData
      Preview.setCurrentStepIndex]. congruence.
  - exfalso. revert Hclear. unfold Preview.handleInputChange.
    destruct (Preview.currentStepOf form (view m)) as [step|]; [|congruence].
    cbv zeta.
    destruct (truthyString _); destruct (autoAdvance step && _);
      cbn [refs isNavigating Preview.setErrors Preview.setFormData];
      rewrite ?Hnav, ?andb_false_r; cbn [andb refs isNavigating Preview.setErrors
        Preview.setFormData]; congruence.
  - exfalso. revert Hclear. unfold Preview.handleKeyDown.
    destruct (Preview.currentStepOf form (view m)); [|congruence].
    destruct (_ && _ && _); [|congruence].
    rewrite (Hcontinue _ eq_refl). discriminate.
  - exfalso. destruct (navigating_blocks m Hnav) as [Heffect _].
    cbn [Preview.dispatch] in Heffect. rewrite Heffect in Hclear. congruence.
  - destruct (timers m !! n) as [t|] eqn:Ht; [|congruence].
    assert (Hcases : t = FadeIn \/ t <> FadeIn)
      by (destruct t; (now left) || (right; discriminate)).
    destruct Hcases as [->|Hne]; [now exists n|].
    exfalso. rewrite navigating_fire in Hclear; [discriminate | exact Hnav | exact Hne].
Qed.

(** Answer changes and effect runs, while the flag is set, schedule
    nothing and leave the flag set. *)
Lemma navigating_quiet evs m :
  isNavigating (refs m) = true ->
  Forall answerOrEffect evs ->
  timers (Preview.run form evs m) = timers m /\
  isNavigating (refs (Preview.run form evs m)) = true.
Proof.
  revert m. induction evs as [|ev evs IH]; intros m Hnav Hevs; [now split|].
  apply Forall_cons_1 in Hevs as [Hev Hevs]. rewrite run_cons.
  assert (Hstep : timers (Preview.dispatch form ev m) = timers m /\
                  isNavigating (refs (Preview.dispatch form ev m)) = true).
  { destruct (navigating_blocks m Hnav) as [Heffect Hinput].
    destruct ev as [| | |q v|key onTextarea| |n]; try contradiction.
    - split; [apply Hinput|].
      destruct (isNavigating (refs (Preview.dispatch form (Preview.InputChange q v) m)))
        eqn:Hflag; [reflexivity|].
      destruct (navigating_cleared _ m Hnav Hflag) as (n & Habs & _). discriminate Habs.
    - rewrite Heffect. now split. }
  destruct Hstep as [Htimers Hflag].
  destruct (IH _ Hflag Hevs) as [Ht Hn]. split; [now rewrite Ht | exact Hn].
Qed.

End MachineFacts.



(** X17. While a transition is in progress the Continue button, the Back
    button, the Enter key and the auto-navigation effect change nothing.
    A change of an answer schedules no auto-advance and leaves the two
    refs alone. *)
Theorem transition_blocks_navigation `{JsRuntime} (form : Form) (m : Machine) :
  isTransitioning (view m) = true ->
  Preview.dispatch form Preview.ClickContinue m = m /\
  Preview.dispatch form Preview.ClickBack m = m /\
  (forall key onTextarea,
     Preview.dispatch form (Preview.KeyDown key onTextarea) m = m) /\
  Preview.dispatch form Preview.EffectRun m = m /\
  (forall q v,
     timers (Preview.dispatch form (Preview.InputChange q v) m) = timers m /\
     refs (Preview.dispatch form (Preview.InputChange q v) m) = refs m).
Proof.
  intros Htr.
  assert (Hcontinue : Preview.handleContinue form (view m) m = Normal m).
  { unfold Preview.handleContinue.
    destruct (Preview.currentStepOf form (view m)); [|reflexivity]. now rewrite Htr. }
  refine (conj _ (conj _ (conj _ (conj _ _)))).
  - cbn [Preview.dispatch]. now rewrite Hcontinue.
  - cbn [Preview.dispatch]. unfold Preview.handleBack.
    destruct (Preview.currentStepOf form (view m)); [|reflexivity]. now rewrite Htr.
  - intros key onTextarea. cbn [Preview.dispatch]. unfold Preview.handleKeyDown.
    destruct (Preview.currentStepOf form (view m)); [|reflexivity].
    destruct (_ && _ && _); [|reflexivity]. now rewrite Hcontinue.
  - cbn [Preview.dispatch]. unfold Preview.autoNavigateEffect.
    destruct (Preview.currentStepOf form (view m)); [|reflexivity].
    now rewrite Htr, orb_true_r.
  - intros q v. cbn [Preview.dispatch]. unfold Preview.handleInputChange.
    destruct (Preview.currentStepOf form (view m)) as [step|]; [|now split].
    cbv zeta. rewrite Htr.
    destruct (truthyString _); destruct (autoAdvance step && _);
      cbn [negb]; rewrite ?andb_false_r; now split.
Qed.

Lemma transition_blocks_navigation_witness :
  isTransitioning (view (Preview.setIsTransitioning true Preview.initial)) = true /\
  Preview.dispatch NavigationExample.abc Preview.ClickContinue
    (Preview.setIsTransitioning true Preview.initial) =
  Preview.setIsTransitioning true Preview.initial.
Proof.
  split; [reflexivity|].
  exact (proj1 (transition_blocks_navigation NavigationExample.abc
                  (Preview.setIsTransitioning true Preview.initial) eq_refl)).
Defined.



(** X19. A change of an answer stores the value under the key of the
    question ([fieldName], else the id) and leaves no error message shown
    for that key.  The errors of the other keys, the step shown and the
    flags of the preview stay as they were. *)
Theorem handleInputChange_stores `{JsRuntime} (form : Form) (m : Machine)
    (q : Question) (v : JsValue) :
  steps form <> [] ->
  let key := Validator.fieldKey q in
  let changed := Preview.dispatch form (Preview.InputChange q v) m in
  formData (view changed) = (<[key := v]> (formData (view m))) /\
  formData (view changed) !! key = Some v /\
  (forall k, k <> key -> formData (view changed) !! k = formData (view m) !! k) /\
  truthyString (errors (view changed) !! key) = None /\
  (forall k, k <> key -> errors (view changed) !! k = errors (view m) !! k) /\
  currentStepIndex (view changed) = currentStepIndex (view m) /\
  isTransitioning (view changed) = isTransitioning (view m) /\
  submitted (view changed) = submitted (view m).
Proof.
  intros Hsteps key changed.
  destruct (currentStepOf_some form (view m) Hsteps) as [step Hcs].
  destruct (inputChange_stores form m q v ltac:(congruence))
    as (Hdata & Herr & Hothers & Hindex & Htr & _ & Hdone & _).
  fold key in Hdata, Herr, Hothers. subst changed. cbn [Preview.dispatch].
  refine (conj Hdata (conj _ (conj _ (conj Herr (conj Hothers
           (conj Hindex (conj Htr Hdone))))))).
  - rewrite Hdata. apply lookup_insert_eq.
  - intros k Hk. rewrite Hdata. apply lookup_insert_ne. congruence.
Qed.

Lemma handleInputChange_stores_witness :
  steps ResetExample.autoForm <> [] /\
  formData (view (Preview.dispatch ResetExample.autoForm
                    (Preview.InputChange ResetExample.choice (VString "x"))
                    Preview.initial)) !! "choice" = Some (VString "x").
Proof.
  split; [discriminate|].
  exact (proj1 (proj2 (handleInputChange_stores ResetExample.autoForm Preview.initial
                         ResetExample.choice (VString "x") ltac:(discriminate)))).
Defined.

(** X20. On a step with auto-advance and a single question, a change to
    a value that is not empty, made while the preview is neither
    navigating nor transitioning, schedules one auto-advance and marks
    the preview as navigating.  Any number of answer changes and runs of
    the auto-navigation effect that follow it directly schedule nothing
    more and leave the mark set.  The mark, once set, is cleared by
    nothing but the fade-in timer of a transition, whichever event comes
    next in whichever state. *)
Theorem autoAdvance_scheduled_once `{JsRuntime} (form : Form) (m : Machine)
    (step : Step) (q : Question) (v : JsValue) :
  Preview.currentStepOf form (view m) = Some step ->
  autoAdvance step = true ->
  length (questions step) = 1%nat ->
  Preview.hasValidValue v = true ->
  isNavigating (refs m) = false ->
  isTransitioning (view m) = false ->
  let changed := Preview.dispatch form (Preview.InputChange q v) m in
  timers changed = (timers m ++ [AutoAdvance (view m)])%list /\
  isNavigating (refs changed) = true /\
  (forall q' v',
     timers (Preview.dispatch form (Preview.InputChange q' v') changed) =
     timers changed) /\
  Preview.dispatch form Preview.EffectRun changed = changed /\
  (forall evs, Forall answerOrEffect evs ->
     timers (Preview.run form evs changed) = timers changed /\
     isNavigating (refs (Preview.run form evs changed)) = true) /\
  (forall (m' : Machine) (ev : Preview.Event),
     isNavigating (refs m') = true ->
     isNavigating (refs (Preview.dispatch form ev m')) = false ->
     exists n, ev = Preview.TimerElapsed n /\ timers m' !! n = Some FadeIn).
Proof.
  intros Hcs Hauto Hone Hvalid Hnav Htr changed.
  destruct (inputChange_schedules form m q v step Hcs Hauto Hone Hvalid Hnav Htr)
    as (m2 & Hchanged & Htimers & _).
  assert (Hflag : isNavigating (refs changed) = true)
    by (subst changed; now rewrite Hchanged).
  destruct (navigating_blocks form changed Hflag) as [Heffect Hinput].
  refine (conj _ (conj Hflag (conj Hinput (conj Heffect (conj _ _))))).
  - subst changed. rewrite Hchanged.
    cbn [timers Preview.setTimeout Preview.setIsNavigating].
    now rewrite Htimers.
  - intros evs Hevs. now apply navigating_quiet.
  - intros m' ev. apply navigating_cleared.
Qed.

Lemma autoAdvance_scheduled_once_witness :
  Preview.currentStepOf ResetExample.autoForm (view Preview.initial) =
    Some ResetExample.autoStep /\
  timers (Preview.dispatch ResetExample.autoForm
            (Preview.InputChange ResetExample.choice (VString "x")) Preview.initial) =
    [AutoAdvance (view Preview.initial)] /\
  timers (Preview.run ResetExample.autoForm
            [Preview.InputChange ResetExample.choice (VString "x");
             Preview.EffectRun;
             Preview.InputChange ResetExample.choice (VString "y");
             Preview.EffectRun] Preview.initial) =
    [AutoAdvance (view Preview.initial)].
Proof.
  split; [reflexivity|].
  destruct (autoAdvance_scheduled_once ResetExample.autoForm Preview.initial
              ResetExample.autoStep ResetExample.choice (VString "x")
              eq_refl eq_refl eq_refl eq_refl eq_refl eq_refl)
    as (Hone & _ & _ & _ & Hquiet & _).
  split; [exact Hone|].
  destruct (Hquiet [Preview.EffectRun;
                    Preview.InputChange ResetExample.choice (VString "y");
                    Preview.EffectRun]) as [Htimers _].
  - repeat constructor.
  - exact (eq_trans Htimers Hone).
Defined.

(** X21. The auto-advance that a change of an answer schedules resolves
    the next step on the answers of the render in which the change was
    made, that is without the new value: when its timer elapses it
    submits, or starts a transition to [getNextStepIndex] computed on the
    answers from before the change, while the answers stored by then
    hold the new value. *)
Theorem autoAdvance_resolves_on_old_answers `{JsRuntime} (form : Form)
    (m : Machine) (step : Step) (q : Question) (v : JsValue) :
  Preview.currentStepOf form (view m) = Some step ->
  autoAdvance step = true ->
  length (questions step) = 1%nat ->
  Preview.hasValidValue v = true ->
  isNavigating (refs m) = false ->
  isTransitioning (view m) = false ->
  let n := length (timers m) in
  let advanced :=
    Preview.run form [Preview.InputChange q v; Preview.TimerElapsed n] m in
  let nextIndex :=
    getNextStepIndex form (formData (view m)) step (currentStepIndex (view m)) in
  formData (view advanced) = (<[Validator.fieldKey q := v]> (formData (view m))) /\
  (meansSubmit form nextIndex = true ->
   isSubmitting (view advanced) = true /\
   timers advanced = (timers m ++ [SubmitDelay])%list) /\
  (meansSubmit form nextIndex = false ->
   pendingStepIndex (refs advanced) = Some nextIndex /\
   timers advanced = (timers m ++ [FadeOut nextIndex])%list).
Proof.
  intros Hcs Hauto Hone Hvalid Hnav Htr n advanced nextIndex.
  destruct (inputChange_schedules form m q v step Hcs Hauto Hone Hvalid Hnav Htr)
    as (m2 & Hchanged & Htimers & Hdata).
  assert (Hadvanced : advanced =
            if meansSubmit form nextIndex
            then Preview.handleSubmit (Preview.setIsNavigating true m2)
            else Preview.transitionToStep (view m) nextIndex
                   (Preview.setIsNavigating true m2)).
  { subst advanced. rewrite !run_cons, run_nil, Hchanged.
    rewrite last_timer_fires by (subst n; now rewrite <- Htimers).
    cbn [Preview.fire]. now rewrite Hcs. }
  rewrite Hadvanced. unfold Preview.transitionToStep. rewrite Htr.
  destruct (meansSubmit form nextIndex);
    cbn [view refs timers formData isSubmitting pendingStepIndex Preview.handleSubmit
         Preview.setTimeout Preview.setIsSubmitting Preview.setIsNavigating
         Preview.setPendingStepIndex Preview.setIsTransitioning];
    rewrite Htimers;
    (refine (conj Hdata (conj _ _))); intros Hs; try discriminate Hs; now split.
Qed.

Lemma autoAdvance_resolves_on_old_answers_witness :
  Preview.currentStepOf MachineExample.branchingForm (view Preview.initial) =
    Some MachineExample.branchingStep /\
  pendingStepIndex
    (refs (Preview.run MachineExample.branchingForm
             [Preview.InputChange ResetExample.choice (VString "yes");
              Preview.TimerElapsed 0] Preview.initial)) = Some 1 /\
  getNextStepIndex MachineExample.branchingForm {[ "choice" := VString "yes" ]}
    MachineExample.branchingStep 0 = 2.
Proof.
  refine (conj eq_refl (conj _ _)); [|vm_compute; reflexivity].
  destruct (autoAdvance_resolves_on_old_answers MachineExample.branchingForm
              Preview.initial MachineExample.branchingStep ResetExample.choice
              (VString "yes") eq_refl eq_refl eq_refl eq_refl eq_refl eq_refl)
    as (_ & _ & Hmoves).
  exact (proj1 (Hmoves ltac:(vm_compute; reflexivity))).
Defined.

(** X22. The auto-navigation effect schedules at most one navigation:
    run again before anything else happens, it changes nothing more.
    When it schedules one, it is for a rule of the step whose condition
    holds on the answers and whose priority no other rule with a true
    condition exceeds; until then the preview is marked as navigating. *)
Theorem autoNavigateEffect_first_match `{JsRuntime} (form : Form) (m : Machine) :
  let ran := Preview.dispatch form Preview.EffectRun m in
  Preview.dispatch form Preview.EffectRun ran = ran /\
  (ran = m \/
   exists step nav,
     Preview.currentStepOf form (view m) = Some step /\
     In nav (conditionalNavigation step) /\
     evaluateCondition (formData (view m)) (condition nav) = true /\
     (forall other, In other (conditionalNavigation step) ->
        evaluateCondition (formData (view m)) (condition other) = true ->
        priority other <= priority nav) /\
     view ran = view m /\
     isNavigating (refs ran) = true /\
     timers ran = (timers m ++ [AutoNavigate (view m) nav])%list).
Proof.
  intros ran.
  assert (Hcases :
            Preview.dispatch form Preview.EffectRun m = m \/
            exists step nav,
              Preview.currentStepOf form (view m) = Some step /\
              Preview.firstMatching (view m)
                (sortedNavigation (conditionalNavigation step)) = Some nav /\
              Preview.dispatch form Preview.EffectRun m =
                Preview.setTimeout (AutoNavigate (view m) nav)
                  (Preview.setIsNavigating true m)).
  { cbn [Preview.dispatch]. unfold Preview.autoNavigateEffect.
    destruct (Preview.currentStepOf form (view m)) as [step|]; [|now left].
    destruct (_ || _ || _ || _); [now left|].
    destruct (Preview.firstMatching (view m) _) as [nav|] eqn:Hfirst; [|now left].
    right. now exists step, nav. }
  subst ran. destruct Hcases as [Hsame | (step & nav & Hcs & Hfirst & Hran)].
  - split; [now rewrite !Hsame | now left].
  - rewrite Hran. split.
    + apply (navigating_blocks form). reflexivity.
    + right. exists step, nav.
      destruct (firstMatching_top (view m) step nav Hfirst) as (Hin & Hnav & Htop).
      now repeat split.
Qed.





(** X25. Whatever the user does and whichever timers elapse, in any
    order, the index of the step shown is never negative. *)
Theorem currentStepIndex_never_negative `{JsRuntime} (form : Form)
    (evs : list Preview.Event) :
  0 <= currentStepIndex (view (Preview.run form evs Preview.initial)).
Proof.
  assert (Hinit : indexOk Preview.initial) by (split; [simpl; lia | constructor]).
  exact (proj1 (indexOk_run form evs Preview.initial Hinit)).
Qed.

(** X26. The auto-navigation has no upper bound on a [next] target.  On
    the last step, when the rule it picks targets [next], the index
    moves past the last step once the timers have elapsed, and the
    preview then shows the first step of the form; the index that
    Continue resolves on the same answers is one that submits. *)
Theorem autoNavigate_past_last_step `{JsRuntime} (form : Form) (m : Machine)
    (step : Step) (nav : ConditionalNavigation) :
  nthZ (steps form) (currentStepIndex (view m)) = Some step ->
  currentStepIndex (view m) = Z.of_nat (length (steps form)) - 1 ->
  isSubmitting (view m) = false ->
  submitted (view m) = false ->
  isTransitioning (view m) = false ->
  isNavigating (refs m) = false ->
  Preview.firstMatching (view m) (sortedNavigation (conditionalNavigation step)) =
    Some nav ->
  targetType (target nav) = next ->
  let n := length (timers m) in
  let moved :=
    Preview.run form
      [Preview.EffectRun; Preview.TimerElapsed n; Preview.TimerElapsed n;
       Preview.TimerElapsed n] m in
  currentStepIndex (view moved) = Z.of_nat (length (steps form)) /\
  Preview.currentStepOf form (view moved) = steps form !! 0%nat /\
  isTransitioning (view moved) = false /\
  meansSubmit form
    (getNextStepIndex form (formData (view m)) step (currentStepIndex (view m))) = true.
Proof.
  intros Hstep Hlast Hsub Hdone Htr Hnav Hfirst Hnext n moved.
  destruct (currentStepOf_nth form _ _ Hstep) as [Hcs _].
  assert (Hmoved : moved =
            Preview.setIsNavigating false
              (Preview.setIsTransitioning false
                 (Preview.setPendingStepIndex None
                    (Preview.setCurrentStepIndex (currentStepIndex (view m) + 1)
                       (Preview.setIsNavigating true m))))).
  { subst moved. rewrite !run_cons.
    rewrite (effect_schedules form m step nav Hcs Hsub Hdone Htr Hnav Hfirst).
    rewrite last_timer_fires by reflexivity. cbn [Preview.fire]. rewrite Hnext.
    apply (transition_run form (view m) (Preview.setIsNavigating true m) _ n Htr eq_refl). }
  rewrite Hmoved.
  cbn [view currentStepIndex isTransitioning Preview.setIsNavigating
       Preview.setIsTransitioning Preview.setPendingStepIndex Preview.setCurrentStepIndex].
  refine (conj _ (conj _ (conj eq_refl _))).
  - lia.
  - unfold Preview.currentStepOf, nthZ. cbn [currentStepIndex].
    destruct (Z.ltb_spec (currentStepIndex (view m) + 1) 0); [reflexivity|].
    rewrite lookup_ge_None_2 by lia. reflexivity.
  - unfold getNextStepIndex, resolveFrom.
    rewrite (firstMatching_scan_next form (view m) _ _ nav Hfirst Hnext).
    unfold meansSubmit. apply orb_true_iff. right. apply Z.leb_le. lia.
Qed.

Lemma autoNavigate_past_last_step_witness :
  nthZ (steps MachineExample.overrunForm)
    (currentStepIndex (view (NavigationExample.atStep 1))) =
    Some MachineExample.lastStepWithNext /\
  currentStepIndex
    (view (Preview.run MachineExample.overrunForm
             [Preview.EffectRun; Preview.TimerElapsed 0; Preview.TimerElapsed 0;
              Preview.TimerElapsed 0] (NavigationExample.atStep 1))) = 2.
Proof.
  split; [reflexivity|].
  exact (proj1 (autoNavigate_past_last_step MachineExample.overrunForm
                  (NavigationExample.atStep 1) MachineExample.lastStepWithNext
                  NavigationExample.ruleNext eq_refl eq_refl eq_refl eq_refl eq_refl
                  eq_refl eq_refl eq_refl)).
Defined.
